(** * EVT (Kinemetrics) decoder: a shallow embedding of obspy/kinemetrics/evt.py

    The Python module reads a stream of tagged blocks (a 16-byte tag, one
    file header, then frame headers each followed by a packed data block)
    into per-channel sample sequences.  The embedding below follows the
    module class by class: byte strings are lists of [byte], Python integers
    are [Z], the class-level [HEADER] dictionaries are finite maps from field
    names to decoded values, and every method is a computation in a small
    state-and-exception monad, since the Python code mutates its objects
    and keeps those mutations when an exception escapes. *)

From Stdlib Require Import ZArith List Bool Lia.
From Stdlib Require Import Strings.Byte Strings.Ascii Strings.String.
From Stdlib Require Import Floats Uint63.
From stdpp Require Import gmap strings list fin_maps.

Local Open Scope string_scope.
Local Open Scope list_scope.
Local Open Scope Z_scope.
Set Warnings "-register-all".

(** ** Byte strings and [struct] integers *)

Module Bytes.

Definition byte_val (b : byte) : Z := Z.of_N (Byte.to_N b).

(** The byte whose value is [z mod 256]; used to write concrete buffers. *)
Definition byte_of (z : Z) : byte :=
  match Byte.of_N (Z.to_N (z mod 256)) with
  | Some b => b
  | None => x00
  end.

(** Python's [buff[lo:lo+n]] for non-negative [lo]: clipped to the buffer,
    never an error. *)
Definition slice (buff : list byte) (lo n : nat) : list byte :=
  take n (drop lo buff).

(** Big-endian base-256 value of a byte string. *)
Definition be_uint (bs : list byte) : Z :=
  fold_left (fun acc b => acc * 256 + byte_val b) bs 0.

(** Two's-complement reading of an unsigned value of [n] bytes. *)
Definition to_signed (n : nat) (u : Z) : Z :=
  if 2 ^ (8 * Z.of_nat n - 1) <=? u then u - 2 ^ (8 * Z.of_nat n) else u.

(** Big-endian encoding of [z mod 256^n] on [n] bytes. *)
Fixpoint be_bytes (n : nat) (z : Z) : list byte :=
  match n with
  | O => []
  | S n' => be_bytes n' (z / 256) ++ [byte_of z]
  end.

End Bytes.
Export Bytes.

(** ** Python floats: IEEE 754 binary64

    The only floating-point computation the decoder depends on is the
    expected block length [(samplerate / 10) * numbyte * numchan], a true
    division followed by two products.  Floats are the kernel's binary64
    numbers, so the rounding is the one Python performs. *)

Module PyFloat.

(** [float(z)] for [|z| < 2^63]; every integer the decoder converts is a
    field of at most 16 bits. *)
Definition of_int (z : Z) : float :=
  if z <? 0 then PrimFloat.opp (PrimFloat.of_uint63 (Uint63.of_Z (- z)))
  else PrimFloat.of_uint63 (Uint63.of_Z z).

(** [a / b] on integers under [from __future__ import division]. *)
Definition int_truediv (a b : Z) : float :=
  PrimFloat.div (of_int a) (of_int b).

(** [x * n] with [x] a float and [n] an integer. *)
Definition mul_int (x : float) (n : Z) : float :=
  PrimFloat.mul x (of_int n).

(** The integer a float is equal to, when there is one: a finite float is
    [(-1)^s * m * 2^e], an integer when [e >= 0] or the low [-e] bits of
    [m] are zero. *)
Definition int_value (x : float) : option Z :=
  match Prim2SF x with
  | S754_zero _ => Some 0
  | S754_finite s m e =>
      let v := if s then Z.neg m else Z.pos m in
      if 0 <=? e then Some (Z.shiftl v e)
      else if Z.land (Z.pos m) (Z.ones (- e)) =? 0
           then Some (Z.shiftr v (- e)) else None
  | _ => None
  end.

(** [n == x] for an integer [n] and a float [x]: Python compares the two by
    value, without rounding the integer. *)
Definition int_eqb (n : Z) (x : float) : bool :=
  match int_value x with
  | Some v => n =? v
  | None => false
  end.

End PyFloat.

Example float_tenth_times_3_times_10 :
  PyFloat.int_eqb 3 (PyFloat.mul_int (PyFloat.mul_int (PyFloat.int_truediv 1 10) 3) 10) = false.
Proof. vm_compute. reflexivity. Qed.

Example float_100_4_12 :
  PyFloat.int_eqb 480 (PyFloat.mul_int (PyFloat.mul_int (PyFloat.int_truediv 100 10) 4) 12) = true.
Proof. vm_compute. reflexivity. Qed.

(** ** Exceptions and the state-and-exception monad *)

Inductive exn :=
| EVTEOFError
| EVTBadHeaderError (msg : string)   (* the empty message is a bare [raise EVTBadHeaderError] *)
| EVTBadDataError (msg : string)
| NotImplementedError (msg : string)
| TypeError            (* [str + int], or an operator applied to a value of the wrong type *)
| StructError          (* [struct.error]: the buffer does not have the size of the format *)
| ValueError           (* numpy shape mismatch, or I/O on a closed file *)
| IndexError
| UnboundLocalError
| ZeroDivisionError
| IOError
| OutOfFuel.           (* not a Python exception: the bound of the loop model, never reached *)

Inductive outcome (A : Type) :=
| Ok (a : A)
| Raise (e : exn).
Arguments Ok {A} a.
Arguments Raise {A} e.

Section Monad.
Context {S : Type}.

(** A computation transforms the state and either returns or raises; the
    state reached when it raises is kept, as mutations are in Python. *)
Definition M (A : Type) : Type := S -> S * outcome A.

Definition ret {A} (a : A) : M A := fun s => (s, Ok a).
Definition raise {A} (e : exn) : M A := fun s => (s, Raise e).
Definition bind {A B} (m : M A) (f : A -> M B) : M B :=
  fun s => match m s with
           | (s', Ok a) => f a s'
           | (s', Raise e) => (s', Raise e)
           end.
Definition gets {A} (f : S -> A) : M A := fun s => (s, Ok (f s)).
Definition modify (f : S -> S) : M unit := fun s => (f s, Ok tt).
(** Lifting of a pure computation that may raise. *)
Definition lift {A} (o : outcome A) : M A := fun s => (s, o).

(** [try: m except e: h] for the one exception the decoder catches. *)
Definition catch_eof {A} (m : M A) (h : M A) : M A :=
  fun s => match m s with
           | (s', Raise EVTEOFError) => h s'
           | r => r
           end.
End Monad.
Arguments M S A : clear implicits.

Notation "'let*' x ':=' c1 'in' c2" := (bind c1 (fun x => c2))
  (at level 10, x pattern, c1 at level 100, c2 at level 200).

(** Pure computations that may raise: the monad at a trivial state. *)
Definition obind {A B} (o : outcome A) (f : A -> outcome B) : outcome B :=
  match o with
  | Ok a => f a
  | Raise e => Raise e
  end.
Notation "'let+' x ':=' c1 'in' c2" := (obind c1 (fun x => c2))
  (at level 10, x pattern, c1 at level 100, c2 at level 200).

(** [for x in l: body x], threading what the body updates. *)
Fixpoint ofold {A B} (l : list A) (body : A -> B -> outcome B) (acc : B) : outcome B :=
  match l with
  | [] => Ok acc
  | x :: l' => let+ acc' := body x acc in ofold l' body acc'
  end.

Fixpoint omap {A B} (f : A -> outcome B) (l : list A) : outcome (list B) :=
  match l with
  | [] => Ok []
  | x :: l' => let+ y := f x in let+ ys := omap f l' in Ok (y :: ys)
  end.

(** ** Decoded values *)

Inductive endian := Big | Little.   (* [b">"] and [b"<"] *)

Inductive value :=
| VInt (z : Z)
| VBytes (b : list byte)
| VFloat (bits : Z)            (* an [f] field, kept as its 32-bit pattern *)
| VText (b : list byte)        (* text decoded from a byte string *)
| VStr (s : string)            (* a string built by the code *)
| VTime (secs msec : Z)        (* a timestamp assembled from two fields *)
| VInstrument (code : Z)       (* an instrument label, kept as its code *)
| VList (l : list value)
| VNone.

Definition as_int (v : value) : outcome Z :=
  match v with
  | VInt z => Ok z
  | _ => Raise TypeError
  end.

(** ** [struct.unpack] with standard sizes *)

Module Struct.

Inductive fcode := Fx | Fc | Fb | FB | Fh | FH | Fi | Fl | FL | Ff | Fs.

Definition fcode_of (a : ascii) : option fcode :=
  if Ascii.eqb a "x" then Some Fx else
  if Ascii.eqb a "c" then Some Fc else
  if Ascii.eqb a "b" then Some Fb else
  if Ascii.eqb a "B" then Some FB else
  if Ascii.eqb a "h" then Some Fh else
  if Ascii.eqb a "H" then Some FH else
  if Ascii.eqb a "i" then Some Fi else
  if Ascii.eqb a "l" then Some Fl else
  if Ascii.eqb a "L" then Some FL else
  if Ascii.eqb a "f" then Some Ff else
  if Ascii.eqb a "s" then Some Fs else None.

Definition digit_of (a : ascii) : option nat :=
  let n := nat_of_ascii a in
  if ((48 <=? n) && (n <=? 57))%nat then Some (n - 48)%nat else None.

(** Number of bytes of one item of each code. *)
Definition size_of (c : fcode) : nat :=
  match c with
  | Fx | Fc | Fb | FB | Fs => 1
  | Fh | FH => 2
  | Fi | Fl | FL | Ff => 4
  end.

(** A format is a sequence of codes, each with an optional repeat count. *)
Fixpoint parse (s : string) (count : option nat) : option (list (nat * fcode)) :=
  match s with
  | EmptyString => match count with None => Some [] | Some _ => None end
  | String a rest =>
      match digit_of a with
      | Some d => parse rest (Some (10 * default 0%nat count + d)%nat)
      | None =>
          match fcode_of a, parse rest None with
          | Some c, Some items => Some ((default 1%nat count, c) :: items)
          | _, _ => None
          end
      end
  end.

(** The byte-order prefix; a format without prefix is native, which the
    decoder only uses for single bytes. *)
Definition split_order (s : string) : endian * string :=
  match s with
  | String a rest =>
      if Ascii.eqb a ">" then (Big, rest)
      else if Ascii.eqb a "<" then (Little, rest)
      else (Little, s)
  | EmptyString => (Little, s)
  end.

Definition calcsize (items : list (nat * fcode)) : nat :=
  foldr (fun '(n, c) acc => (n * size_of c + acc)%nat) 0%nat items.

Definition read_uint (e : endian) (bs : list byte) : Z :=
  be_uint (match e with Big => bs | Little => rev bs end).

(** One value of code [c] from exactly [size_of c] bytes. *)
Definition decode1 (e : endian) (c : fcode) (bs : list byte) : value :=
  match c with
  | Fb | Fh | Fi | Fl => VInt (to_signed (size_of c) (read_uint e bs))
  | FB | FH | FL => VInt (read_uint e bs)
  | Ff => VFloat (read_uint e bs)
  | Fx | Fc | Fs => VBytes bs
  end.

Fixpoint decode_repeat (e : endian) (c : fcode) (n : nat) (bs : list byte) : list value :=
  match n with
  | O => []
  | S n' => decode1 e c (take (size_of c) bs)
            :: decode_repeat e c n' (drop (size_of c) bs)
  end.

Fixpoint decode_items (e : endian) (items : list (nat * fcode)) (bs : list byte) : list value :=
  match items with
  | [] => []
  | (n, c) :: rest =>
      let sz := (n * size_of c)%nat in
      match c with
      | Fx => []
      | Fs => [VBytes (take n bs)]
      | _ => decode_repeat e c n bs
      end ++ decode_items e rest (drop sz bs)
  end.

(** [unpack(fmt, buff)]: [struct.error] unless the buffer has exactly the
    size of the format. *)
Definition unpack (fmt : string) (buff : list byte) : outcome (list value) :=
  let '(e, body) := split_order fmt in
  match parse body None with
  | None => Raise StructError
  | Some items =>
      if (calcsize items =? length buff)%nat then Ok (decode_items e items buff)
      else Raise StructError
  end.

(** [fmt * n] on strings. *)
Fixpoint str_repeat (s : string) (n : nat) : string :=
  match n with
  | O => EmptyString
  | S n' => s +:+ str_repeat s n'
  end.

End Struct.
Export Struct.

Definition endian_prefix (e : endian) : string :=
  match e with Big => ">" | Little => "<" end.

Definition FRAME_STRUCT : string := "BBHHLHHBBHB13s".
Definition HEADER_STRUCT1 : string := "3sB2H3B3x6Hh2Hh22x3B5x2H4hH2x2h6L16x".
Definition HEADER_STRUCT2 : string := str_repeat "lLlL2l12x" 12.
Definition HEADER_STRUCT3 : string := "3L4H2L4x2H5s33sh2f4h4B2LB17s2B2B6xh22x".
Definition HEADER_STRUCT4 : string := str_repeat "5sbH5h3H4BHBx8f2B10x" 12.

Definition fmt_size (fmt : string) : option nat :=
  calcsize <$> parse (snd (split_order fmt)) None.
Definition fmt_count (fmt : string) : option nat :=
  (fun items => length (decode_items Big items (replicate (calcsize items) x00)))
    <$> parse (snd (split_order fmt)) None.

Example FRAME_STRUCT_size : fmt_size FRAME_STRUCT = Some 32%nat /\ fmt_count FRAME_STRUCT = Some 12%nat.
Proof. split; reflexivity. Qed.
Example HEADER_STRUCT1_size : fmt_size HEADER_STRUCT1 = Some 124%nat /\ fmt_count HEADER_STRUCT1 = Some 35%nat.
Proof. split; reflexivity. Qed.
Example HEADER_STRUCT2_size : fmt_size HEADER_STRUCT2 = Some 432%nat /\ fmt_count HEADER_STRUCT2 = Some 72%nat.
Proof. split; reflexivity. Qed.
Example HEADER_STRUCT3_size : fmt_size HEADER_STRUCT3 = Some 156%nat /\ fmt_count HEADER_STRUCT3 = Some 33%nat.
Proof. split; reflexivity. Qed.
Example HEADER_STRUCT4_size : fmt_size HEADER_STRUCT4 = Some 912%nat /\ fmt_count HEADER_STRUCT4 = Some 324%nat.
Proof. split; reflexivity. Qed.
Example tag_struct_size : fmt_size ">cBBBLHHHH" = Some 16%nat /\ fmt_count "<cBBBLHHHH" = Some 9%nat.
Proof. split; reflexivity. Qed.
Example unpack_be_i : unpack ">i" (map byte_of [255; 255; 255; 0]) = Ok [VInt (-256)].
Proof. reflexivity. Qed.
Example unpack_le_H : unpack "<HB" (map byte_of [1; 2; 3]) = Ok [VInt 513; VInt 3].
Proof. reflexivity. Qed.
Example unpack_short : unpack ">i" (map byte_of [255; 255; 255]) = Raise StructError.
Proof. reflexivity. Qed.

(** ** The field tables and the schema engine *)

(** The transform bound to a field: the second entry of a [HEADER] row,
    [''] or [[method, param]]. *)
Inductive transform :=
| T_none
| T_instrument
| T_gpsstatus
| T_time (param : Z)
| T_strnull
| T_array (size stride base : Z)
| T_arraynull (size stride base : Z).

(** A [HEADER] table: field name, position index, transform. *)
Definition schema := list (string * (Z * transform)).

Definition value_is (v : value) (z : Z) : bool :=
  match v with
  | VInt x => x =? z
  | _ => false
  end.

Definition bytes_eqb (a b : list byte) : bool :=
  (length a =? length b)%nat && forallb (fun '(x, y) => Byte.eqb x y) (zip a b).

(** [val[i]], with an index outside the list an error. *)
Definition val_at (val : list value) (i : Z) : outcome value :=
  if i <? 0 then Raise IndexError
  else match val !! Z.to_nat i with
       | Some v => Ok v
       | None => Raise IndexError
       end.

(** [EVT_HEADER._gpsstatus]: the labels of the bits set, in ascending bit
    order, each followed by a space. *)
Definition _gpsstatus (raw : value) : outcome value :=
  let dico := [(1, "Checking"); (2, "Present"); (4, "Error"); (8, "Failed");
               (16, "Not Locked"); (32, "ON")] in
  let+ v := as_int raw in
  Ok (VStr (foldl (fun retval '(key, label) =>
                     if Z.land v key =? 0 then retval else retval +:+ label +:+ " ")
                  "" dico)).

Module EVT_Virtual.

(** Modelled from the spec: [EVT_Virtual] (obspy/kinemetrics/evt_base.py) is
    not among the sources.  stringTrim strips the trailing null bytes and
    decodes the rest as text. *)
Fixpoint rstrip_null (b : list byte) : list byte :=
  match b with
  | [] => []
  | x :: r =>
      match rstrip_null r with
      | [] => if Byte.eqb x x00 then [] else [x]
      | r' => x :: r'
      end
  end.

Definition _strnull (raw : value) : outcome value :=
  match raw with
  | VBytes b => Ok (VText (rstrip_null b))
  | _ => Raise TypeError
  end.

(** Modelled from the spec: timestampAssemble combines the integer field
    with the integer at the companion position; the parameter [-1] means
    there is no companion and the assembly is skipped. *)
Definition _time (raw : value) (param : Z) (val : list value) (offset : Z) : outcome value :=
  if param =? -1 then Ok raw
  else
    let+ secs := as_int raw in
    let+ c := val_at val (param - offset) in
    let+ msec := as_int c in
    Ok (VTime secs msec).

(** Modelled from the spec: perChannelArray is the sequence of
    [size] values at [base + i*stride - offset]. *)
Definition _array (size stride base : Z) (val : list value) (offset : Z) : outcome value :=
  let+ l := omap (fun i => val_at val (base + i * stride - offset)) (seqZ 0 size) in
  Ok (VList l).

(** The all-bits-set sentinel: [-1] for the signed integer fields and
    only [xff] bytes for a byte string. *)
Definition all_bits_set (v : value) : bool :=
  match v with
  | VInt z => z =? -1
  | VBytes b => forallb (Byte.eqb xff) b
  | _ => false
  end.

(** Modelled from the spec: perChannelArrayNullable is perChannelArray with
    the all-bits-set sentinel mapped to a null value. *)
Definition _arraynull (size stride base : Z) (val : list value) (offset : Z) : outcome value :=
  let+ l := omap (fun i => val_at val (base + i * stride - offset)) (seqZ 0 size) in
  Ok (VList (map (fun v => if all_bits_set v then VNone else v) l)).

(** Modelled from the spec: the spec names no transform for
    [_instrument]; the label is kept as the code it is looked up from. *)
Definition _instrument (raw : value) : outcome value :=
  let+ c := as_int raw in Ok (VInstrument c).

Definition apply_transform (t : transform) (raw : value) (val : list value)
    (offset : Z) : outcome value :=
  match t with
  | T_none => Ok raw
  | T_instrument => _instrument raw
  | T_gpsstatus => _gpsstatus raw
  | T_time param => _time raw param val offset
  | T_strnull => _strnull raw
  | T_array size stride base => _array size stride base val offset
  | T_arraynull size stride base => _arraynull size stride base val offset
  end.

(** Modelled from the spec: [setdico(val, offset)].  For every field whose
    position, shifted by [offset], falls inside [val], the transformed value
    is stored; the other fields keep their prior value.  The store reached
    when a transform raises is returned with the exception. *)
Fixpoint setdico (HEADER : schema) (store : gmap string value)
    (val : list value) (offset : Z) : gmap string value * outcome unit :=
  match HEADER with
  | [] => (store, Ok tt)
  | (key, (pos, t)) :: rest =>
      let index := pos - offset in
      if (0 <=? index) && (index <? Z.of_nat (length val)) then
        match (let+ raw := val_at val index in apply_transform t raw val offset) with
        | Ok v => setdico rest (<[key := v]> store) val offset
        | Raise e => (store, Raise e)
        end
      else setdico rest store val offset
  end.

(** Modelled from the spec: [unsetdico()] forgets every stored value. *)
Definition unsetdico (store : gmap string value) : gmap string value := ∅.

(** Modelled from the spec: reading a field as an attribute; a field never
    stored has no third entry. *)
Definition getattr (store : gmap string value) (key : string) : outcome value :=
  match store !! key with
  | Some v => Ok v
  | None => Raise IndexError
  end.

End EVT_Virtual.
Export EVT_Virtual.

Definition EVT_HEADER_HEADER : schema :=
  [ ("instrument", (1, T_instrument));
    ("a2dbits", (4, T_none));
    ("samplebytes", (5, T_none));
    ("installedchan", (7, T_none));
    ("maxchannels", (8, T_none));
    ("batteryvoltage", (13, T_none));
    ("temperature", (16, T_none));
    ("gpsstatus", (18, T_gpsstatus));
    ("gpslastlock", (33, T_time (-1)));
    ("starttime", (107, T_time 112));
    ("triggertime", (108, T_time 113));
    ("duration", (109, T_none));
    ("nscans", (115, T_none));
    ("serialnumber", (116, T_none));
    ("nchannels", (117, T_none));
    ("stnid", (118, T_strnull));
    ("comment", (119, T_strnull));
    ("elevation", (120, T_none));
    ("latitude", (121, T_none));
    ("longitude", (122, T_none));
    ("chan_id", (140, T_arraynull 12 27 140));
    ("chan_north", (143, T_arraynull 12 27 143));
    ("chan_east", (144, T_arraynull 12 27 144));
    ("chan_up", (145, T_arraynull 12 27 145));
    ("chan_azimuth", (147, T_arraynull 12 27 147));
    ("chan_gain", (150, T_array 12 27 150));
    ("chan_fullscale", (157, T_array 12 27 157));
    ("chan_sensitivity", (158, T_array 12 27 158));
    ("chan_damping", (159, T_array 12 27 159));
    ("chan_natfreq", (160, T_array 12 27 160));
    ("chan_calcoil", (164, T_array 12 27 164));
    ("chan_range", (165, T_array 12 27 165));
    ("chan_sensorgain", (166, T_array 12 27 166)) ].

Definition EVT_FRAME_HEADER_HEADER : schema :=
  [ ("frametype", (0, T_none));
    ("instrumentcode", (1, T_instrument));
    ("recorderid", (2, T_none));
    ("framesize", (3, T_none));
    ("blocktime", (4, T_time 9));
    ("channelbitmap", (5, T_none));
    ("streampar", (6, T_none));
    ("framestatus", (7, T_none));
    ("framestatus2", (8, T_none));
    ("msec", (9, T_none));
    ("channelbitmap1", (10, T_none));
    ("timecode", (11, T_none)) ].

Definition EVT_TAG_HEADER : schema :=
  [ ("order", (1, T_none));
    ("version", (2, T_none));
    ("instrument", (3, T_instrument));
    ("type", (4, T_none));
    ("length", (5, T_none));
    ("datalength", (6, T_none));
    ("id", (7, T_none));
    ("checksum", (8, T_none));
    ("endian", (9, T_none)) ].

(** ** The objects the decoder works on *)

(** An entry of the sample matrix [self.data]: a raw count, or a count
    divided by the calibration factor
    [(8388608.0 / fullscale) * sensitivity / 9.81] of its channel, kept as
    the count and the two header values. *)
Inductive sample :=
| Count (z : Z)
| Scaled (z : sample) (fullscale sensitivity : Z).

(** A binary stream: its content, the read position and whether it was
    closed. *)
Record file := mkfile { f_bytes : list byte; f_pos : nat; f_closed : bool }.

(** The state of one run: the file system and the stream behind
    [file_pointer], the three class-level [HEADER] dictionaries (shared by all
    instances of a class), and the attributes of the [EVT] instance and of
    its four members. *)
Record world := mkworld {
  files : gmap string (list byte);
  fp : file;
  TAG : gmap string value;          (* EVT_TAG.HEADER *)
  HDR : gmap string value;          (* EVT_HEADER.HEADER *)
  FRM : gmap string value;          (* EVT_FRAME_HEADER.HEADER *)
  ETag_endian : option endian;
  EHeader_endian : option endian;
  EFrame_endian : option endian;
  numframe : Z;
  samplingrate : Z;
  data : list (list sample)
}.

Definition set_fp (f : file) (w : world) : world :=
  mkworld (files w) f (TAG w) (HDR w) (FRM w) (ETag_endian w) (EHeader_endian w)
          (EFrame_endian w) (numframe w) (samplingrate w) (data w).
Definition set_TAG (m : gmap string value) (w : world) : world :=
  mkworld (files w) (fp w) m (HDR w) (FRM w) (ETag_endian w) (EHeader_endian w)
          (EFrame_endian w) (numframe w) (samplingrate w) (data w).
Definition set_HDR (m : gmap string value) (w : world) : world :=
  mkworld (files w) (fp w) (TAG w) m (FRM w) (ETag_endian w) (EHeader_endian w)
          (EFrame_endian w) (numframe w) (samplingrate w) (data w).
Definition set_FRM (m : gmap string value) (w : world) : world :=
  mkworld (files w) (fp w) (TAG w) (HDR w) m (ETag_endian w) (EHeader_endian w)
          (EFrame_endian w) (numframe w) (samplingrate w) (data w).
Definition set_ETag_endian (e : option endian) (w : world) : world :=
  mkworld (files w) (fp w) (TAG w) (HDR w) (FRM w) e (EHeader_endian w)
          (EFrame_endian w) (numframe w) (samplingrate w) (data w).
Definition set_EHeader_endian (e : option endian) (w : world) : world :=
  mkworld (files w) (fp w) (TAG w) (HDR w) (FRM w) (ETag_endian w) e
          (EFrame_endian w) (numframe w) (samplingrate w) (data w).
Definition set_EFrame_endian (e : option endian) (w : world) : world :=
  mkworld (files w) (fp w) (TAG w) (HDR w) (FRM w) (ETag_endian w) (EHeader_endian w)
          e (numframe w) (samplingrate w) (data w).
Definition set_numframe (n : Z) (w : world) : world :=
  mkworld (files w) (fp w) (TAG w) (HDR w) (FRM w) (ETag_endian w) (EHeader_endian w)
          (EFrame_endian w) n (samplingrate w) (data w).
Definition set_samplingrate (n : Z) (w : world) : world :=
  mkworld (files w) (fp w) (TAG w) (HDR w) (FRM w) (ETag_endian w) (EHeader_endian w)
          (EFrame_endian w) (numframe w) n (data w).
Definition set_data (d : list (list sample)) (w : world) : world :=
  mkworld (files w) (fp w) (TAG w) (HDR w) (FRM w) (ETag_endian w) (EHeader_endian w)
          (EFrame_endian w) (numframe w) (samplingrate w) d.

(** [EVT()]: fresh members, [numframe = 0], [samplingrate = 0].  The class
    dictionaries are not part of the instance and stay as they are. *)
Definition EVT_init (w : world) : world :=
  mkworld (files w) (fp w) (TAG w) (HDR w) (FRM w) None None None 0 0 [].

(** [fp.read(n)]: up to [n] bytes from the current position (the rest of
    the stream for a negative [n]). *)
Definition fp_read (n : Z) : M world (list byte) :=
  fun w =>
    let f := fp w in
    if f_closed f then (w, Raise ValueError)
    else
      let rest := drop (f_pos f) (f_bytes f) in
      let out := if n <? 0 then rest else take (Z.to_nat n) rest in
      (set_fp (mkfile (f_bytes f) (f_pos f + length out) false) w, Ok out).

Definition fp_close : M world unit :=
  modify (fun w => set_fp (mkfile (f_bytes (fp w)) (f_pos (fp w)) true) w).

(** [open(name, "rb")] *)
Definition fp_open (name : string) : M world unit :=
  fun w => match files w !! name with
           | Some content => (set_fp (mkfile content 0 false) w, Ok tt)
           | None => (w, Raise IOError)
           end.

(** An attribute of a member, read through its class dictionary. *)
Definition attr (store : world -> gmap string value) (key : string) : M world value :=
  fun w => (w, getattr (store w) key).

(** [self.setdico(val, offset)] on a member. *)
Definition do_setdico (HEADER : schema) (store : world -> gmap string value)
    (set_store : gmap string value -> world -> world)
    (val : list value) (offset : Z) : M world unit :=
  fun w => let '(m, o) := setdico HEADER (store w) val offset in (set_store m w, o).

(** [str + int] *)
Definition str_add_int (s : string) (n : Z) : outcome string := Raise TypeError.

Definition attr_int (store : world -> gmap string value) (key : string) : M world Z :=
  let* v := attr store key in lift (as_int v).

(** ** class EVT_TAG *)

Module EVT_TAG.

Definition verify : M world bool :=
  let* type := attr TAG "type" in
  if negb (value_is type 1 || value_is type 2) then ret false
  else if value_is type 1 then
    let* length := attr TAG "length" in
    if negb (value_is length 2040 || value_is length 2736) then ret false
    else ret true
  else ret true.

Definition read : M world unit :=
  let* mystr := fp_read 16 in
  if (length mystr <? 16)%nat then raise EVTEOFError
  else
    let* sb := lift (unpack "cB" (slice mystr 0 2)) in
    let sync := nth 0 sb VNone in
    let byteOrder := nth 1 sb VNone in
    match sync with
    | VBytes s =>
        if bytes_eqb s [x00] then raise EVTEOFError
        else if negb (bytes_eqb s [x4b]) then raise (EVTBadHeaderError "Sync error")
        else
          let* endian :=
            (if value_is byteOrder 1 then ret Big
             else if value_is byteOrder 0 then ret Little
             else raise (EVTBadHeaderError "")) in
          let* val := lift (unpack (endian_prefix endian +:+ "cBBBLHHHH") mystr) in
          let* _ := do_setdico EVT_TAG_HEADER TAG set_TAG val 0 in
          let* _ := modify (set_ETag_endian (Some endian)) in
          let* ok := verify in
          if negb ok then raise (EVTBadHeaderError "Bad Tag values")
          else ret tt
    | _ => raise TypeError
    end.

End EVT_TAG.

(** ** class EVT_HEADER *)

Module EVT_HEADER.

Definition self_endian : M world endian :=
  fun w => (w, match EHeader_endian w with Some e => Ok e | None => Raise TypeError end).

Definition analyse_header12 (head_buff : list byte) : M world unit :=
  let* endian := self_endian in
  let pre := endian_prefix endian in
  let* val := lift (unpack (pre +:+ HEADER_STRUCT1) (slice head_buff 0 124)) in
  let* _ := do_setdico EVT_HEADER_HEADER HDR set_HDR val 0 in
  let* val := lift (unpack (pre +:+ HEADER_STRUCT2) (slice head_buff 124 432)) in
  let* _ := do_setdico EVT_HEADER_HEADER HDR set_HDR val 35 in
  let* val := lift (unpack (pre +:+ HEADER_STRUCT3) (slice head_buff 556 156)) in
  let* _ := do_setdico EVT_HEADER_HEADER HDR set_HDR val 107 in
  let* val := lift (unpack (pre +:+ HEADER_STRUCT4) (slice head_buff 712 912)) in
  do_setdico EVT_HEADER_HEADER HDR set_HDR val 140.

Definition read (length : Z) (endian : endian) : M world unit :=
  let* buff := fp_read length in
  let* _ := modify (set_EHeader_endian (Some endian)) in
  if length =? 2040 then analyse_header12 buff
  else if length =? 2736 then raise (NotImplementedError "16 Channel not implemented")
  else
    let* msg := lift (str_add_int "Bad Header length " length) in
    raise (EVTBadHeaderError msg).

(** [makeobspydico(numchan)]: every field, a per-channel list projected to
    the channel. *)
Definition makeobspydico (numchan : Z) (store : gmap string value)
    : outcome (gmap string value) :=
  ofold EVT_HEADER_HEADER
    (fun '(key, _) dico =>
       let+ v := getattr store key in
       match v with
       | VList l => let+ x := val_at l numchan in Ok (<[key := x]> dico)
       | _ => Ok (<[key := v]> dico)
       end)
    ∅.

End EVT_HEADER.

(** ** class EVT_FRAME_HEADER *)

Module EVT_FRAME_HEADER.

Definition count : M world Z := fun w => (w, Ok (numframe w)).

Definition verify : M world bool :=
  let* frametype := attr FRM "frametype" in
  if negb (value_is frametype 3 || value_is frametype 4 || value_is frametype 5)
  then ret false else ret true.

Definition self_endian : M world endian :=
  fun w => (w, match EFrame_endian w with Some e => Ok e | None => Raise TypeError end).

Definition analyse_frame32 (head_buff : list byte) : M world unit :=
  let* _ := modify (fun w => set_numframe (numframe w + 1) w) in
  let* endian := self_endian in
  let* val := lift (unpack (endian_prefix endian +:+ FRAME_STRUCT) head_buff) in
  let* _ := do_setdico EVT_FRAME_HEADER_HEADER FRM set_FRM val 0 in
  let* ok := verify in
  if negb ok then raise (EVTBadHeaderError "Bad Frame values") else ret tt.

Definition channels : M world Z :=
  let numchan := 12 in
  let* frametype := attr FRM "frametype" in
  if value_is frametype 4 then raise (NotImplementedError "16 Channels not implemented")
  else
    let* channelbitmap := attr_int FRM "channelbitmap" in
    ret (foldl (fun chan i => if Z.land channelbitmap (2 ^ i) =? 0 then chan else chan + 1)
               0 (seqZ 0 numchan)).

(** Returns [(samplingrate, samplesize, blocktime, channels)]. *)
Definition read (length : Z) (endian : endian) : M world (Z * Z * value * Z) :=
  let* buff := fp_read length in
  let* _ := modify (set_EFrame_endian (Some endian)) in
  let* _ :=
    (if length =? 32 then analyse_frame32 buff
     else
       let* msg := lift (str_add_int "Bad Header length " length) in
       raise (EVTBadHeaderError msg)) in
  let* streampar := attr_int FRM "streampar" in
  let samplingrate := Z.land streampar 4095 in
  let* framestatus := attr_int FRM "framestatus" in
  let samplesize := Z.shiftr framestatus 6 + 1 in
  let samplesize :=
    if negb ((samplesize =? 2) || (samplesize =? 3) || (samplesize =? 4)) then 3
    else samplesize in
  let* blocktime := attr FRM "blocktime" in
  let* chans := channels in
  ret (samplingrate, samplesize, blocktime, chans).

End EVT_FRAME_HEADER.

(** ** class EVT_DATA *)

Module EVT_DATA.

(** [num = (samplerate / 10) * numbyte * numchan], a float. *)
Definition expected_num (samplerate numbyte numchan : Z) : float :=
  PyFloat.mul_int (PyFloat.mul_int (PyFloat.int_truediv samplerate 10) numbyte) numchan.

(** [unpack(b">i", s)[0]] *)
Definition unpack_be_i (s : list byte) : outcome Z :=
  let+ l := unpack ">i" s in
  let+ v := val_at l 0 in
  as_int v.

(** The body of the inner loop: the value of sample [i]. *)
Definition sample_val (numbyte : Z) (buff : list byte) (i : Z) : outcome Z :=
  if numbyte =? 2 then
    let+ v := unpack_be_i (slice buff (Z.to_nat (i * 2)) 2 ++ [x00; x00]) in
    Ok (Z.shiftr v 8)
  else if numbyte =? 3 then
    let+ v := unpack_be_i (slice buff (Z.to_nat (i * 3)) 3 ++ [x00]) in
    Ok (Z.shiftr v 8)
  else if numbyte =? 4 then
    unpack_be_i (slice buff (Z.to_nat (i * 4)) 4)
  else Raise UnboundLocalError.

Definition unpack_block (samplerate numbyte numchan : Z) (buff : list byte)
    : outcome (list (list Z)) :=
  ofold (seqZ 0 (samplerate / 10))
    (fun j data =>
       ofold (seqZ 0 numchan)
         (fun k data =>
            let i := j * numchan + k in
            let+ val := sample_val numbyte buff i in
            Ok (alter (fun row => row ++ [val]) (Z.to_nat k) data))
         data)
    (replicate (Z.to_nat numchan) []).

Definition read (length : Z) (endian : endian) (param : Z * Z * value * Z)
    : M world (list (list Z)) :=
  let* buff := fp_read length in
  let '(samplerate, numbyte, _, numchan) := param in
  let num := expected_num samplerate numbyte numchan in
  if negb (PyFloat.int_eqb length num) then raise (EVTBadDataError "Bad data length")
  else lift (unpack_block samplerate numbyte numchan buff).

End EVT_DATA.

(** ** class EVT *)

Inductive filename_or_object :=
| FileObject                  (* a file-like object: the stream of the world *)
| FileName (name : string).

(** What [readFile] hands to [Trace]: the samples and the [stats] it sets. *)
Record Trace := mkTrace {
  tr_data : list sample;
  tr_channel : Z;                         (* [str(i)] *)
  tr_station : list byte;
  tr_sampling_rate : Z;                   (* [float(self.samplingrate)] *)
  tr_starttime : value;
  tr_kinemetrics_evt : gmap string value
}.

Module EVT.

(** [np.hstack((self.data, np.array(datal)))]: [self.data] is
    two-dimensional; [np.array([])] is one-dimensional, and the rows must
    agree in number. *)
Definition hstack (data : list (list sample)) (datal : list (list Z))
    : outcome (list (list sample)) :=
  if (length datal =? 0)%nat then Raise ValueError
  else if negb (length data =? length datal)%nat then Raise ValueError
  else Ok (zip_with (fun row new => row ++ map Count new) data datal).

Definition is_zero_float (bits : Z) : bool := Z.land bits 2147483647 =? 0.

(** [x[i]] for a stored per-channel list. *)
Definition item (v : value) (i : Z) : outcome value :=
  match v with
  | VList l => val_at l i
  | _ => Raise TypeError
  end.

Definition calibration : M world unit :=
  let* nchannels := attr_int HDR "nchannels" in
  let* chan_fullscale := attr HDR "chan_fullscale" in
  let* chan_sensitivity := attr HDR "chan_sensitivity" in
  let* self_data := gets data in
  let* d := lift
    (ofold (seqZ 0 nchannels)
       (fun i data =>
          let+ fs := item chan_fullscale i in
          match fs with
          | VFloat fbits =>
              if is_zero_float fbits then Raise ZeroDivisionError
              else
                let+ sens := item chan_sensitivity i in
                match sens with
                | VFloat sbits =>
                    match data !! Z.to_nat i with
                    | Some row =>
                        Ok (<[Z.to_nat i := map (fun x => Scaled x fbits sbits) row]> data)
                    | None => Raise IndexError
                    end
                | _ => Raise TypeError
                end
          | _ => Raise TypeError
          end)
       self_data) in
  modify (set_data d).

(** One turn of the [while True] loop; [true] when the loop goes on,
    [false] on [break]. *)
Definition read_block (endian : endian) : M world bool :=
  catch_eof
    (let* _ := EVT_TAG.read in
     let* length := attr_int TAG "length" in
     let* retparam := EVT_FRAME_HEADER.read length endian in
     let '(rate, _, _, _) := retparam in
     let* self_samplingrate := gets samplingrate in
     let* _ :=
       (if self_samplingrate =? 0 then modify (set_samplingrate rate)
        else if negb (self_samplingrate =? rate)
             then raise (EVTBadHeaderError "Sampling rate not constant")
             else ret tt) in
     let* datalength := attr_int TAG "datalength" in
     let* datal := EVT_DATA.read datalength endian retparam in
     let* self_data := gets data in
     let* d := lift (hstack self_data datal) in
     let* _ := modify (set_data d) in
     ret true)
    (ret false).

Fixpoint read_blocks (fuel : nat) (endian : endian) : M world unit :=
  match fuel with
  | O => raise OutOfFuel
  | S fuel' =>
      let* continue := read_block endian in
      if continue then read_blocks fuel' endian else ret tt
  end.

(** Every turn that goes on reads a 16-byte tag, so the loop makes at
    most one turn per byte of the stream, and a last one. *)
Definition loop_bound (w : world) : nat := S (length (f_bytes (fp w))).

Definition traces : M world (list Trace) :=
  let* nchannels := attr_int HDR "nchannels" in
  let* self_data := gets data in
  let* header := gets HDR in
  let* self_samplingrate := gets samplingrate in
  lift (omap
    (fun i =>
       let+ row := match self_data !! Z.to_nat i with
                   | Some row => Ok row
                   | None => Raise IndexError
                   end in
       let+ stnid := getattr header "stnid" in
       let+ station := match stnid with
                       | VText b | VBytes b =>
                           Ok (filter (fun x => Byte.eqb x x00 = false) b)
                       | _ => Raise TypeError
                       end in
       let+ starttime := getattr header "starttime" in
       let+ dico := EVT_HEADER.makeobspydico i header in
       Ok (mkTrace row i station self_samplingrate starttime dico))
    (seqZ 0 nchannels)).

Definition readFile (filename_or_object : filename_or_object) (Raw : bool)
    : M world (list Trace) :=
  let is_fileobject :=
    match filename_or_object with FileObject => true | FileName _ => false end in
  let* _ := match filename_or_object with
            | FileObject => ret tt
            | FileName name => fp_open name
            end in
  let* _ := EVT_TAG.read in
  let* self_ETag_endian := gets ETag_endian in
  let* endian := lift (match self_ETag_endian with
                       | Some e => Ok e
                       | None => Raise TypeError
                       end) in
  let* _ := modify (fun w => set_HDR (unsetdico (HDR w)) w) in
  let* length := attr_int TAG "length" in
  let* _ := EVT_HEADER.read length endian in
  let* nchannels := attr_int HDR "nchannels" in
  let* _ := modify (set_data (replicate (Z.to_nat nchannels) [])) in
  let* bound := gets loop_bound in
  let* _ := read_blocks bound endian in
  let* count := EVT_FRAME_HEADER.count in
  let* duration := attr HDR "duration" in
  if negb (value_is duration count) then raise (EVTBadDataError "Bad number of blocks")
  else
    let* _ := (if negb Raw then calibration else ret tt) in
    let* _ := (if negb is_fileobject then fp_close else ret tt) in
    traces.

End EVT.

(** ** Concrete streams

    Builders for the blocks of a recording, used to run the decoder on
    explicit inputs. *)

Module Sample_streams.

(** [n] bytes holding [z] in the given order. *)
Definition enc (e : endian) (n : nat) (z : Z) : list byte :=
  match e with Big => be_bytes n z | Little => rev (be_bytes n z) end.

Definition zeros (n : nat) : list byte := replicate n x00.

(** A tag block: sync ['K'], byte-order flag, version, instrument, then
    type, length, data length, id and checksum in the order [e]. *)
Definition tag_block (e : endian) (order type length datalength : Z) : list byte :=
  [x4b; byte_of order; x00; x00]
    ++ enc e 4 type ++ enc e 2 length ++ enc e 2 datalength ++ zeros 4.

Definition order_of (e : endian) : Z := match e with Big => 1 | Little => 0 end.

(** A 2040-byte file header, zero but for [duration] (bytes 564-567),
    [nchannels] (bytes 590-591) and a full scale and a sensitivity of 1.0
    for every channel. *)
Definition channel_block (e : endian) : list byte :=
  zeros 32 ++ enc e 4 1065353216 ++ enc e 4 1065353216 ++ zeros 36.

Definition header_block (e : endian) (nchannels duration : Z) : list byte :=
  zeros 564 ++ enc e 4 duration ++ zeros 22 ++ enc e 2 nchannels ++ zeros 120
    ++ concat (replicate 12 (channel_block e)) ++ zeros 416.

(** A 32-byte frame header, zero but for the frame type, the channel
    bitmap, the stream parameters and the frame status. *)
Definition frame_block (e : endian) (frametype channelbitmap streampar framestatus : Z)
    : list byte :=
  [byte_of frametype] ++ zeros 9 ++ enc e 2 channelbitmap ++ enc e 2 streampar
    ++ [byte_of framestatus] ++ zeros 17.

Definition stream_world (content : list byte) : world :=
  mkworld ∅ (mkfile content 0 false) ∅ ∅ ∅ None None None 0 0 [].

Definition file_world (name : string) (content : list byte) : world :=
  mkworld {[ name := content ]} (mkfile [] 0 true) ∅ ∅ ∅ None None None 0 0 [].

(** The end-to-end recording of the specification: twelve channels, two
    frames at 100 samples per second with four-byte samples, and an end
    marker. *)
Definition two_frames (duration : Z) : list byte :=
  tag_block Big 1 1 2040 0 ++ header_block Big 12 duration
    ++ tag_block Big 1 2 32 480 ++ frame_block Big 3 4095 100 192
    ++ concat (replicate 120 (enc Big 4 (-5)))
    ++ tag_block Big 1 2 32 480 ++ frame_block Big 3 4095 100 192
    ++ concat (replicate 120 (enc Big 4 7))
    ++ zeros 16.

End Sample_streams.
Import Sample_streams.

Example header_block_length : length (header_block Big 12 2) = 2040%nat.
Proof. reflexivity. Qed.

Example frame_block_length : length (frame_block Little 3 4095 100 192) = 32%nat.
Proof. reflexivity. Qed.

(** Projections of the result of [readFile], for statements about runs. *)
Definition outcome_map {A B} (f : A -> B) (o : outcome A) : outcome B :=
  match o with
  | Ok a => Ok (f a)
  | Raise e => Raise e
  end.

Definition run_rows (r : world * outcome (list Trace)) : outcome (list (list sample)) :=
  outcome_map (map tr_data) (snd r).
Definition run_rates (r : world * outcome (list Trace)) : outcome (list Z) :=
  outcome_map (map tr_sampling_rate) (snd r).
Definition run_error {A} (r : world * outcome A) : option exn :=
  match snd r with
  | Ok _ => None
  | Raise e => Some e
  end.
Definition run_closed {A} (r : world * outcome A) : bool := f_closed (fp (fst r)).

Example two_frames_decodes :
  run_rows (EVT.readFile FileObject true (stream_world (two_frames 2)))
  = Ok (replicate 12 (replicate 10 (Count (-5)) ++ replicate 10 (Count 7)))
  /\ run_rates (EVT.readFile FileObject true (stream_world (two_frames 2)))
     = Ok (replicate 12 100).
Proof. split; vm_compute; reflexivity. Qed.

Example two_frames_bad_duration :
  run_error (EVT.readFile FileObject true (stream_world (two_frames 3)))
  = Some (EVTBadDataError "Bad number of blocks").
Proof. vm_compute. reflexivity. Qed.

Example two_frames_calibrated :
  run_rows (EVT.readFile FileObject false (stream_world (two_frames 2)))
  = Ok (replicate 12 (replicate 10 (Scaled (Count (-5)) 1065353216 1065353216)
                       ++ replicate 10 (Scaled (Count 7) 1065353216 1065353216))).
Proof. vm_compute. reflexivity. Qed.

(** * Properties *)

(** ** Packed samples *)

(** The decoding rule in the words of the specification: a four-byte sample
    is a signed big-endian integer; a shorter one is padded with zero bytes
    on the low end to four bytes, read as a signed big-endian integer and
    shifted right by eight bits. *)
Definition spec_decode (width : Z) (raw : list byte) : Z :=
  if width =? 4 then to_signed 4 (be_uint raw)
  else Z.shiftr (to_signed 4 (be_uint (raw ++ replicate (Z.to_nat (4 - width)) x00))) 8.

(** [unpack] once its format is parsed. *)
Lemma unpack_parsed (fmt body : string) (e : endian) (items : list (nat * fcode))
    (buff : list byte) :
  split_order fmt = (e, body) ->
  parse body None = Some items ->
  unpack fmt buff
  = if (calcsize items =? length buff)%nat then Ok (decode_items e items buff)
    else Raise StructError.
Proof. intros Hs Hp. unfold unpack. rewrite Hs, Hp. reflexivity. Qed.

Lemma unpack_be_i_ok (s : list byte) :
  length s = 4%nat -> EVT_DATA.unpack_be_i s = Ok (to_signed 4 (be_uint s)).
Proof.
  intros Hlen. unfold EVT_DATA.unpack_be_i.
  rewrite (unpack_parsed ">i" "i" Big [(1%nat, Fi)]) by reflexivity.
  cbn. rewrite Hlen. cbn. rewrite take_ge by lia. reflexivity.
Qed.

Lemma unpack_be_i_short (s : list byte) :
  length s <> 4%nat -> EVT_DATA.unpack_be_i s = Raise StructError.
Proof.
  intros Hlen. unfold EVT_DATA.unpack_be_i.
  rewrite (unpack_parsed ">i" "i" Big [(1%nat, Fi)]) by reflexivity.
  change (calcsize [(1%nat, Fi)]) with 4%nat.
  destruct (Nat.eqb_spec 4 (length s)) as [E|E]; [congruence | reflexivity].
Qed.

(** A sample whose bytes are all in the buffer decodes by the rule of the
    specification. *)
Lemma sample_val_complete (numbyte : Z) (buff : list byte) (i : Z) :
  numbyte = 2 \/ numbyte = 3 \/ numbyte = 4 ->
  length (slice buff (Z.to_nat (i * numbyte)) (Z.to_nat numbyte)) = Z.to_nat numbyte ->
  EVT_DATA.sample_val numbyte buff i
  = Ok (spec_decode numbyte (slice buff (Z.to_nat (i * numbyte)) (Z.to_nat numbyte))).
Proof.
  intros [-> | [-> | ->]] Hlen; unfold EVT_DATA.sample_val, spec_decode; cbn [Z.eqb Pos.eqb];
    change (Z.to_nat 2) with 2%nat in *; change (Z.to_nat 3) with 3%nat in *;
    change (Z.to_nat 4) with 4%nat in *.
  - rewrite unpack_be_i_ok by (rewrite length_app, Hlen; reflexivity). reflexivity.
  - rewrite unpack_be_i_ok by (rewrite length_app, Hlen; reflexivity). reflexivity.
  - rewrite unpack_be_i_ok by exact Hlen. reflexivity.
Qed.

(** C1, as stated, fails for two-byte samples: the bytes [ff ff] decode
    to -256, the 16-bit value -1 scaled to the 24-bit range. *)
Lemma C1_width2_all_ones_is_minus_256 :
  EVT_DATA.sample_val 2 [xff; xff] 0 = Ok (-256)
  /\ snd (EVT_DATA.read 2 Big (10, 2, VNone, 1) (stream_world [xff; xff])) = Ok [[-256]]
  /\ snd (EVT_DATA.read 2 Big (10, 2, VNone, 1) (stream_world [xff; xff])) <> Ok [[-1]].
Proof.
  split; [reflexivity |].
  assert (E : snd (EVT_DATA.read 2 Big (10, 2, VNone, 1) (stream_world [xff; xff]))
              = Ok [[-256]]) by (vm_compute; reflexivity).
  split; [exact E | rewrite E; discriminate].
Qed.

(** C1 (amended): a sample of width 2, 3 or 4 whose bytes are all in the
    buffer is decoded by padding with zero bytes on the low end to four bytes,
    reading a signed big-endian 32-bit integer and, for widths 2 and 3,
    shifting right by eight bits; when its bytes are all 1-bits the result is
    -1 for widths 3 and 4 and -256 for width 2. *)
Theorem C1_all_ones_sample (numbyte : Z) (buff : list byte) (i : Z) :
  numbyte = 2 \/ numbyte = 3 \/ numbyte = 4 ->
  slice buff (Z.to_nat (i * numbyte)) (Z.to_nat numbyte)
  = replicate (Z.to_nat numbyte) xff ->
  EVT_DATA.sample_val numbyte buff i
  = Ok (spec_decode numbyte (replicate (Z.to_nat numbyte) xff))
  /\ spec_decode numbyte (replicate (Z.to_nat numbyte) xff)
     = (if numbyte =? 2 then -256 else -1).
Proof.
  intros Hw Hraw. split.
  - rewrite <- Hraw. apply sample_val_complete; [exact Hw |].
    rewrite Hraw. apply length_replicate.
  - destruct Hw as [-> | [-> | ->]]; reflexivity.
Qed.

Lemma C1_all_ones_sample_witness :
  EVT_DATA.sample_val 3 [x01; x02; x03; xff; xff; xff] 1
  = Ok (spec_decode 3 (replicate (Z.to_nat 3) xff))
  /\ spec_decode 3 (replicate (Z.to_nat 3) xff) = (if 3 =? 2 then -256 else -1).
Proof.
  apply (C1_all_ones_sample 3 [x01; x02; x03; xff; xff; xff] 1).
  - right. left. reflexivity.
  - reflexivity.
Defined.

(** ** The expected block length

    The geometry a frame header supplies is a sampling rate of at most 12
    bits, a width of 2, 3 or 4 and at most 12 channels.  Over that range the
    float [num] is never equal to an integer other than the exact value of
    [samplerate * numbyte * numchan / 10]; the table is checked by
    evaluation. *)

Definition geometry_exact (samplerate numbyte numchan : Z) : bool :=
  match PyFloat.int_value (EVT_DATA.expected_num samplerate numbyte numchan) with
  | Some n => 10 * n =? samplerate * numbyte * numchan
  | None => true
  end.

Lemma geometry_table :
  forallb (fun samplerate =>
    forallb (fun numbyte =>
      forallb (fun numchan => geometry_exact samplerate numbyte numchan) (seqZ 0 13))
      [2; 3; 4])
    (seqZ 0 4096) = true.
Proof. vm_compute. reflexivity. Qed.

Definition frame_geometry (samplerate numbyte numchan : Z) : Prop :=
  0 <= samplerate <= 4095
  /\ (numbyte = 2 \/ numbyte = 3 \/ numbyte = 4)
  /\ 0 <= numchan <= 12.

Lemma expected_num_exact (samplerate numbyte numchan length : Z) :
  frame_geometry samplerate numbyte numchan ->
  PyFloat.int_eqb length (EVT_DATA.expected_num samplerate numbyte numchan) = true ->
  10 * length = samplerate * numbyte * numchan.
Proof.
  intros (Hsr & Hnb & Hnc) Heq.
  assert (Hin1 : In samplerate (seqZ 0 4096))
    by (apply list_elem_of_In, elem_of_seqZ; lia).
  assert (Hin2 : In numbyte [2; 3; 4])
    by (destruct Hnb as [-> | [-> | ->]]; cbn; tauto).
  assert (Hin3 : In numchan (seqZ 0 13))
    by (apply list_elem_of_In, elem_of_seqZ; lia).
  pose proof (proj1 (forallb_forall _ _) geometry_table _ Hin1) as T1. cbv beta in T1.
  pose proof (proj1 (forallb_forall _ _) T1 _ Hin2) as T2. cbv beta in T2.
  pose proof (proj1 (forallb_forall _ _) T2 _ Hin3) as T3. cbv beta in T3.
  unfold geometry_exact in T3. unfold PyFloat.int_eqb in Heq.
  destruct (PyFloat.int_value _) as [n|]; [| discriminate].
  apply Z.eqb_eq in Heq. subst n. apply Z.eqb_eq, T3.
Qed.

(** ** The length check of a data block *)

Lemma EVT_DATA_read_mismatch (w : world) (length : Z) (endian : endian)
    (samplerate numbyte : Z) (blocktime : value) (numchan : Z) :
  f_closed (fp w) = false ->
  PyFloat.int_eqb length (EVT_DATA.expected_num samplerate numbyte numchan) = false ->
  snd (EVT_DATA.read length endian (samplerate, numbyte, blocktime, numchan) w)
  = Raise (EVTBadDataError "Bad data length").
Proof.
  intros Hopen Hne. unfold EVT_DATA.read, bind, fp_read.
  cbv beta zeta. rewrite Hopen. cbv beta iota zeta. rewrite Hne. reflexivity.
Qed.

(** C6: with the geometry of a frame header, a declared length different
    from [samplerate / 10 * numbyte * numchan] makes [EVT_DATA.read] raise
    "Bad data length", whatever the stream holds (also when it is too short
    for any sample to be unpacked). *)
Theorem C6_bad_data_length (w : world) (length : Z) (endian : endian)
    (samplerate numbyte : Z) (blocktime : value) (numchan : Z) :
  f_closed (fp w) = false ->
  frame_geometry samplerate numbyte numchan ->
  10 * length <> samplerate * numbyte * numchan ->
  snd (EVT_DATA.read length endian (samplerate, numbyte, blocktime, numchan) w)
  = Raise (EVTBadDataError "Bad data length").
Proof.
  intros Hopen Hgeo Hne. apply EVT_DATA_read_mismatch; [exact Hopen |].
  destruct (PyFloat.int_eqb length _) eqn:E; [| reflexivity].
  exfalso. apply Hne. eapply expected_num_exact; eassumption.
Qed.

Lemma C6_bad_data_length_witness :
  snd (EVT_DATA.read 79 Big (100, 4, VNone, 2) (stream_world (zeros 79)))
  = Raise (EVTBadDataError "Bad data length").
Proof.
  apply (C6_bad_data_length (stream_world (zeros 79)) 79 Big 100 4 VNone 2).
  - reflexivity.
  - unfold frame_geometry. lia.
  - lia.
Defined.

(** ** The sample loop *)

Lemma ofold_app {A B} (l1 l2 : list A) (body : A -> B -> outcome B) (acc : B) :
  ofold (l1 ++ l2) body acc = obind (ofold l1 body acc) (ofold l2 body).
Proof.
  revert acc. induction l1 as [|x l1 IH]; intros acc; cbn; [reflexivity |].
  destruct (body x acc); cbn; [apply IH | reflexivity].
Qed.

(** [data[k].append(h k)] *)
Definition append_at (h : Z -> Z) (data : list (list Z)) (k : Z) : list (list Z) :=
  alter (fun row => row ++ [h k]) (Z.to_nat k) data.

Lemma ofold_inner (g : Z -> outcome Z) (h : Z -> Z) (ks : list Z) (data : list (list Z)) :
  (forall k, k ∈ ks -> g k = Ok (h k)) ->
  ofold ks (fun k data =>
              let+ val := g k in
              Ok (alter (fun row => row ++ [val]) (Z.to_nat k) data)) data
  = Ok (foldl (append_at h) data ks).
Proof.
  revert data. induction ks as [|k ks IH]; intros data Hg; cbn; [reflexivity |].
  rewrite (Hg k) by left. cbn. apply IH. intros k' Hk'. apply Hg. by right.
Qed.

Lemma foldl_append_lookup (h : Z -> Z) (ks : list Z) (data : list (list Z)) (i : nat) :
  NoDup ks -> (forall k, k ∈ ks -> 0 <= k) ->
  foldl (append_at h) data ks !! i
  = if decide (Z.of_nat i ∈ ks)
    then (fun row => row ++ [h (Z.of_nat i)]) <$> data !! i
    else data !! i.
Proof.
  revert data. induction ks as [|k ks IH]; intros data Hnd Hpos; cbn.
  - rewrite decide_False; [reflexivity | apply not_elem_of_nil].
  - apply NoDup_cons in Hnd as [Hk Hnd].
    rewrite IH by (auto; intros; apply Hpos; by right).
    assert (0 <= k) by (apply Hpos; left).
    unfold append_at.
    destruct (decide (Z.of_nat i = k)) as [<- | Hne].
    + rewrite (decide_False (P := Z.of_nat i ∈ ks)) by exact Hk.
      rewrite decide_True by left.
      rewrite Nat2Z.id. apply list_lookup_alter_eq.
    + rewrite list_lookup_alter_ne by lia.
      destruct (decide (Z.of_nat i ∈ ks)) as [Hin | Hnin].
      * rewrite decide_True by (by right). reflexivity.
      * rewrite decide_False; [reflexivity |].
        intros [? | ?]%elem_of_cons; congruence.
Qed.

Lemma inner_loop_rows (h : Z -> Z) (nc : Z) (data : list (list Z)) :
  length data = Z.to_nat nc ->
  foldl (append_at h) data (seqZ 0 nc)
  = imap (fun k row => row ++ [h (Z.of_nat k)]) data.
Proof.
  intros Hlen. apply list_eq. intros i.
  rewrite foldl_append_lookup, list_lookup_imap.
  - destruct (decide (Z.of_nat i ∈ seqZ 0 nc)) as [Hin | Hnin]; [reflexivity |].
    rewrite elem_of_seqZ in Hnin.
    rewrite (lookup_ge_None_2 data i) by lia. reflexivity.
  - apply NoDup_seqZ.
  - intros k Hk%elem_of_seqZ. lia.
Qed.

(** The matrix whose row [k] lists the samples [j * nc + k], [j < n]. *)
Definition block_of (f : Z -> Z) (n nc : Z) : list (list Z) :=
  (fun k => (fun j => f (j * nc + k)) <$> seqZ 0 n) <$> seqZ 0 nc.

Lemma block_of_zero (f : Z -> Z) (n nc : Z) :
  n <= 0 -> block_of f n nc = replicate (Z.to_nat nc) [].
Proof.
  intros Hn. unfold block_of. rewrite (seqZ_nil 0 n) by exact Hn.
  apply list_eq. intros i. rewrite list_lookup_fmap.
  destruct (decide (Z.of_nat i < nc)) as [Hlt | Hge].
  - rewrite lookup_seqZ_lt by exact Hlt. rewrite lookup_replicate_2 by lia. reflexivity.
  - rewrite lookup_seqZ_ge by lia. symmetry. apply lookup_replicate_None. lia.
Qed.

Lemma block_of_succ (f : Z -> Z) (m : nat) (nc : Z) :
  imap (fun k row => row ++ [f (Z.of_nat m * nc + Z.of_nat k)]) (block_of f (Z.of_nat m) nc)
  = block_of f (Z.of_nat (S m)) nc.
Proof.
  apply list_eq. intros i. rewrite list_lookup_imap. unfold block_of.
  rewrite !list_lookup_fmap.
  destruct (decide (Z.of_nat i < nc)) as [Hlt | Hge].
  - rewrite lookup_seqZ_lt by exact Hlt. cbn.
    rewrite seqZ_S, fmap_app. cbn. rewrite !Z.add_0_l. reflexivity.
  - rewrite lookup_seqZ_ge by lia. reflexivity.
Qed.

Lemma length_block_of (f : Z -> Z) (n nc : Z) :
  length (block_of f n nc) = Z.to_nat nc.
Proof. unfold block_of. rewrite length_fmap. apply length_seqZ. Qed.

Lemma unpack_block_ok (numbyte : Z) (buff : list byte) (f : Z -> Z)
    (samplerate numchan : Z) :
  (forall i, 0 <= i < samplerate / 10 * numchan ->
             EVT_DATA.sample_val numbyte buff i = Ok (f i)) ->
  EVT_DATA.unpack_block samplerate numbyte numchan buff
  = Ok (block_of f (samplerate / 10) numchan).
Proof.
  intros Hf. unfold EVT_DATA.unpack_block.
  destruct (Z_le_gt_dec (samplerate / 10) 0) as [Hn | Hn].
  - rewrite (seqZ_nil 0 _) by exact Hn. cbn. by rewrite block_of_zero.
  - rewrite <- (Z2Nat.id (samplerate / 10)) in * by lia.
    assert (Hm : (Z.to_nat (samplerate / 10) <= Z.to_nat (samplerate / 10))%nat) by lia.
    revert Hm. generalize (Z.to_nat (samplerate / 10)) at 1 3 4 as m.
    induction m as [|m IH]; intros Hm.
    + cbn. by rewrite block_of_zero.
    + rewrite seqZ_S, ofold_app, IH by lia. cbn. rewrite Z.add_0_l.
      destruct (Z_le_gt_dec numchan 0) as [Hc | Hc].
      * rewrite (seqZ_nil 0 numchan) by exact Hc. cbn.
        unfold block_of. rewrite (seqZ_nil 0 numchan) by exact Hc. reflexivity.
      * rewrite (ofold_inner _ (fun k => f (Z.of_nat m * numchan + k))).
        -- rewrite inner_loop_rows by apply length_block_of.
           cbn. f_equal. apply block_of_succ.
        -- intros k Hk%elem_of_seqZ. apply Hf. nia.
Qed.

(** What [EVT_DATA.read] returns when the length check passes and the block
    is entirely in the stream. *)
Lemma EVT_DATA_read_ok (w : world) (declared : Z) (endian : endian)
    (samplerate numbyte : Z) (blocktime : value) (numchan : Z) :
  f_closed (fp w) = false ->
  frame_geometry samplerate numbyte numchan ->
  PyFloat.int_eqb declared (EVT_DATA.expected_num samplerate numbyte numchan) = true ->
  declared <= Z.of_nat (length (drop (f_pos (fp w)) (f_bytes (fp w)))) ->
  let buff := take (Z.to_nat declared) (drop (f_pos (fp w)) (f_bytes (fp w))) in
  snd (EVT_DATA.read declared endian (samplerate, numbyte, blocktime, numchan) w)
  = Ok (block_of
          (fun i => spec_decode numbyte
                      (slice buff (Z.to_nat (i * numbyte)) (Z.to_nat numbyte)))
          (samplerate / 10) numchan).
Proof.
  intros Hopen Hgeo Heq Havail buff.
  pose proof (expected_num_exact _ _ _ _ Hgeo Heq) as Hexact.
  destruct Hgeo as (Hsr & Hnb & Hnc).
  assert (Hd : 0 <= declared) by nia.
  unfold EVT_DATA.read, bind, fp_read.
  cbv beta zeta. rewrite Hopen. cbv beta iota zeta. rewrite Heq.
  rewrite (proj2 (Z.ltb_ge declared 0)) by exact Hd.
  cbn [negb lift snd]. fold buff.
  apply unpack_block_ok. intros i Hi.
  apply sample_val_complete; [exact Hnb |].
  unfold slice. rewrite length_take, length_drop.
  assert (Hbuff : Z.of_nat (length buff) = declared)
    by (unfold buff; rewrite length_take; lia).
  assert (samplerate / 10 * 10 <= samplerate) by (pose proof (Z.mul_div_le samplerate 10); lia).
  assert ((i + 1) * numbyte <= declared) by nia.
  nia.
Qed.

(** C5: when the declared length passes the length check and the block is
    entirely in the stream, [EVT_DATA.read] returns [numchan] sequences of
    [samplerate // 10] samples, and sample [j] of channel [k] is the
    big-endian decoding of the bytes
    [(j * numchan + k) * numbyte, (j * numchan + k) * numbyte + numbyte) of
    the block, whatever byte order the stream resolved. *)
Theorem C5_interleaved_samples (w : world) (declared : Z) (endian : endian)
    (samplerate numbyte : Z) (blocktime : value) (numchan : Z) :
  f_closed (fp w) = false ->
  frame_geometry samplerate numbyte numchan ->
  PyFloat.int_eqb declared (EVT_DATA.expected_num samplerate numbyte numchan) = true ->
  declared <= Z.of_nat (length (drop (f_pos (fp w)) (f_bytes (fp w)))) ->
  let buff := take (Z.to_nat declared) (drop (f_pos (fp w)) (f_bytes (fp w))) in
  exists data,
    snd (EVT_DATA.read declared endian (samplerate, numbyte, blocktime, numchan) w)
    = Ok data
    /\ Z.of_nat (length data) = numchan
    /\ forall k j, 0 <= k < numchan -> 0 <= j < samplerate / 10 ->
         exists row,
           data !! Z.to_nat k = Some row
           /\ Z.of_nat (length row) = samplerate / 10
           /\ row !! Z.to_nat j
              = Some (spec_decode numbyte
                        (slice buff (Z.to_nat ((j * numchan + k) * numbyte))
                               (Z.to_nat numbyte))).
Proof.
  intros Hopen Hgeo Heq Havail buff.
  eexists. split; [apply EVT_DATA_read_ok; assumption |].
  destruct Hgeo as (Hsr & Hnb & Hnc).
  split; [rewrite length_block_of; lia |].
  intros k j Hk Hj. unfold block_of.
  rewrite list_lookup_fmap, lookup_seqZ_lt by lia. cbn.
  eexists. split; [reflexivity |].
  split; [rewrite length_fmap, length_seqZ; lia |].
  rewrite list_lookup_fmap, lookup_seqZ_lt by lia. cbn.
  rewrite !Z.add_0_l, !Z2Nat.id by lia. reflexivity.
Qed.

Lemma C5_interleaved_samples_witness :
  exists data,
    snd (EVT_DATA.read 8 Little (20, 2, VNone, 2)
           (stream_world (map byte_of [0; 1; 0; 2; 0; 3; 255; 255])))
    = Ok data
    /\ Z.of_nat (length data) = 2
    /\ forall k j, 0 <= k < 2 -> 0 <= j < 20 / 10 ->
         exists row,
           data !! Z.to_nat k = Some row
           /\ Z.of_nat (length row) = 20 / 10
           /\ row !! Z.to_nat j
              = Some (spec_decode 2
                        (slice (take (Z.to_nat 8)
                                  (drop 0 (map byte_of [0; 1; 0; 2; 0; 3; 255; 255])))
                               (Z.to_nat ((j * 2 + k) * 2)) (Z.to_nat 2))).
Proof.
  apply (C5_interleaved_samples
           (stream_world (map byte_of [0; 1; 0; 2; 0; 3; 255; 255])) 8 Little 20 2 VNone 2).
  - reflexivity.
  - unfold frame_geometry. lia.
  - vm_compute. reflexivity.
  - cbn. lia.
Defined.

Example interleaved_block :
  snd (EVT_DATA.read 8 Little (20, 2, VNone, 2)
         (stream_world (map byte_of [0; 1; 0; 2; 0; 3; 255; 255])))
  = Ok [[256; 768]; [512; -256]].
Proof. vm_compute. reflexivity. Qed.

(** ** Runs on explicit streams *)

Module Runs.

(** One channel, a first frame whose sampling rate is 0 (and so holds no
    sample), then a frame at 10 samples per second holding one four-byte
    sample. *)
Definition zero_rate_first : list byte :=
  tag_block Big 1 1 2040 0 ++ header_block Big 1 2
    ++ tag_block Big 1 2 32 0 ++ frame_block Big 3 1 0 192
    ++ tag_block Big 1 2 32 4 ++ frame_block Big 3 1 10 192 ++ enc Big 4 7
    ++ zeros 16.

(** The same two frames in the other order: the rate goes from 10 to 0. *)
Definition zero_rate_second : list byte :=
  tag_block Big 1 1 2040 0 ++ header_block Big 1 2
    ++ tag_block Big 1 2 32 4 ++ frame_block Big 3 1 10 192 ++ enc Big 4 7
    ++ tag_block Big 1 2 32 0 ++ frame_block Big 3 1 0 192
    ++ zeros 16.

(** A recording whose first tag is not a file header: type 2, length 32. *)
Definition frame_tag_first : list byte :=
  tag_block Big 1 2 32 0 ++ frame_block Big 3 1 10 192.

(** A stream whose first byte is not the sync character. *)
Definition bad_sync : list byte := x58 :: zeros 15.

(** A big-endian recording of one frame whose second tag block carries
    the little-endian flag and is written little-endian. *)
Definition mixed_tags : list byte :=
  tag_block Big 1 1 2040 0 ++ header_block Big 1 1
    ++ tag_block Little 0 2 32 4 ++ frame_block Big 3 1 10 192 ++ enc Big 4 7
    ++ zeros 16.

(** A little-endian recording of one frame; the sample bytes are
    [00 00 00 01]. *)
Definition little_endian : list byte :=
  tag_block Little 0 1 2040 0 ++ header_block Little 1 1
    ++ tag_block Little 0 2 32 4 ++ frame_block Little 3 1 10 192 ++ enc Big 4 1
    ++ zeros 16.

End Runs.
Import Runs.

Example zero_rate_first_decodes :
  run_rows (EVT.readFile FileObject true (stream_world zero_rate_first)) = Ok [[Count 7]]
  /\ run_rates (EVT.readFile FileObject true (stream_world zero_rate_first)) = Ok [10].
Proof. split; vm_compute; reflexivity. Qed.

Example zero_rate_second_fails :
  run_error (EVT.readFile FileObject true (stream_world zero_rate_second))
  = Some (EVTBadHeaderError "Sampling rate not constant").
Proof. vm_compute. reflexivity. Qed.

Example frame_tag_first_fails :
  run_error (EVT.readFile FileObject true (stream_world frame_tag_first)) = Some TypeError.
Proof. vm_compute. reflexivity. Qed.

Example bad_sync_leaves_file_open :
  run_error (EVT.readFile (FileName "x.evt") true (file_world "x.evt" bad_sync))
  = Some (EVTBadHeaderError "Sync error")
  /\ run_closed (EVT.readFile (FileName "x.evt") true (file_world "x.evt" bad_sync)) = false.
Proof. split; vm_compute; reflexivity. Qed.

Example success_closes_file :
  run_error (EVT.readFile (FileName "x.evt") true (file_world "x.evt" (two_frames 2))) = None
  /\ run_closed (EVT.readFile (FileName "x.evt") true (file_world "x.evt" (two_frames 2)))
     = true.
Proof. split; vm_compute; reflexivity. Qed.

Example mixed_tags_decodes :
  run_rows (EVT.readFile FileObject true (stream_world mixed_tags)) = Ok [[Count 7]].
Proof. vm_compute. reflexivity. Qed.

Example little_endian_decodes :
  run_rows (EVT.readFile FileObject true (stream_world little_endian)) = Ok [[Count 1]].
Proof. vm_compute. reflexivity. Qed.

(** ** The schema engine as a list of updates *)

(** The fields [setdico] stores, in order, and whether it completes. *)
Fixpoint updates (HEADER : schema) (val : list value) (offset : Z)
    : list (string * value) * outcome unit :=
  match HEADER with
  | [] => ([], Ok tt)
  | (key, (pos, t)) :: rest =>
      let index := pos - offset in
      if (0 <=? index) && (index <? Z.of_nat (length val)) then
        match (let+ raw := val_at val index in apply_transform t raw val offset) with
        | Ok v => let '(us, o) := updates rest val offset in ((key, v) :: us, o)
        | Raise e => ([], Raise e)
        end
      else updates rest val offset
  end.

Definition apply_updates (store : gmap string value) (us : list (string * value))
    : gmap string value :=
  foldl (fun s kv => <[kv.1 := kv.2]> s) store us.

(** The value the updates leave in a field: the last one stored. *)
Fixpoint find_update (us : list (string * value)) (key : string) : option value :=
  match us with
  | [] => None
  | (k, v) :: rest =>
      match find_update rest key with
      | Some x => Some x
      | None => if String.eqb k key then Some v else None
      end
  end.

Lemma setdico_updates (HEADER : schema) (store : gmap string value)
    (val : list value) (offset : Z) :
  setdico HEADER store val offset
  = (apply_updates store (updates HEADER val offset).1, (updates HEADER val offset).2).
Proof.
  revert store. induction HEADER as [|[key [pos t]] rest IH]; intros store; cbn.
  - reflexivity.
  - destruct ((0 <=? pos - offset) && (pos - offset <? Z.of_nat (length val))).
    + destruct (let+ raw := _ in _) as [v | e]; [| reflexivity].
      rewrite IH. destruct (updates rest val offset) as [us o]. reflexivity.
    + apply IH.
Qed.

Lemma apply_updates_lookup (store : gmap string value) (us : list (string * value))
    (key : string) :
  apply_updates store us !! key
  = match find_update us key with
    | Some v => Some v
    | None => store !! key
    end.
Proof.
  revert store. induction us as [|[k v] us IH]; intros store; cbn.
  - reflexivity.
  - unfold apply_updates in IH. rewrite IH.
    destruct (find_update us key); [reflexivity |].
    destruct (String.eqb_spec k key) as [-> | Hne].
    + apply lookup_insert_eq.
    + by apply lookup_insert_ne.
Qed.

(** What the decoder does with the store does not depend on the store. *)
Lemma setdico_outcome (HEADER : schema) (s1 s2 : gmap string value)
    (val : list value) (offset : Z) :
  (setdico HEADER s1 val offset).2 = (setdico HEADER s2 val offset).2.
Proof. by rewrite !setdico_updates. Qed.

(** ** Symbolic runs of the monad *)

Lemma bind_ok {S A B} (m : M S A) (f : A -> M S B) (s s' : S) (a : A) :
  m s = (s', Ok a) -> bind m f s = f a s'.
Proof. intros H. unfold bind. by rewrite H. Qed.

Lemma bind_raise {S A B} (m : M S A) (f : A -> M S B) (s s' : S) (e : exn) :
  m s = (s', Raise e) -> bind m f s = (s', Raise e).
Proof. intros H. unfold bind. by rewrite H. Qed.

Lemma fp_read_ok (w : world) (n : Z) :
  f_closed (fp w) = false -> 0 <= n ->
  fp_read n w
  = (set_fp (mkfile (f_bytes (fp w))
                    (f_pos (fp w)
                     + length (take (Z.to_nat n) (drop (f_pos (fp w)) (f_bytes (fp w)))))
                    false) w,
     Ok (take (Z.to_nat n) (drop (f_pos (fp w)) (f_bytes (fp w))))).
Proof.
  intros Hopen Hn. unfold fp_read. cbv zeta. rewrite Hopen.
  by rewrite (proj2 (Z.ltb_ge n 0)).
Qed.

Lemma list_32 (l : list byte) :
  length l = 32%nat -> l = map (fun i => nth i l x00) (seq 0 32).
Proof.
  intros H. do 32 (destruct l as [|? l]; [discriminate |]).
  destruct l; [reflexivity | discriminate].
Qed.

Definition frame_items : list (nat * fcode) :=
  [(1, FB); (1, FB); (1, FH); (1, FH); (1, FL); (1, FH); (1, FH); (1, FB); (1, FB);
   (1, FH); (1, FB); (13, Fs)]%nat.

Lemma parse_FRAME_STRUCT : parse FRAME_STRUCT None = Some frame_items.
Proof. reflexivity. Qed.

Lemma read_uint_1 (e : endian) (b : byte) : read_uint e [b] = byte_val b.
Proof. destruct e; reflexivity. Qed.

Lemma frame_updates (c0 c1 c2 c3 c4 c5 c6 c7 c8 c9 c10 : Z) (tc : list byte) :
  updates EVT_FRAME_HEADER_HEADER
    [VInt c0; VInt c1; VInt c2; VInt c3; VInt c4; VInt c5; VInt c6; VInt c7; VInt c8;
     VInt c9; VInt c10; VBytes tc] 0
  = ([("frametype", VInt c0); ("instrumentcode", VInstrument c1); ("recorderid", VInt c2);
      ("framesize", VInt c3); ("blocktime", VTime c4 c9); ("channelbitmap", VInt c5);
      ("streampar", VInt c6); ("framestatus", VInt c7); ("framestatus2", VInt c8);
      ("msec", VInt c9); ("channelbitmap1", VInt c10); ("timecode", VBytes tc)], Ok tt).
Proof. reflexivity. Qed.

(** Fields of a block at fixed offsets. *)
Definition u8 (buff : list byte) (i : nat) : Z := byte_val (nth i buff x00).
Definition u16 (e : endian) (buff : list byte) (i : nat) : Z :=
  read_uint e [nth i buff x00; nth (i + 1) buff x00].
Definition u32 (e : endian) (buff : list byte) (i : nat) : Z :=
  read_uint e [nth i buff x00; nth (i + 1) buff x00; nth (i + 2) buff x00;
               nth (i + 3) buff x00].

(** The fields [analyse_frame32] stores for a 32-byte frame header. *)
Definition frame_fields (e : endian) (buff : list byte) : list (string * value) :=
  [("frametype", VInt (u8 buff 0)); ("instrumentcode", VInstrument (u8 buff 1));
   ("recorderid", VInt (u16 e buff 2)); ("framesize", VInt (u16 e buff 4));
   ("blocktime", VTime (u32 e buff 6) (u16 e buff 16));
   ("channelbitmap", VInt (u16 e buff 10)); ("streampar", VInt (u16 e buff 12));
   ("framestatus", VInt (u8 buff 14)); ("framestatus2", VInt (u8 buff 15));
   ("msec", VInt (u16 e buff 16)); ("channelbitmap1", VInt (u8 buff 18));
   ("timecode", VBytes (slice buff 19 13))].

Lemma frame_decode (e : endian) (buff : list byte) :
  length buff = 32%nat ->
  updates EVT_FRAME_HEADER_HEADER (decode_items e frame_items buff) 0
  = (frame_fields e buff, Ok tt).
Proof.
  intros Hlen. pose proof (list_32 buff Hlen) as Hb. cbn in Hb.
  rewrite Hb at 1. cbn [decode_items frame_items].
  cbn -[read_uint updates]. rewrite !read_uint_1, frame_updates.
  unfold frame_fields.
  assert (Hs : slice buff 19 13
               = slice (map (fun i => nth i buff x00) (seq 0 32)) 19 13)
    by (rewrite <- (list_32 buff Hlen); reflexivity).
  rewrite Hs. reflexivity.
Qed.

Definition popcount12 (channelbitmap : Z) : Z :=
  foldl (fun chan i => if Z.land channelbitmap (2 ^ i) =? 0 then chan else chan + 1)
        0 (seqZ 0 12).

Definition clamp_width (framestatus : Z) : Z :=
  let samplesize := Z.shiftr framestatus 6 + 1 in
  if negb ((samplesize =? 2) || (samplesize =? 3) || (samplesize =? 4)) then 3
  else samplesize.

(** What [EVT_FRAME_HEADER.read] returns for a complete 32-byte header. *)
Definition frame_result (e : endian) (buff : list byte) : outcome (Z * Z * value * Z) :=
  let frametype := u8 buff 0 in
  if (frametype =? 3) || (frametype =? 4) || (frametype =? 5) then
    if frametype =? 4 then Raise (NotImplementedError "16 Channels not implemented")
    else Ok (Z.land (u16 e buff 12) 4095, clamp_width (u8 buff 14),
             VTime (u32 e buff 6) (u16 e buff 16), popcount12 (u16 e buff 10))
  else Raise (EVTBadHeaderError "Bad Frame values").

Definition next_bytes (n : nat) (w : world) : list byte :=
  take n (drop (f_pos (fp w)) (f_bytes (fp w))).

Definition advance (n : nat) (w : world) : world :=
  set_fp (mkfile (f_bytes (fp w)) (f_pos (fp w) + n) false) w.

Lemma split_order_prefix (e : endian) (s : string) :
  split_order (endian_prefix e +:+ s) = (e, s).
Proof. destruct e; reflexivity. Qed.

Lemma attr_updates (store : world -> gmap string value) (key : string) (w : world)
    (us : list (string * value)) (base : gmap string value) (v : value) :
  store w = apply_updates base us ->
  find_update us key = Some v ->
  attr store key w = (w, Ok v).
Proof.
  intros Hs Hf. unfold attr, getattr. by rewrite Hs, apply_updates_lookup, Hf.
Qed.

Lemma attr_int_updates (store : world -> gmap string value) (key : string) (w : world)
    (us : list (string * value)) (base : gmap string value) (z : Z) :
  store w = apply_updates base us ->
  find_update us key = Some (VInt z) ->
  attr_int store key w = (w, Ok z).
Proof.
  intros Hs Hf. unfold attr_int.
  erewrite bind_ok by (eapply attr_updates; eassumption). reflexivity.
Qed.

Lemma value_is_spec (z c : Z) : value_is (VInt z) c = (z =? c).
Proof. reflexivity. Qed.

Lemma frame_verify_run (w : world) (us : list (string * value))
    (base : gmap string value) (c0 : Z) :
  FRM w = apply_updates base us ->
  find_update us "frametype" = Some (VInt c0) ->
  EVT_FRAME_HEADER.verify w = (w, Ok ((c0 =? 3) || (c0 =? 4) || (c0 =? 5))).
Proof.
  intros Hs Hf. unfold EVT_FRAME_HEADER.verify.
  erewrite bind_ok by (eapply attr_updates; eassumption).
  rewrite !value_is_spec.
  destruct ((c0 =? 3) || (c0 =? 4) || (c0 =? 5)); reflexivity.
Qed.

Lemma frame_channels_run (w : world) (us : list (string * value))
    (base : gmap string value) (c0 c5 : Z) :
  FRM w = apply_updates base us ->
  find_update us "frametype" = Some (VInt c0) ->
  find_update us "channelbitmap" = Some (VInt c5) ->
  EVT_FRAME_HEADER.channels w
  = (w, if c0 =? 4 then Raise (NotImplementedError "16 Channels not implemented")
        else Ok (popcount12 c5)).
Proof.
  intros Hs Hf Hc. unfold EVT_FRAME_HEADER.channels.
  erewrite bind_ok by (eapply attr_updates; eassumption).
  rewrite value_is_spec. destruct (c0 =? 4); [reflexivity |].
  erewrite bind_ok by (eapply attr_int_updates; eassumption).
  reflexivity.
Qed.

Lemma analyse_frame32_run (w : world) (e : endian) (buff : list byte) :
  EFrame_endian w = Some e ->
  length buff = 32%nat ->
  EVT_FRAME_HEADER.analyse_frame32 buff w
  = (set_FRM (apply_updates (FRM w) (frame_fields e buff))
       (set_numframe (numframe w + 1) w),
     if (u8 buff 0 =? 3) || (u8 buff 0 =? 4) || (u8 buff 0 =? 5) then Ok tt
     else Raise (EVTBadHeaderError "Bad Frame values")).
Proof.
  intros He Hlen. unfold EVT_FRAME_HEADER.analyse_frame32.
  erewrite bind_ok by reflexivity.
  erewrite bind_ok
    by (unfold EVT_FRAME_HEADER.self_endian; cbn [EFrame_endian set_numframe];
        rewrite He; reflexivity).
  rewrite (unpack_parsed _ FRAME_STRUCT e frame_items)
    by (apply split_order_prefix || reflexivity).
  rewrite Hlen. change (calcsize frame_items =? 32)%nat with true. cbv iota.
  erewrite bind_ok by reflexivity.
  unfold do_setdico at 1.
  erewrite bind_ok
    by (cbn [FRM set_numframe]; rewrite setdico_updates, frame_decode by exact Hlen;
        reflexivity).
  erewrite bind_ok by (eapply frame_verify_run; reflexivity).
  destruct ((u8 buff 0 =? 3) || (u8 buff 0 =? 4) || (u8 buff 0 =? 5)); reflexivity.
Qed.

Lemma analyse_frame32_short (w : world) (e : endian) (buff : list byte) :
  EFrame_endian w = Some e ->
  length buff <> 32%nat ->
  EVT_FRAME_HEADER.analyse_frame32 buff w
  = (set_numframe (numframe w + 1) w, Raise StructError).
Proof.
  intros He Hlen. unfold EVT_FRAME_HEADER.analyse_frame32.
  erewrite bind_ok by reflexivity.
  erewrite bind_ok
    by (unfold EVT_FRAME_HEADER.self_endian; cbn [EFrame_endian set_numframe];
        rewrite He; reflexivity).
  rewrite (unpack_parsed _ FRAME_STRUCT e frame_items)
    by (apply split_order_prefix || reflexivity).
  change (calcsize frame_items) with 32%nat.
  destruct (Nat.eqb_spec 32 (length buff)) as [E | E]; [congruence |].
  erewrite bind_raise by reflexivity. reflexivity.
Qed.

(** The bytes [fp.read(n)] returns. *)
Definition read_bytes (n : Z) (w : world) : list byte :=
  if n <? 0 then drop (f_pos (fp w)) (f_bytes (fp w))
  else take (Z.to_nat n) (drop (f_pos (fp w)) (f_bytes (fp w))).

Lemma fp_read_run (w : world) (n : Z) :
  fp_read n w
  = if f_closed (fp w) then (w, Raise ValueError)
    else (advance (length (read_bytes n w)) w, Ok (read_bytes n w)).
Proof. unfold fp_read, read_bytes, advance. by destruct (f_closed (fp w)). Qed.

(** [EVT_FRAME_HEADER.read], case by case. *)
Definition frame_read_result (length : Z) (e : endian) (w : world)
    : world * outcome (Z * Z * value * Z) :=
  if f_closed (fp w) then (w, Raise ValueError)
  else
    let buff := read_bytes length w in
    let w1 := set_EFrame_endian (Some e) (advance (List.length buff) w) in
    if length =? 32 then
      let w2 := set_numframe (numframe w + 1) w1 in
      if (List.length buff =? 32)%nat
      then (set_FRM (apply_updates (FRM w) (frame_fields e buff)) w2, frame_result e buff)
      else (w2, Raise StructError)
    else (w1, Raise TypeError).

Lemma frame_read_run (length : Z) (e : endian) (w : world) :
  EVT_FRAME_HEADER.read length e w = frame_read_result length e w.
Proof.
  unfold frame_read_result, EVT_FRAME_HEADER.read.
  destruct (f_closed (fp w)) eqn:Hopen.
  { erewrite bind_raise by (rewrite fp_read_run, Hopen; reflexivity). reflexivity. }
  erewrite bind_ok by (rewrite fp_read_run, Hopen; reflexivity).
  set (buff := read_bytes length w).
  erewrite bind_ok by reflexivity.
  destruct (length =? 32); [| reflexivity].
  destruct (Nat.eqb_spec (List.length buff) 32) as [Hlen | Hlen].
  - unfold frame_result.
    destruct ((u8 buff 0 =? 3) || (u8 buff 0 =? 4) || (u8 buff 0 =? 5)) eqn:Hft.
    + erewrite bind_ok
        by (rewrite (analyse_frame32_run _ e) by (reflexivity || exact Hlen);
            rewrite Hft; reflexivity).
      erewrite bind_ok by (eapply attr_int_updates; reflexivity).
      erewrite bind_ok by (eapply attr_int_updates; reflexivity).
      erewrite bind_ok by (eapply attr_updates; reflexivity).
      destruct (u8 buff 0 =? 4) eqn:H4.
      * erewrite bind_raise
          by (erewrite frame_channels_run by reflexivity; rewrite H4; reflexivity).
        reflexivity.
      * erewrite bind_ok
          by (erewrite frame_channels_run by reflexivity; rewrite H4; reflexivity).
        reflexivity.
    + erewrite bind_raise
        by (rewrite (analyse_frame32_run _ e) by (reflexivity || exact Hlen);
            rewrite Hft; reflexivity).
      reflexivity.
  - erewrite bind_raise
      by (rewrite (analyse_frame32_short _ e) by (reflexivity || exact Hlen);
          reflexivity).
    reflexivity.
Qed.

(** ** Closed forms of the block readers *)

Lemma list_16 (l : list byte) :
  length l = 16%nat -> l = map (fun i => nth i l x00) (seq 0 16).
Proof.
  intros H. do 16 (destruct l as [|? l]; [discriminate |]).
  destruct l; [reflexivity | discriminate].
Qed.

Definition tag_items : list (nat * fcode) :=
  [(1, Fc); (1, FB); (1, FB); (1, FB); (1, FL); (1, FH); (1, FH); (1, FH); (1, FH)]%nat.

Lemma parse_tag_struct : parse "cBBBLHHHH" None = Some tag_items.
Proof. reflexivity. Qed.

(** The fields [EVT_TAG.read] stores for a 16-byte tag read in order [e];
    the ninth, [endian], has no value to take. *)
Definition tag_fields (e : endian) (buff : list byte) : list (string * value) :=
  [("order", VInt (u8 buff 1)); ("version", VInt (u8 buff 2));
   ("instrument", VInstrument (u8 buff 3)); ("type", VInt (u32 e buff 4));
   ("length", VInt (u16 e buff 8)); ("datalength", VInt (u16 e buff 10));
   ("id", VInt (u16 e buff 12)); ("checksum", VInt (u16 e buff 14))].

Lemma tag_updates (s : list byte) (c1 c2 c3 c4 c5 c6 c7 c8 : Z) :
  updates EVT_TAG_HEADER
    [VBytes s; VInt c1; VInt c2; VInt c3; VInt c4; VInt c5; VInt c6; VInt c7; VInt c8] 0
  = ([("order", VInt c1); ("version", VInt c2); ("instrument", VInstrument c3);
      ("type", VInt c4); ("length", VInt c5); ("datalength", VInt c6);
      ("id", VInt c7); ("checksum", VInt c8)], Ok tt).
Proof. reflexivity. Qed.

Lemma tag_decode (e : endian) (buff : list byte) :
  length buff = 16%nat ->
  updates EVT_TAG_HEADER (decode_items e tag_items buff) 0 = (tag_fields e buff, Ok tt).
Proof.
  intros Hlen. pose proof (list_16 buff Hlen) as Hb. cbn in Hb.
  rewrite Hb at 1. cbn [decode_items tag_items].
  cbn -[read_uint updates]. rewrite !read_uint_1, tag_updates. reflexivity.
Qed.

(** The byte order a tag block announces. *)
Definition tag_order (buff : list byte) : option endian :=
  if u8 buff 1 =? 1 then Some Big
  else if u8 buff 1 =? 0 then Some Little
  else None.

(** [EVT_TAG.verify] on the fields of a tag. *)
Definition tag_valid (e : endian) (buff : list byte) : bool :=
  let type := u32 e buff 4 in
  let length := u16 e buff 8 in
  if negb ((type =? 1) || (type =? 2)) then false
  else if type =? 1 then
    if negb ((length =? 2040) || (length =? 2736)) then false else true
  else true.

Lemma tag_verify_run (w : world) (e : endian) (buff : list byte)
    (base : gmap string value) :
  TAG w = apply_updates base (tag_fields e buff) ->
  EVT_TAG.verify w = (w, Ok (tag_valid e buff)).
Proof.
  intros Hs. unfold EVT_TAG.verify, tag_valid.
  erewrite bind_ok by (eapply attr_updates; [exact Hs | reflexivity]).
  rewrite !value_is_spec.
  destruct (negb _); [reflexivity |].
  destruct (u32 e buff 4 =? 1); [| reflexivity].
  erewrite bind_ok by (eapply attr_updates; [exact Hs | reflexivity]).
  rewrite !value_is_spec. destruct (negb _); reflexivity.
Qed.

Lemma unpack_cB (a b : byte) : unpack "cB" [a; b] = Ok [VBytes [a]; VInt (byte_val b)].
Proof. reflexivity. Qed.

Lemma bytes_eqb_1 (a b : byte) : bytes_eqb [a] [b] = Byte.eqb a b.
Proof. unfold bytes_eqb. cbn. by rewrite andb_true_r. Qed.

(** [EVT_TAG.read], case by case. *)
Definition tag_read_result (w : world) : world * outcome unit :=
  if f_closed (fp w) then (w, Raise ValueError)
  else
    let buff := next_bytes 16 w in
    let w1 := advance (length buff) w in
    if (length buff <? 16)%nat then (w1, Raise EVTEOFError)
    else if Byte.eqb (nth 0 buff x00) x00 then (w1, Raise EVTEOFError)
    else if negb (Byte.eqb (nth 0 buff x00) x4b)
         then (w1, Raise (EVTBadHeaderError "Sync error"))
    else match tag_order buff with
         | None => (w1, Raise (EVTBadHeaderError ""))
         | Some e =>
             (set_ETag_endian (Some e)
                (set_TAG (apply_updates (TAG w) (tag_fields e buff)) w1),
              if tag_valid e buff then Ok tt
              else Raise (EVTBadHeaderError "Bad Tag values"))
         end.

Lemma tag_read_run (w : world) : EVT_TAG.read w = tag_read_result w.
Proof.
  unfold tag_read_result, EVT_TAG.read.
  destruct (f_closed (fp w)) eqn:Hopen.
  { unfold bind, fp_read. cbv zeta. by rewrite Hopen. }
  erewrite bind_ok; [| apply fp_read_ok; [exact Hopen | lia]].
  change (Z.to_nat 16) with 16%nat. fold (next_bytes 16 w).
  fold (advance (length (next_bytes 16 w)) w).
  set (buff := next_bytes 16 w). set (w1 := advance (length buff) w).
  destruct (Nat.ltb_spec (length buff) 16) as [Hlt | Hge]; [reflexivity |].
  assert (Hlen : length buff = 16%nat).
  { unfold buff, next_bytes in *. rewrite length_take in *. lia. }
  pose proof (list_16 buff Hlen) as Hb. cbn in Hb.
  assert (Hs : slice buff 0 2 = [nth 0 buff x00; nth 1 buff x00])
    by (rewrite Hb at 1; reflexivity).
  rewrite Hs, unpack_cB.
  erewrite bind_ok by reflexivity.
  cbn [nth]. rewrite !bytes_eqb_1.
  destruct (Byte.eqb (nth 0 buff x00) x00); [reflexivity |].
  destruct (Byte.eqb (nth 0 buff x00) x4b); cbn [negb]; [| reflexivity].
  fold (u8 buff 1).
  rewrite !value_is_spec. unfold tag_order.
  destruct (u8 buff 1 =? 1).
  - erewrite bind_ok by reflexivity.
    rewrite (unpack_parsed _ "cBBBLHHHH" Big tag_items) by reflexivity.
    rewrite Hlen. change (calcsize tag_items =? 16)%nat with true. cbv iota.
    erewrite bind_ok by reflexivity.
    unfold do_setdico at 1.
    erewrite bind_ok by (rewrite setdico_updates, tag_decode by exact Hlen; reflexivity).
    erewrite bind_ok by reflexivity.
    erewrite bind_ok by (eapply tag_verify_run; reflexivity).
    destruct (tag_valid Big buff); reflexivity.
  - destruct (u8 buff 1 =? 0).
    + erewrite bind_ok by reflexivity.
      rewrite (unpack_parsed _ "cBBBLHHHH" Little tag_items) by reflexivity.
      rewrite Hlen. change (calcsize tag_items =? 16)%nat with true. cbv iota.
      erewrite bind_ok by reflexivity.
      unfold do_setdico at 1.
      erewrite bind_ok by (rewrite setdico_updates, tag_decode by exact Hlen; reflexivity).
      erewrite bind_ok by reflexivity.
      erewrite bind_ok by (eapply tag_verify_run; reflexivity).
      destruct (tag_valid Little buff); reflexivity.
    + erewrite bind_raise by reflexivity. reflexivity.
Qed.

(** [EVT_DATA.read], case by case. *)
Definition data_read_result (length : Z) (param : Z * Z * value * Z) (w : world)
    : world * outcome (list (list Z)) :=
  if f_closed (fp w) then (w, Raise ValueError)
  else
    let buff := read_bytes length w in
    let '(samplerate, numbyte, _, numchan) := param in
    (advance (List.length buff) w,
     if negb (PyFloat.int_eqb length (EVT_DATA.expected_num samplerate numbyte numchan))
     then Raise (EVTBadDataError "Bad data length")
     else EVT_DATA.unpack_block samplerate numbyte numchan buff).

Lemma data_read_run (length : Z) (e : endian) (param : Z * Z * value * Z) (w : world) :
  EVT_DATA.read length e param w = data_read_result length param w.
Proof.
  unfold data_read_result, EVT_DATA.read. destruct param as [[[sr nb] bt] nc].
  destruct (f_closed (fp w)) eqn:Hopen.
  { erewrite bind_raise by (rewrite fp_read_run, Hopen; reflexivity). reflexivity. }
  erewrite bind_ok by (rewrite fp_read_run, Hopen; reflexivity).
  destruct (negb _); reflexivity.
Qed.

Lemma do_setdico_run (HEADER : schema) (store : world -> gmap string value)
    (set_store : gmap string value -> world -> world) (val : list value) (offset : Z)
    (w : world) :
  do_setdico HEADER store set_store val offset w
  = (set_store (apply_updates (store w) (updates HEADER val offset).1) w,
     (updates HEADER val offset).2).
Proof. unfold do_setdico. by rewrite setdico_updates. Qed.

(** One pass of [analyse_header12]: unpack a range of the buffer and store
    its fields. *)
Definition header_pass (e : endian) (fmt : string) (buff : list byte) (lo n : nat)
    (offset : Z) : list (string * value) * outcome unit :=
  match unpack (endian_prefix e +:+ fmt) (slice buff lo n) with
  | Ok val => updates EVT_HEADER_HEADER val offset
  | Raise err => ([], Raise err)
  end.

(** Two steps in sequence: the second runs when the first completes. *)
Definition then_updates (p q : list (string * value) * outcome unit)
    : list (string * value) * outcome unit :=
  match p.2 with
  | Ok _ => (p.1 ++ q.1, q.2)
  | Raise err => (p.1, Raise err)
  end.

(** The fields [analyse_header12] stores, and whether it completes. *)
Definition header_updates (e : endian) (buff : list byte)
    : list (string * value) * outcome unit :=
  then_updates (header_pass e HEADER_STRUCT1 buff 0 124 0)
    (then_updates (header_pass e HEADER_STRUCT2 buff 124 432 35)
       (then_updates (header_pass e HEADER_STRUCT3 buff 556 156 107)
          (header_pass e HEADER_STRUCT4 buff 712 912 140))).

Lemma apply_updates_app (store : gmap string value) (us1 us2 : list (string * value)) :
  apply_updates store (us1 ++ us2) = apply_updates (apply_updates store us1) us2.
Proof. apply foldl_app. Qed.

Lemma header_pass_run (e : endian) (fmt : string) (buff : list byte) (lo n : nat)
    (offset : Z) (w : world) (k : M world unit)
    (rest : list (string * value) * outcome unit) :
  (forall s, k (set_HDR s w) = (set_HDR (apply_updates s rest.1) w, rest.2)) ->
  (let* val := lift (unpack (endian_prefix e +:+ fmt) (slice buff lo n)) in
   let* _ := do_setdico EVT_HEADER_HEADER HDR set_HDR val offset in k) w
  = (set_HDR (apply_updates (HDR w)
                (then_updates (header_pass e fmt buff lo n offset) rest).1) w,
     (then_updates (header_pass e fmt buff lo n offset) rest).2).
Proof.
  intros Hk. unfold header_pass, then_updates.
  destruct (unpack _ _) as [val | err].
  - erewrite bind_ok by reflexivity.
    unfold bind. rewrite do_setdico_run.
    destruct (updates EVT_HEADER_HEADER val offset) as [us [[] | err]]; cbn [fst snd].
    + rewrite Hk. cbn [HDR set_HDR]. by rewrite apply_updates_app.
    + destruct w; reflexivity.
  - erewrite bind_raise by reflexivity. destruct w; reflexivity.
Qed.

Lemma analyse_header12_run (e : endian) (buff : list byte) (w : world) :
  EHeader_endian w = Some e ->
  EVT_HEADER.analyse_header12 buff w
  = (set_HDR (apply_updates (HDR w) (header_updates e buff).1) w,
     (header_updates e buff).2).
Proof.
  intros He. unfold EVT_HEADER.analyse_header12, header_updates.
  erewrite bind_ok by (unfold EVT_HEADER.self_endian; rewrite He; reflexivity).
  apply header_pass_run. intros s1.
  apply (header_pass_run e HEADER_STRUCT2 buff 124 432 35 (set_HDR s1 w)). intros s2.
  apply (header_pass_run e HEADER_STRUCT3 buff 556 156 107 (set_HDR s2 w)). intros s3.
  unfold header_pass.
  destruct (unpack _ _) as [val | err].
  - erewrite bind_ok by reflexivity. rewrite do_setdico_run. reflexivity.
  - erewrite bind_raise by reflexivity. reflexivity.
Qed.

(** [EVT_HEADER.read], case by case. *)
Definition header_read_result (length : Z) (e : endian) (w : world)
    : world * outcome unit :=
  if f_closed (fp w) then (w, Raise ValueError)
  else
    let buff := read_bytes length w in
    let w1 := set_EHeader_endian (Some e) (advance (List.length buff) w) in
    if length =? 2040
    then (set_HDR (apply_updates (HDR w) (header_updates e buff).1) w1,
          (header_updates e buff).2)
    else if length =? 2736
         then (w1, Raise (NotImplementedError "16 Channel not implemented"))
         else (w1, Raise TypeError).

Lemma header_read_run (length : Z) (e : endian) (w : world) :
  EVT_HEADER.read length e w = header_read_result length e w.
Proof.
  unfold header_read_result, EVT_HEADER.read.
  destruct (f_closed (fp w)) eqn:Hopen.
  { erewrite bind_raise by (rewrite fp_read_run, Hopen; reflexivity). reflexivity. }
  erewrite bind_ok by (rewrite fp_read_run, Hopen; reflexivity).
  erewrite bind_ok by reflexivity.
  destruct (length =? 2040).
  - rewrite (analyse_header12_run e) by reflexivity. reflexivity.
  - destruct (length =? 2736); [reflexivity |].
    erewrite bind_raise by reflexivity. reflexivity.
Qed.

(** ** Sample width of a frame *)

(** C8: for every complete 32-byte frame header of type 3 or 5,
    [EVT_FRAME_HEADER.read] returns, whatever the frame status is; the
    sample width it returns is [(framestatus >> 6) + 1] when that is 2, 3 or
    4, and 3 otherwise. *)
Theorem C8_sample_width_fallback (w : world) (e : endian) :
  f_closed (fp w) = false ->
  length (read_bytes 32 w) = 32%nat ->
  u8 (read_bytes 32 w) 0 = 3 \/ u8 (read_bytes 32 w) 0 = 5 ->
  let framestatus := u8 (read_bytes 32 w) 14 in
  let derived := Z.shiftr framestatus 6 + 1 in
  exists w' samplingrate samplesize blocktime channels,
    EVT_FRAME_HEADER.read 32 e w
    = (w', Ok (samplingrate, samplesize, blocktime, channels))
    /\ FRM w' !! "framestatus" = Some (VInt framestatus)
    /\ (derived = 2 \/ derived = 3 \/ derived = 4 -> samplesize = derived)
    /\ (~ (derived = 2 \/ derived = 3 \/ derived = 4) -> samplesize = 3).
Proof.
  intros Hopen Hlen Hft framestatus derived.
  rewrite frame_read_run. unfold frame_read_result.
  rewrite Hopen, Hlen. cbn [Z.eqb Pos.eqb Nat.eqb]. cbv zeta.
  unfold frame_result.
  assert (H345 : (u8 (read_bytes 32 w) 0 =? 3) || (u8 (read_bytes 32 w) 0 =? 4)
                 || (u8 (read_bytes 32 w) 0 =? 5) = true)
    by (destruct Hft as [-> | ->]; reflexivity).
  assert (H4 : (u8 (read_bytes 32 w) 0 =? 4) = false)
    by (destruct Hft as [-> | ->]; reflexivity).
  rewrite H345, H4.
  do 5 eexists. split; [reflexivity |].
  split; [cbn [FRM set_FRM]; rewrite apply_updates_lookup; reflexivity |].
  fold framestatus. unfold clamp_width. fold derived. split.
  - intros [-> | [-> | ->]]; reflexivity.
  - intros Hout.
    destruct (Z.eqb_spec derived 2); [tauto |].
    destruct (Z.eqb_spec derived 3); [tauto |].
    destruct (Z.eqb_spec derived 4); [tauto |]. reflexivity.
Qed.

Lemma C8_sample_width_fallback_witness :
  exists w' samplingrate samplesize blocktime channels,
    EVT_FRAME_HEADER.read 32 Big (stream_world (frame_block Big 3 4095 100 0))
    = (w', Ok (samplingrate, samplesize, blocktime, channels))
    /\ FRM w' !! "framestatus"
       = Some (VInt (u8 (read_bytes 32 (stream_world (frame_block Big 3 4095 100 0))) 14))
    /\ (Z.shiftr (u8 (read_bytes 32 (stream_world (frame_block Big 3 4095 100 0))) 14) 6 + 1 = 2
        \/ Z.shiftr (u8 (read_bytes 32 (stream_world (frame_block Big 3 4095 100 0))) 14) 6 + 1 = 3
        \/ Z.shiftr (u8 (read_bytes 32 (stream_world (frame_block Big 3 4095 100 0))) 14) 6 + 1 = 4
        -> samplesize
           = Z.shiftr (u8 (read_bytes 32 (stream_world (frame_block Big 3 4095 100 0))) 14) 6 + 1)
    /\ (~ (Z.shiftr (u8 (read_bytes 32 (stream_world (frame_block Big 3 4095 100 0))) 14) 6 + 1 = 2
           \/ Z.shiftr (u8 (read_bytes 32 (stream_world (frame_block Big 3 4095 100 0))) 14) 6 + 1 = 3
           \/ Z.shiftr (u8 (read_bytes 32 (stream_world (frame_block Big 3 4095 100 0))) 14) 6 + 1 = 4)
        -> samplesize = 3).
Proof.
  apply (C8_sample_width_fallback (stream_world (frame_block Big 3 4095 100 0)) Big).
  - reflexivity.
  - reflexivity.
  - left. reflexivity.
Defined.

Example width_fallback_run :
  snd (EVT_FRAME_HEADER.read 32 Big (stream_world (frame_block Big 3 4095 100 0)))
  = Ok (100, 3, VTime 0 0, 12)
  /\ snd (EVT_FRAME_HEADER.read 32 Big (stream_world (frame_block Big 3 4095 100 64)))
     = Ok (100, 2, VTime 0 0, 12)
  /\ snd (EVT_FRAME_HEADER.read 32 Big (stream_world (frame_block Big 3 4095 100 192)))
     = Ok (100, 4, VTime 0 0, 12).
Proof. repeat split; vm_compute; reflexivity. Qed.


(** ** The file header reader *)

(** C3 (the length that is neither 2040 nor 2736): the message of the
    exception is built as ["Bad Header length " + length], a string plus an
    integer, so the reader raises [TypeError] and no [EVTBadHeaderError]. *)
Theorem C3_other_length_raises_TypeError (w : world) (length : Z) (e : endian) :
  f_closed (fp w) = false ->
  length <> 2040 -> length <> 2736 ->
  snd (EVT_HEADER.read length e w) = Raise TypeError.
Proof.
  intros Hopen H1 H2. rewrite header_read_run. unfold header_read_result.
  rewrite Hopen. cbv zeta.
  rewrite (proj2 (Z.eqb_neq _ _) H1), (proj2 (Z.eqb_neq _ _) H2). reflexivity.
Qed.

Lemma C3_other_length_raises_TypeError_witness :
  snd (EVT_HEADER.read 32 Big (stream_world frame_tag_first)) = Raise TypeError.
Proof.
  apply (C3_other_length_raises_TypeError (stream_world frame_tag_first) 32 Big).
  - reflexivity.
  - lia.
  - lia.
Defined.

Lemma EVT_HEADER_read_2736 (w : world) (e : endian) :
  f_closed (fp w) = false ->
  snd (EVT_HEADER.read 2736 e w)
  = Raise (NotImplementedError "16 Channel not implemented").
Proof.
  intros Hopen. rewrite header_read_run. unfold header_read_result.
  rewrite Hopen. reflexivity.
Qed.

(** ** Closing the stream *)

(** C4 (an error exit): a file opened from its name and found to start
    with a wrong sync byte makes [readFile] raise, and the stream it opened is
    left open; on the successful run of the same code the stream is closed. *)
Theorem C4_error_exit_leaves_stream_open :
  run_error (EVT.readFile (FileName "x.evt") true (file_world "x.evt" bad_sync))
  = Some (EVTBadHeaderError "Sync error")
  /\ run_closed (EVT.readFile (FileName "x.evt") true (file_world "x.evt" bad_sync)) = false
  /\ run_error (EVT.readFile (FileName "x.evt") true (file_world "x.evt" (two_frames 3)))
     = Some (EVTBadDataError "Bad number of blocks")
  /\ run_closed (EVT.readFile (FileName "x.evt") true (file_world "x.evt" (two_frames 3)))
     = false
  /\ run_error (EVT.readFile (FileName "x.evt") true (file_world "x.evt" (two_frames 2)))
     = None
  /\ run_closed (EVT.readFile (FileName "x.evt") true (file_world "x.evt" (two_frames 2)))
     = true.
Proof. repeat split; vm_compute; reflexivity. Qed.

(** ** Constancy of the sampling rate *)

(** C7 (a first frame of rate 0): the recording [zero_rate_first] has a
    frame of sampling rate 0 followed by a frame of sampling rate 10, and
    is decoded without error, at 10 samples per second; with the two frames
    in the other order the decode fails. *)
Theorem C7_rate_change_after_zero_accepted :
  snd (EVT_FRAME_HEADER.read 32 Big
         (stream_world (frame_block Big 3 1 0 192))) = Ok (0, 4, VTime 0 0, 1)
  /\ snd (EVT_FRAME_HEADER.read 32 Big
            (stream_world (frame_block Big 3 1 10 192))) = Ok (10, 4, VTime 0 0, 1)
  /\ run_error (EVT.readFile FileObject true (stream_world zero_rate_first)) = None
  /\ run_rates (EVT.readFile FileObject true (stream_world zero_rate_first)) = Ok [10]
  /\ run_error (EVT.readFile FileObject true (stream_world zero_rate_second))
     = Some (EVTBadHeaderError "Sampling rate not constant").
Proof. repeat split; vm_compute; reflexivity. Qed.


(** ** What the block readers leave unchanged *)

(** The fields of the world no block reader writes, and the content and
    state of the stream. *)
Definition untouched (w w' : world) : Prop :=
  files w' = files w /\ HDR w' = HDR w /\ EHeader_endian w' = EHeader_endian w
  /\ samplingrate w' = samplingrate w /\ data w' = data w
  /\ f_bytes (fp w') = f_bytes (fp w) /\ f_closed (fp w') = f_closed (fp w).

Lemma tag_read_untouched (w : world) :
  untouched w (EVT_TAG.read w).1
  /\ FRM (EVT_TAG.read w).1 = FRM w
  /\ EFrame_endian (EVT_TAG.read w).1 = EFrame_endian w
  /\ numframe (EVT_TAG.read w).1 = numframe w.
Proof.
  rewrite tag_read_run. unfold tag_read_result, untouched.
  repeat case_match; cbn; repeat split; congruence.
Qed.

Lemma frame_read_untouched (length : Z) (e : endian) (w : world) :
  untouched w (EVT_FRAME_HEADER.read length e w).1
  /\ TAG (EVT_FRAME_HEADER.read length e w).1 = TAG w
  /\ ETag_endian (EVT_FRAME_HEADER.read length e w).1 = ETag_endian w.
Proof.
  rewrite frame_read_run. unfold frame_read_result, untouched.
  repeat case_match; cbn; repeat split; congruence.
Qed.

Lemma data_read_untouched (length : Z) (e : endian) (param : Z * Z * value * Z)
    (w : world) :
  untouched w (EVT_DATA.read length e param w).1
  /\ TAG (EVT_DATA.read length e param w).1 = TAG w
  /\ FRM (EVT_DATA.read length e param w).1 = FRM w
  /\ ETag_endian (EVT_DATA.read length e param w).1 = ETag_endian w
  /\ EFrame_endian (EVT_DATA.read length e param w).1 = EFrame_endian w
  /\ numframe (EVT_DATA.read length e param w).1 = numframe w.
Proof.
  rewrite data_read_run. unfold data_read_result, untouched.
  destruct param as [[[sr nb] bt] nc].
  repeat case_match; cbn; repeat split; congruence.
Qed.

(** The exceptions of the block readers. *)
Definition not_constant : exn := EVTBadHeaderError "Sampling rate not constant".

Lemma tag_read_errors (w : world) (err : exn) :
  (EVT_TAG.read w).2 = Raise err -> err <> not_constant.
Proof.
  rewrite tag_read_run. unfold tag_read_result.
  repeat case_match; cbn; intros [= <-]; discriminate.
Qed.

Lemma frame_read_errors (length : Z) (e : endian) (w : world) (err : exn) :
  (EVT_FRAME_HEADER.read length e w).2 = Raise err -> err <> not_constant.
Proof.
  rewrite frame_read_run. unfold frame_read_result, frame_result.
  repeat case_match; cbn; intros [= <-]; discriminate.
Qed.

Lemma attr_int_errors (store : world -> gmap string value) (key : string) (w : world)
    (err : exn) :
  (attr_int store key w).2 = Raise err -> err = IndexError \/ err = TypeError.
Proof.
  unfold attr_int, bind, attr, getattr, lift, as_int.
  repeat case_match; cbn; intros Herr; try discriminate;
    simplify_eq; auto.
Qed.

Lemma attr_int_state (store : world -> gmap string value) (key : string) (w : world) :
  (attr_int store key w).1 = w.
Proof.
  unfold attr_int, bind, attr, getattr, lift, as_int. repeat case_match; reflexivity.
Qed.

Lemma ofold_errors {A B} (P : exn -> Prop) (l : list A) (body : A -> B -> outcome B)
    (acc : B) (err : exn) :
  (forall x a err, body x a = Raise err -> P err) ->
  ofold l body acc = Raise err -> P err.
Proof.
  intros Hb. revert acc. induction l as [|x l IH]; intros acc; cbn; [discriminate |].
  destruct (body x acc) eqn:E; cbn; [apply IH | intros [= <-]; eauto].
Qed.

Lemma sample_val_errors (numbyte : Z) (buff : list byte) (i : Z) (err : exn) :
  EVT_DATA.sample_val numbyte buff i = Raise err ->
  err = StructError \/ err = UnboundLocalError.
Proof.
  unfold EVT_DATA.sample_val.
  assert (Hu : forall s, EVT_DATA.unpack_be_i s = Raise err -> err = StructError).
  { intros s. destruct (decide (length s = 4%nat)) as [H4 | H4].
    - by rewrite unpack_be_i_ok.
    - rewrite unpack_be_i_short by exact H4. by intros [= <-]. }
  destruct (numbyte =? 2).
  { destruct (EVT_DATA.unpack_be_i _) eqn:E; cbn; [discriminate |].
    intros [= <-]. left. eapply Hu, E. }
  destruct (numbyte =? 3).
  { destruct (EVT_DATA.unpack_be_i _) eqn:E; cbn; [discriminate |].
    intros [= <-]. left. eapply Hu, E. }
  destruct (numbyte =? 4).
  { intros E. left. eapply Hu, E. }
  intros [= <-]. by right.
Qed.

Lemma data_read_errors (length : Z) (e : endian) (param : Z * Z * value * Z) (w : world)
    (err : exn) :
  (EVT_DATA.read length e param w).2 = Raise err -> err <> not_constant.
Proof.
  rewrite data_read_run. unfold data_read_result. destruct param as [[[sr nb] bt] nc].
  destruct (f_closed (fp w)); [intros [= <-]; discriminate |]. cbn [snd].
  destruct (negb _); [intros [= <-]; discriminate |].
  unfold EVT_DATA.unpack_block. intros H.
  apply (ofold_errors (fun err => err = StructError \/ err = UnboundLocalError)) in H.
  - destruct H as [-> | ->]; discriminate.
  - intros j dat err' H'.
    apply (ofold_errors (fun err => err = StructError \/ err = UnboundLocalError)) in H';
      [exact H' |].
    intros k dat' err'' H''.
    destruct (EVT_DATA.sample_val nb _ _) eqn:Es in H''; cbn in H''; [discriminate |].
    injection H'' as <-. eapply sample_val_errors, Es.
Qed.


(** ** One turn of the block loop *)

Lemma bind_unfold {S A B} (m : M S A) (f : A -> M S B) (s : S) :
  bind m f s
  = match m s with
    | (s', Ok a) => f a s'
    | (s', Raise e) => (s', Raise e)
    end.
Proof. reflexivity. Qed.

(** The sampling rate of the frame header last decoded. *)
Definition frame_rate (w : world) : option Z :=
  match FRM w !! "streampar" with
  | Some (VInt streampar) => Some (Z.land streampar 4095)
  | _ => None
  end.

Lemma frame_read_rate (length : Z) (e : endian) (w w' : world)
    (rate numbyte : Z) (blocktime : value) (numchan : Z) :
  EVT_FRAME_HEADER.read length e w = (w', Ok (rate, numbyte, blocktime, numchan)) ->
  frame_rate w' = Some rate.
Proof.
  rewrite frame_read_run. unfold frame_read_result, frame_result.
  repeat case_match; intros Heq; try discriminate.
  pose proof (f_equal fst Heq) as Hw. pose proof (f_equal snd Heq) as Ho.
  cbn [fst snd] in Hw, Ho. subst w'. injection Ho as <- _ _ _.
  unfold frame_rate. cbn [FRM set_FRM]. rewrite apply_updates_lookup. reflexivity.
Qed.

(** The end of a turn: the data block is read and appended. *)
Definition block_tail (e : endian) (retparam : Z * Z * value * Z) : M world bool :=
  let* datalength := attr_int TAG "datalength" in
  let* datal := EVT_DATA.read datalength e retparam in
  let* self_data := gets data in
  let* d := lift (EVT.hstack self_data datal) in
  let* _ := modify (set_data d) in
  ret true.

Lemma hstack_errors (d : list (list sample)) (datal : list (list Z)) (err : exn) :
  EVT.hstack d datal = Raise err -> err = ValueError.
Proof. unfold EVT.hstack. repeat case_match; intros [= <-]; reflexivity. Qed.

Lemma data_read_no_eof (length : Z) (e : endian) (param : Z * Z * value * Z) (w : world) :
  (EVT_DATA.read length e param w).2 <> Raise EVTEOFError.
Proof.
  rewrite data_read_run. unfold data_read_result. destruct param as [[[sr nb] bt] nc].
  destruct (f_closed (fp w)); [discriminate |]. cbn [snd].
  destruct (negb _); [discriminate |].
  unfold EVT_DATA.unpack_block. intros H.
  apply (ofold_errors (fun err => err = StructError \/ err = UnboundLocalError)) in H.
  - destruct H; discriminate.
  - intros j dat err' H'.
    apply (ofold_errors (fun err => err = StructError \/ err = UnboundLocalError)) in H';
      [exact H' |].
    intros k dat' err'' H''.
    destruct (EVT_DATA.sample_val nb _ _) eqn:Es in H''; cbn in H''; [discriminate |].
    injection H'' as <-. eapply sample_val_errors, Es.
Qed.

Lemma block_tail_spec (e : endian) (retparam : Z * Z * value * Z) (w : world) :
  match block_tail e retparam w with
  | (w', o) =>
      samplingrate w' = samplingrate w /\ FRM w' = FRM w
      /\ match o with
         | Ok b => b = true
         | Raise err => err <> not_constant /\ err <> EVTEOFError
         end
  end.
Proof.
  unfold block_tail. rewrite bind_unfold.
  pose proof (attr_int_state TAG "datalength" w) as Sl.
  pose proof (attr_int_errors TAG "datalength" w) as El.
  destruct (attr_int TAG "datalength" w) as [w' [dl | err]]; cbn [fst snd] in *; subst w'.
  2: { repeat split; destruct (El err eq_refl) as [-> | ->]; discriminate. }
  rewrite bind_unfold.
  pose proof (data_read_untouched dl e retparam w) as (Ud & _ & Hfrm & _).
  pose proof (data_read_errors dl e retparam w) as Ed.
  pose proof (data_read_no_eof dl e retparam w) as Heof.
  destruct (EVT_DATA.read dl e retparam w) as [w1 [datal | err]]; cbn [fst snd] in *.
  2: { destruct Ud as (_ & _ & _ & Hsr & _). repeat split; auto. congruence. }
  destruct Ud as (_ & _ & _ & Hsr & _).
  rewrite bind_unfold. unfold gets at 1. cbv beta iota.
  rewrite bind_unfold. unfold lift at 1. cbv beta iota.
  pose proof (hstack_errors (data w1) datal) as Eh.
  destruct (EVT.hstack (data w1) datal) as [d | err].
  - cbn. repeat split; congruence.
  - rewrite (Eh err eq_refl). repeat split; auto; discriminate.
Qed.

(** What a turn of the loop does with the sampling rate. *)
Lemma read_block_rate (e : endian) (w : world) :
  match EVT.read_block e w with
  | (w', Ok true) =>
      exists rate, frame_rate w' = Some rate
        /\ samplingrate w' = (if samplingrate w =? 0 then rate else samplingrate w)
        /\ (samplingrate w <> 0 -> rate = samplingrate w)
  | (w', Ok false) => samplingrate w' = samplingrate w
  | (w', Raise err) =>
      err = not_constant ->
      samplingrate w <> 0
      /\ exists rate, frame_rate w' = Some rate /\ rate <> samplingrate w
  end.
Proof.
  unfold EVT.read_block, catch_eof. rewrite bind_unfold.
  pose proof (tag_read_untouched w) as (Ut & _).
  pose proof (tag_read_errors w) as Et.
  destruct (EVT_TAG.read w) as [w1 [[] | err1]]; cbn [fst snd] in *.
  2: { destruct Ut as (_ & _ & _ & Hsr & _).
       destruct err1; first [exact Hsr | intros Hc; exfalso; exact (Et _ eq_refl Hc)]. }
  rewrite bind_unfold.
  pose proof (attr_int_state TAG "length" w1) as Sl.
  pose proof (attr_int_errors TAG "length" w1) as El.
  destruct (attr_int TAG "length" w1) as [w1' [len | err2]]; cbn [fst snd] in *; subst w1'.
  2: { destruct (El err2 eq_refl) as [-> | ->]; discriminate. }
  rewrite bind_unfold.
  pose proof (frame_read_untouched len e w1) as (Uf & _).
  pose proof (frame_read_errors len e w1) as Ef.
  pose proof (frame_read_rate len e w1) as Rf.
  destruct (EVT_FRAME_HEADER.read len e w1) as [w2 [[[[rate nb] bt] nc] | err3]];
    cbn [fst snd] in *.
  2: { destruct err3; try (intros Hc; exfalso; exact (Ef _ eq_refl Hc)).
       destruct Ut as (_ & _ & _ & H1 & _), Uf as (_ & _ & _ & H2 & _). congruence. }
  specialize (Rf w2 rate nb bt nc eq_refl).
  assert (Hsr2 : samplingrate w2 = samplingrate w).
  { destruct Ut as (_ & _ & _ & H1 & _), Uf as (_ & _ & _ & H2 & _). congruence. }
  rewrite bind_unfold. unfold gets at 1. cbv beta iota. rewrite Hsr2.
  change (let* datalength := attr_int TAG "datalength" in _)
    with (block_tail e (rate, nb, bt, nc)).
  rewrite bind_unfold.
  destruct (Z.eqb_spec (samplingrate w) 0) as [H0 | H0].
  - unfold modify at 1. cbv beta iota.
    pose proof (block_tail_spec e (rate, nb, bt, nc) (set_samplingrate rate w2)) as Hb.
    destruct (block_tail e (rate, nb, bt, nc) (set_samplingrate rate w2))
      as [w3 [b | err]]; destruct Hb as (Hs & Hf & Ho); cbn [fst snd] in *.
    + subst b. exists rate. unfold frame_rate in *. rewrite Hf. cbn [FRM set_samplingrate].
      split; [exact Rf |]. split; [exact Hs | congruence].
    + destruct Ho as [Hn He]. destruct err; congruence.
  - destruct (Z.eqb_spec (samplingrate w) rate) as [Hr | Hr]; cbn [negb].
    + unfold ret at 1. cbv beta iota.
      pose proof (block_tail_spec e (rate, nb, bt, nc) w2) as Hb.
      destruct (block_tail e (rate, nb, bt, nc) w2) as [w3 [b | err]];
        destruct Hb as (Hs & Hf & Ho); cbn [fst snd] in *.
      * subst b. exists rate. unfold frame_rate in *. rewrite Hf.
        split; [exact Rf |]. split; [congruence | congruence].
      * destruct Ho as [Hn He]. destruct err; congruence.
    + unfold raise at 1. cbv beta iota. intros _. split; [exact H0 |].
      exists rate. split; [exact Rf | congruence].
Qed.


(** The two frames of [zero_rate_first], positioned after the file header
    of a one-channel recording. *)
Definition zero_rate_frames : world :=
  set_data [[]]
    (stream_world
       (tag_block Big 1 2 32 0 ++ frame_block Big 3 1 0 192
          ++ tag_block Big 1 2 32 4 ++ frame_block Big 3 1 10 192 ++ enc Big 4 7
          ++ zeros 16)).

(** C10: when the first frame of a decode has sampling rate 0, the stored
    rate is still the sentinel 0 after it, so the next turn of the loop
    never raises "Sampling rate not constant", and when it completes the
    rate of its frame, whatever it is, has become the rate of the
    recording. *)
Theorem C10_zero_first_rate_disables_check (e : endian) (w0 w1 : world) :
  samplingrate w0 = 0 ->
  EVT.read_block e w0 = (w1, Ok true) ->
  frame_rate w1 = Some 0 ->
  samplingrate w1 = 0
  /\ (EVT.read_block e w1).2 <> Raise (EVTBadHeaderError "Sampling rate not constant")
  /\ forall w2, EVT.read_block e w1 = (w2, Ok true) ->
       exists rate, frame_rate w2 = Some rate /\ samplingrate w2 = rate.
Proof.
  intros H0 Hfirst Hrate.
  pose proof (read_block_rate e w0) as R0. rewrite Hfirst in R0.
  destruct R0 as (rate0 & Hf0 & Hs0 & _).
  rewrite H0 in Hs0. cbn in Hs0.
  assert (Hz : samplingrate w1 = 0) by congruence.
  split; [exact Hz |].
  pose proof (read_block_rate e w1) as R1.
  split.
  - destruct (EVT.read_block e w1) as [w2 [b | err]]; cbn [snd]; [discriminate |].
    intros [= ->]. destruct (R1 eq_refl) as [Hne _]. contradiction.
  - intros w2 Hsecond. rewrite Hsecond in R1.
    destruct R1 as (rate & Hf & Hs & _). rewrite Hz in Hs. cbn in Hs.
    exists rate. auto.
Qed.

Lemma C10_zero_first_rate_disables_check_witness :
  samplingrate (EVT.read_block Big zero_rate_frames).1 = 0
  /\ (EVT.read_block Big (EVT.read_block Big zero_rate_frames).1).2
     <> Raise (EVTBadHeaderError "Sampling rate not constant")
  /\ forall w2,
       EVT.read_block Big (EVT.read_block Big zero_rate_frames).1 = (w2, Ok true) ->
       exists rate, frame_rate w2 = Some rate /\ samplingrate w2 = rate.
Proof.
  apply (C10_zero_first_rate_disables_check Big zero_rate_frames
           (EVT.read_block Big zero_rate_frames).1).
  - reflexivity.
  - rewrite (surjective_pairing (EVT.read_block Big zero_rate_frames)) at 1.
    apply (f_equal (pair _)). vm_compute. reflexivity.
  - vm_compute. reflexivity.
Defined.

Example zero_rate_frames_run :
  samplingrate (EVT.read_block Big (EVT.read_block Big zero_rate_frames).1).1 = 10
  /\ (EVT.read_block Big (EVT.read_block Big zero_rate_frames).1).2 = Ok true
  /\ frame_rate (EVT.read_block Big (EVT.read_block Big zero_rate_frames).1).1 = Some 10.
Proof. repeat split; vm_compute; reflexivity. Qed.


(** ** Invariants of the state *)

Definition invariant (I : world -> Prop) {A} (m : M world A) : Prop :=
  forall w, I w -> I (m w).1.

Lemma invariant_bind (I : world -> Prop) {A B} (m : M world A) (f : A -> M world B) :
  invariant I m -> (forall a, invariant I (f a)) -> invariant I (bind m f).
Proof.
  intros Hm Hf w Hw. rewrite bind_unfold. specialize (Hm w Hw).
  destruct (m w) as [w1 [a | err]]; cbn [fst] in *; [by apply Hf | exact Hm].
Qed.

Lemma invariant_catch (I : world -> Prop) {A} (m h : M world A) :
  invariant I m -> invariant I h -> invariant I (catch_eof m h).
Proof.
  intros Hm Hh w Hw. unfold catch_eof. specialize (Hm w Hw).
  destruct (m w) as [w1 [a | []]]; cbn [fst] in *; auto.
Qed.

(** Computations that leave the world as it is. *)
Lemma invariant_same (I : world -> Prop) {A} (m : M world A) :
  (forall w, (m w).1 = w) -> invariant I m.
Proof. intros H w Hw. by rewrite H. Qed.

Lemma invariant_modify (I : world -> Prop) (f : world -> world) :
  (forall w, I w -> I (f w)) -> invariant I (modify f).
Proof. intros H w Hw. by apply H. Qed.

Lemma attr_state (store : world -> gmap string value) (key : string) (w : world) :
  (attr store key w).1 = w.
Proof. reflexivity. Qed.

(** The order the header and the frames are read in: [e0] or not set. *)
Definition order_is (e0 : endian) (w : world) : Prop :=
  (forall e, EHeader_endian w = Some e -> e = e0)
  /\ (forall e, EFrame_endian w = Some e -> e = e0).

Lemma order_is_tag (e0 : endian) : invariant (order_is e0) EVT_TAG.read.
Proof.
  intros w [Hh Hf]. pose proof (tag_read_untouched w) as ((_ & _ & H1 & _) & _ & H2 & _).
  unfold order_is. by rewrite H1, H2.
Qed.

Lemma order_is_frame (e0 : endian) (length : Z) :
  invariant (order_is e0) (EVT_FRAME_HEADER.read length e0).
Proof.
  intros w [Hh Hf]. unfold order_is.
  rewrite frame_read_run. unfold frame_read_result.
  repeat case_match; cbn; split; auto; congruence.
Qed.

Lemma order_is_header (e0 : endian) (length : Z) :
  invariant (order_is e0) (EVT_HEADER.read length e0).
Proof.
  intros w [Hh Hf]. unfold order_is.
  rewrite header_read_run. unfold header_read_result.
  repeat case_match; cbn; split; auto; congruence.
Qed.

Lemma order_is_data (e0 e : endian) (length : Z) (param : Z * Z * value * Z) :
  invariant (order_is e0) (EVT_DATA.read length e param).
Proof.
  intros w [Hh Hf].
  pose proof (data_read_untouched length e param w)
    as ((_ & _ & H1 & _) & _ & _ & _ & H2 & _).
  unfold order_is. by rewrite H1, H2.
Qed.

Lemma order_is_attr_int (e0 : endian) (store : world -> gmap string value) (key : string) :
  invariant (order_is e0) (attr_int store key).
Proof. apply invariant_same. intros w. apply attr_int_state. Qed.

Lemma order_is_read_block (e0 : endian) : invariant (order_is e0) (EVT.read_block e0).
Proof.
  unfold EVT.read_block. apply invariant_catch; [| by apply invariant_same].
  apply invariant_bind; [apply order_is_tag | intros _].
  apply invariant_bind; [apply order_is_attr_int | intros len].
  apply invariant_bind; [apply order_is_frame | intros [[[rate nb] bt] nc]].
  apply invariant_bind; [by apply invariant_same | intros sr].
  apply invariant_bind.
  { destruct (sr =? 0); [by apply invariant_modify |].
    destruct (negb _); by apply invariant_same. }
  intros _.
  apply invariant_bind; [apply order_is_attr_int | intros dl].
  apply invariant_bind; [apply order_is_data | intros datal].
  apply invariant_bind; [by apply invariant_same | intros sd].
  apply invariant_bind; [by apply invariant_same | intros d].
  apply invariant_bind; [by apply invariant_modify | intros _].
  by apply invariant_same.
Qed.

Lemma order_is_read_blocks (e0 : endian) (fuel : nat) :
  invariant (order_is e0) (EVT.read_blocks fuel e0).
Proof.
  induction fuel as [|fuel IH]; cbn [EVT.read_blocks]; [by apply invariant_same |].
  apply invariant_bind; [apply order_is_read_block | intros []].
  - exact IH.
  - by apply invariant_same.
Qed.

Lemma calibration_state (I : world -> Prop) :
  (forall d w, I w -> I (set_data d w)) -> invariant I EVT.calibration.
Proof.
  intros Hd. unfold EVT.calibration.
  apply invariant_bind; [apply invariant_same; intros w; apply attr_int_state | intros n].
  apply invariant_bind; [by apply invariant_same | intros fs].
  apply invariant_bind; [by apply invariant_same | intros sens].
  apply invariant_bind; [by apply invariant_same | intros sd].
  apply invariant_bind; [by apply invariant_same | intros d].
  apply invariant_modify. apply Hd.
Qed.

Lemma traces_state (w : world) : (EVT.traces w).1 = w.
Proof.
  unfold EVT.traces. rewrite bind_unfold.
  pose proof (attr_int_state HDR "nchannels" w) as Hs.
  destruct (attr_int HDR "nchannels" w) as [w' [n | err]]; cbn [fst] in *; subst w';
    reflexivity.
Qed.

(** [readFile] once the byte order is resolved from the first tag. *)
Definition readFile_rest (is_fileobject Raw : bool) (endian : endian)
    : M world (list Trace) :=
  let* _ := modify (fun w => set_HDR (unsetdico (HDR w)) w) in
  let* length := attr_int TAG "length" in
  let* _ := EVT_HEADER.read length endian in
  let* nchannels := attr_int HDR "nchannels" in
  let* _ := modify (set_data (replicate (Z.to_nat nchannels) [])) in
  let* bound := gets EVT.loop_bound in
  let* _ := EVT.read_blocks bound endian in
  let* count := EVT_FRAME_HEADER.count in
  let* duration := attr HDR "duration" in
  if negb (value_is duration count) then raise (EVTBadDataError "Bad number of blocks")
  else
    let* _ := (if negb Raw then EVT.calibration else ret tt) in
    let* _ := (if negb is_fileobject then fp_close else ret tt) in
    EVT.traces.

Lemma readFile_unfold (arg : filename_or_object) (Raw : bool) :
  EVT.readFile arg Raw
  = (let* _ := match arg with FileObject => ret tt | FileName name => fp_open name end in
     let* _ := EVT_TAG.read in
     let* self_ETag_endian := gets ETag_endian in
     let* endian := lift (match self_ETag_endian with
                          | Some e => Ok e
                          | None => Raise TypeError
                          end) in
     readFile_rest (match arg with FileObject => true | FileName _ => false end)
                   Raw endian).
Proof. reflexivity. Qed.

Lemma order_is_rest (e0 : endian) (is_fileobject Raw : bool) :
  invariant (order_is e0) (readFile_rest is_fileobject Raw e0).
Proof.
  unfold readFile_rest.
  apply invariant_bind; [by apply invariant_modify | intros _].
  apply invariant_bind; [apply order_is_attr_int | intros len].
  apply invariant_bind; [apply order_is_header | intros _].
  apply invariant_bind; [apply order_is_attr_int | intros n].
  apply invariant_bind; [by apply invariant_modify | intros _].
  apply invariant_bind; [by apply invariant_same | intros bound].
  apply invariant_bind; [apply order_is_read_blocks | intros _].
  apply invariant_bind; [by apply invariant_same | intros count].
  apply invariant_bind; [by apply invariant_same | intros duration].
  destruct (negb _); [by apply invariant_same |].
  apply invariant_bind.
  { destruct (negb Raw); [by apply calibration_state | by apply invariant_same]. }
  intros _. apply invariant_bind.
  { destruct (negb is_fileobject); [by apply invariant_modify | by apply invariant_same]. }
  intros _. apply invariant_same. apply traces_state.
Qed.

Lemma tag_read_order (w w' : world) :
  EVT_TAG.read w = (w', Ok tt) ->
  exists e,
    tag_order (next_bytes 16 w) = Some e
    /\ ETag_endian w' = Some e
    /\ TAG w' !! "type" = Some (VInt (u32 e (next_bytes 16 w) 4))
    /\ TAG w' !! "length" = Some (VInt (u16 e (next_bytes 16 w) 8))
    /\ TAG w' !! "datalength" = Some (VInt (u16 e (next_bytes 16 w) 10)).
Proof.
  rewrite tag_read_run. unfold tag_read_result.
  repeat case_match; intros Heq; try discriminate.
  pose proof (f_equal fst Heq) as Hw. cbn [fst] in Hw. subst w'.
  eexists. split; [reflexivity |].
  cbn [ETag_endian TAG set_ETag_endian set_TAG].
  rewrite !apply_updates_lookup. repeat split; reflexivity.
Qed.


(** ** Byte order of the blocks *)

Lemma readFile_order (w w' : world) (Raw : bool) (o : outcome (list Trace))
    (e : endian) :
  EVT.readFile FileObject Raw (EVT_init w) = (w', o) ->
  EHeader_endian w' = Some e \/ EFrame_endian w' = Some e ->
  tag_order (next_bytes 16 w) = Some e.
Proof.
  rewrite readFile_unfold. rewrite bind_unfold. unfold ret at 1. cbv beta iota.
  rewrite bind_unfold.
  pose proof (tag_read_untouched (EVT_init w)) as ((_ & _ & H1 & _) & _ & H2 & _).
  pose proof (tag_read_order (EVT_init w)) as Ho.
  destruct (EVT_TAG.read (EVT_init w)) as [w1 [[] | err]]; cbn [fst] in *.
  2: { intros [= <- _]. rewrite H1, H2. cbn. intros [? | ?]; discriminate. }
  destruct (Ho w1 eq_refl) as (e0 & Htag & Hend & _).
  rewrite bind_unfold. unfold gets at 1. cbv beta iota. rewrite Hend.
  rewrite bind_unfold. unfold lift at 1. cbv beta iota.
  assert (Hinit : order_is e0 w1).
  { split; intros e'; rewrite ?H1, ?H2; cbn; discriminate. }
  pose proof (order_is_rest e0 true Raw w1 Hinit) as [Hh Hf].
  change (next_bytes 16 (EVT_init w)) with (next_bytes 16 w) in Htag.
  intros Hrun. rewrite Hrun in Hh, Hf. cbn [fst] in Hh, Hf.
  intros [He | He]; [apply Hh in He | apply Hf in He]; congruence.
Qed.

(** C2, as stated, fails: in [mixed_tags] the first tag announces big-endian
    and the second tag, which carries the little-endian flag, is read
    little-endian (its length is 32, not the 8192 its bytes give
    big-endian); in [little_endian] the first tag announces little-endian and
    the sample bytes [00 00 00 01] decode big-endian, to 1. *)
Lemma C2_later_tag_and_samples_own_order :
  tag_order (next_bytes 16 (stream_world mixed_tags)) = Some Big
  /\ run_error (EVT.readFile FileObject true (stream_world mixed_tags)) = None
  /\ ETag_endian (EVT.readFile FileObject true (stream_world mixed_tags)).1 = Some Little
  /\ TAG (EVT.readFile FileObject true (stream_world mixed_tags)).1 !! "length"
     = Some (VInt 32)
  /\ u16 Big (tag_block Little 0 2 32 4) 8 = 8192
  /\ tag_order (next_bytes 16 (stream_world little_endian)) = Some Little
  /\ run_rows (EVT.readFile FileObject true (stream_world little_endian)) = Ok [[Count 1]]
  /\ read_uint Little (enc Big 4 1) = 16777216.
Proof. repeat split; vm_compute; reflexivity. Qed.

(** C2 (amended): the byte order resolved from the first tag block is the
    one every file-header and frame-header decode of that run is made in;
    every tag block, the first and the later ones, is decoded in the order
    of its own flag; the samples of a data block are decoded the same
    whatever the order. *)
Theorem C2_byte_order_of_blocks :
  (forall (w w' : world) (Raw : bool) (o : outcome (list Trace)) (e : endian),
      EVT.readFile FileObject Raw (EVT_init w) = (w', o) ->
      EHeader_endian w' = Some e \/ EFrame_endian w' = Some e ->
      tag_order (next_bytes 16 w) = Some e)
  /\ (forall (w w' : world) (e : endian) (r : Z * Z * value * Z),
        EVT_FRAME_HEADER.read 32 e w = (w', Ok r) ->
        EFrame_endian w' = Some e
        /\ FRM w' !! "streampar" = Some (VInt (u16 e (read_bytes 32 w) 12))
        /\ FRM w' !! "channelbitmap" = Some (VInt (u16 e (read_bytes 32 w) 10)))
  /\ (forall (w w' : world) (e : endian) (length : Z),
        EVT_HEADER.read length e w = (w', Ok tt) ->
        EHeader_endian w' = Some e
        /\ HDR w' = apply_updates (HDR w) (header_updates e (read_bytes length w)).1)
  /\ (forall (w w' : world),
        EVT_TAG.read w = (w', Ok tt) ->
        exists e,
          tag_order (next_bytes 16 w) = Some e
          /\ ETag_endian w' = Some e
          /\ TAG w' !! "type" = Some (VInt (u32 e (next_bytes 16 w) 4))
          /\ TAG w' !! "length" = Some (VInt (u16 e (next_bytes 16 w) 8))
          /\ TAG w' !! "datalength" = Some (VInt (u16 e (next_bytes 16 w) 10)))
  /\ (forall (w : world) (length : Z) (e1 e2 : endian) (param : Z * Z * value * Z),
        EVT_DATA.read length e1 param w = EVT_DATA.read length e2 param w).
Proof.
  split; [exact readFile_order |].
  split.
  { intros w w' e r. rewrite frame_read_run. unfold frame_read_result.
    repeat case_match; intros Heq; try discriminate.
    pose proof (f_equal fst Heq) as Hw. cbn [fst] in Hw. subst w'.
    cbn [EFrame_endian FRM set_FRM set_numframe set_EFrame_endian].
    rewrite !apply_updates_lookup.
    match goal with H : (_ =? 32) = true |- _ => apply Z.eqb_eq in H; subst end.
    repeat split; reflexivity. }
  split.
  { intros w w' e length. rewrite header_read_run. unfold header_read_result.
    repeat case_match; intros Heq; try discriminate.
    pose proof (f_equal fst Heq) as Hw. cbn [fst] in Hw. subst w'.
    split; reflexivity. }
  split; [exact tag_read_order |].
  intros w length e1 e2 param. by rewrite !data_read_run.
Qed.

Lemma C2_byte_order_of_blocks_witness :
  tag_order (next_bytes 16 (stream_world mixed_tags)) = Some Big.
Proof.
  apply (proj1 C2_byte_order_of_blocks (stream_world mixed_tags)
           (EVT.readFile FileObject true (EVT_init (stream_world mixed_tags))).1 true
           (EVT.readFile FileObject true (EVT_init (stream_world mixed_tags))).2 Big).
  - apply surjective_pairing.
  - right. vm_compute. reflexivity.
Defined.

(** * Further properties of the readers *)

(** ** The tag reader *)

Lemma next_bytes_length (n : nat) (w : world) : (length (next_bytes n w) <= n)%nat.
Proof. unfold next_bytes. rewrite length_take. lia. Qed.

(** X1: on an open stream, [EVT_TAG.read] raises [EVTEOFError] exactly
    when fewer than 16 bytes are left (none, for an empty stream) or the
    block read starts with a null byte. *)
Theorem tag_read_end_of_stream (w : world) :
  f_closed (fp w) = false ->
  snd (EVT_TAG.read w) = Raise EVTEOFError
  <-> (length (next_bytes 16 w) < 16)%nat \/ nth 0 (next_bytes 16 w) x00 = x00.
Proof.
  intros Hopen. rewrite tag_read_run. unfold tag_read_result. rewrite Hopen.
  cbv zeta. destruct (Nat.ltb_spec (length (next_bytes 16 w)) 16) as [Hlt | Hge].
  { cbn. tauto. }
  destruct (Byte.eqb (nth 0 (next_bytes 16 w) x00) x00) eqn:E0.
  { apply byte_dec_bl in E0. cbn. tauto. }
  apply Byte.eqb_false in E0.
  split; [| intros [? | ?]; [lia | contradiction]].
  destruct (negb _); [discriminate |].
  destruct (tag_order _); [| discriminate].
  cbn. destruct (tag_valid _ _); discriminate.
Qed.

Lemma tag_read_end_of_stream_witness :
  snd (EVT_TAG.read (stream_world [])) = Raise EVTEOFError
  <-> (length (next_bytes 16 (stream_world [])) < 16)%nat
      \/ nth 0 (next_bytes 16 (stream_world [])) x00 = x00.
Proof. apply (tag_read_end_of_stream (stream_world [])). reflexivity. Defined.

(** X2: on an open stream, [EVT_TAG.read] returns normally exactly when 16
    bytes are left, the first is ['K'], the second is 1 or 0, and the type,
    read in the order the second byte announces, is 2, or is 1 with a length
    of 2040 or 2736; the stream is then 16 bytes further. *)
Theorem tag_read_accepts (w : world) :
  f_closed (fp w) = false ->
  let buff := next_bytes 16 w in
  ((exists w', EVT_TAG.read w = (w', Ok tt))
   <-> length buff = 16%nat /\ nth 0 buff x00 = x4b
       /\ exists e, tag_order buff = Some e
            /\ (u32 e buff 4 = 2
                \/ u32 e buff 4 = 1 /\ (u16 e buff 8 = 2040 \/ u16 e buff 8 = 2736)))
  /\ (forall w', EVT_TAG.read w = (w', Ok tt) ->
        f_pos (fp w') = (f_pos (fp w) + 16)%nat /\ f_bytes (fp w') = f_bytes (fp w)).
Proof.
  intros Hopen buff. rewrite tag_read_run. unfold tag_read_result. rewrite Hopen.
  cbv zeta. fold buff.
  pose proof (next_bytes_length 16 w) as Hle. fold buff in Hle.
  destruct (Nat.ltb_spec (length buff) 16) as [Hlt | Hge].
  { split; [| intros w'; discriminate].
    split; [intros [w' ?]; discriminate | intros (? & _); lia]. }
  assert (Hlen : length buff = 16%nat) by lia.
  destruct (Byte.eqb (nth 0 buff x00) x00) eqn:E0.
  { apply byte_dec_bl in E0. split; [| intros w'; discriminate].
    split; [intros [w' ?]; discriminate | intros (_ & HK & _)].
    rewrite HK in E0. discriminate. }
  destruct (Byte.eqb (nth 0 buff x00) x4b) eqn:EK; cbn [negb].
  2: { apply Byte.eqb_false in EK. split; [| intros w'; discriminate].
       split; [intros [w' ?]; discriminate | intros (_ & HK & _); contradiction]. }
  apply byte_dec_bl in EK.
  destruct (tag_order buff) as [e |] eqn:Eo.
  2: { split; [| intros w'; discriminate].
       split; [intros [w' ?]; discriminate | intros (_ & _ & e & ? & _); discriminate]. }
  assert (Hv : tag_valid e buff = true
               <-> u32 e buff 4 = 2
                   \/ u32 e buff 4 = 1 /\ (u16 e buff 8 = 2040 \/ u16 e buff 8 = 2736)).
  { unfold tag_valid.
    destruct (Z.eqb_spec (u32 e buff 4) 1) as [H1 | H1];
      destruct (Z.eqb_spec (u32 e buff 4) 2) as [H2 | H2];
      destruct (Z.eqb_spec (u16 e buff 8) 2040) as [H3 | H3];
      destruct (Z.eqb_spec (u16 e buff 8) 2736) as [H4 | H4]; cbn;
      intuition (congruence || lia). }
  destruct (tag_valid e buff).
  - split.
    + split; [intros _ | intros _; eexists; reflexivity].
      split; [exact Hlen |]. split; [exact EK |]. exists e. split; [reflexivity |].
      by apply Hv.
    + intros w' [= <-]. cbn. rewrite Hlen. split; reflexivity.
  - split; [| intros w'; discriminate].
    split; [intros [w' ?]; discriminate |].
    intros (_ & _ & e' & [= <-] & Hok). apply Hv in Hok. discriminate.
Qed.

Lemma tag_read_accepts_witness :
  let buff := next_bytes 16 (stream_world (tag_block Little 0 2 32 4)) in
  ((exists w', EVT_TAG.read (stream_world (tag_block Little 0 2 32 4)) = (w', Ok tt))
   <-> length buff = 16%nat /\ nth 0 buff x00 = x4b
       /\ exists e, tag_order buff = Some e
            /\ (u32 e buff 4 = 2
                \/ u32 e buff 4 = 1 /\ (u16 e buff 8 = 2040 \/ u16 e buff 8 = 2736)))
  /\ (forall w', EVT_TAG.read (stream_world (tag_block Little 0 2 32 4)) = (w', Ok tt) ->
        f_pos (fp w') = (f_pos (fp (stream_world (tag_block Little 0 2 32 4))) + 16)%nat
        /\ f_bytes (fp w') = f_bytes (fp (stream_world (tag_block Little 0 2 32 4)))).
Proof.
  apply (tag_read_accepts (stream_world (tag_block Little 0 2 32 4))). reflexivity.
Defined.

(** X3: a tag that [EVT_TAG.read] rejects with "Bad Tag values" has already
    been stored: the tag dictionary holds its type and length, [self.endian]
    is the order it announced, and its 16 bytes are consumed.  A block
    rejected for its sync byte leaves the dictionary and [self.endian] as
    they were. *)
Theorem tag_read_rejects_after_storing (w w' : world) :
  (EVT_TAG.read w = (w', Raise (EVTBadHeaderError "Bad Tag values")) ->
   exists e,
     tag_order (next_bytes 16 w) = Some e
     /\ ETag_endian w' = Some e
     /\ TAG w' !! "type" = Some (VInt (u32 e (next_bytes 16 w) 4))
     /\ TAG w' !! "length" = Some (VInt (u16 e (next_bytes 16 w) 8))
     /\ f_pos (fp w') = (f_pos (fp w) + 16)%nat)
  /\ (EVT_TAG.read w = (w', Raise (EVTBadHeaderError "Sync error")) ->
      TAG w' = TAG w /\ ETag_endian w' = ETag_endian w
      /\ nth 0 (next_bytes 16 w) x00 <> x4b
      /\ f_pos (fp w') = (f_pos (fp w) + 16)%nat).
Proof.
  rewrite tag_read_run. unfold tag_read_result.
  pose proof (next_bytes_length 16 w) as Hle.
  destruct (f_closed (fp w)); [split; discriminate |]. cbv zeta.
  destruct (Nat.ltb_spec (length (next_bytes 16 w)) 16) as [Hlt | Hge];
    [split; discriminate |].
  assert (Hlen : length (next_bytes 16 w) = 16%nat) by lia.
  destruct (Byte.eqb (nth 0 (next_bytes 16 w) x00) x00); [split; discriminate |].
  destruct (Byte.eqb (nth 0 (next_bytes 16 w) x00) x4b) eqn:EK; cbn [negb].
  2: { apply Byte.eqb_false in EK. split; [discriminate |].
       intros Heq. pose proof (f_equal fst Heq) as Hw. cbn [fst] in Hw. subst w'.
       cbn. rewrite Hlen. auto. }
  destruct (tag_order (next_bytes 16 w)) as [e |]; [| split; discriminate].
  split; [| destruct (tag_valid _ _); discriminate].
  intros Heq. pose proof (f_equal fst Heq) as Hw. cbn [fst] in Hw. subst w'.
  exists e. split; [reflexivity |].
  cbn [ETag_endian TAG set_ETag_endian set_TAG].
  rewrite !apply_updates_lookup. cbn. rewrite Hlen. auto.
Qed.

Lemma tag_read_rejects_after_storing_witness :
  TAG (EVT_TAG.read (stream_world bad_sync)).1 = TAG (stream_world bad_sync)
  /\ ETag_endian (EVT_TAG.read (stream_world bad_sync)).1
     = ETag_endian (stream_world bad_sync)
  /\ nth 0 (next_bytes 16 (stream_world bad_sync)) x00 <> x4b
  /\ f_pos (fp (EVT_TAG.read (stream_world bad_sync)).1)
     = (f_pos (fp (stream_world bad_sync)) + 16)%nat.
Proof.
  apply (proj2 (tag_read_rejects_after_storing (stream_world bad_sync)
                  (EVT_TAG.read (stream_world bad_sync)).1)).
  rewrite (surjective_pairing (EVT_TAG.read (stream_world bad_sync))) at 1.
  apply (f_equal (pair _)). vm_compute. reflexivity.
Defined.

(** ** The frame header reader *)

Lemma land_pow2 (c i : Z) :
  0 <= i -> Z.land c (2 ^ i) = if Z.testbit c i then 2 ^ i else 0.
Proof.
  intros Hi. apply Z.bits_inj'. intros n Hn.
  rewrite Z.land_spec, Z.pow2_bits_eqb by exact Hi.
  destruct (Z.eqb_spec i n) as [-> | Hne].
  - destruct (Z.testbit c n); [by rewrite Z.pow2_bits_true | by rewrite Z.bits_0].
  - rewrite andb_false_r.
    destruct (Z.testbit c i); [| by rewrite Z.bits_0].
    rewrite Z.pow2_bits_false; [reflexivity | exact Hne].
Qed.

Lemma land_pow2_eqb (c i : Z) :
  0 <= i -> (Z.land c (2 ^ i) =? 0) = negb (Z.testbit c i).
Proof.
  intros Hi. rewrite land_pow2 by exact Hi.
  destruct (Z.testbit c i); [| reflexivity].
  apply Z.eqb_neq. pose proof (Z.pow_pos_nonneg 2 i). lia.
Qed.

(** The number of bits set among the bits [0 .. n-1] of [c]. *)
Definition bits_set (c n : Z) : Z :=
  Z.of_nat (length (filter (fun i => Z.testbit c i = true) (seqZ 0 n))).

Lemma count_loop (c : Z) (l : list Z) (acc : Z) :
  (forall i, i ∈ l -> 0 <= i) ->
  foldl (fun chan i => if Z.land c (2 ^ i) =? 0 then chan else chan + 1) acc l
  = acc + Z.of_nat (length (filter (fun i => Z.testbit c i = true) l)).
Proof.
  revert acc. induction l as [|i l IH]; intros acc Hl; cbn [foldl].
  - cbn. lia.
  - rewrite IH by (intros; apply Hl; by right).
    rewrite land_pow2_eqb by (apply Hl; left).
    rewrite filter_cons. destruct (Z.testbit c i) eqn:E; cbn [negb].
    + rewrite decide_True by reflexivity. cbn [length]. lia.
    + rewrite decide_False by discriminate. lia.
Qed.

Lemma popcount12_bits (c : Z) : popcount12 c = bits_set c 12.
Proof.
  unfold popcount12, bits_set. rewrite count_loop; [lia |].
  intros i Hi%elem_of_seqZ. lia.
Qed.

Lemma bits_set_bound (c n : Z) : 0 <= n -> 0 <= bits_set c n <= n.
Proof.
  intros Hn. unfold bits_set.
  pose proof (length_filter (fun i => Z.testbit c i = true) (seqZ 0 n)) as H.
  rewrite length_seqZ in H. lia.
Qed.

Lemma filter_testbit_ext (c d : Z) (l : list Z) :
  (forall i, i ∈ l -> Z.testbit c i = Z.testbit d i) ->
  filter (fun i => Z.testbit c i = true) l = filter (fun i => Z.testbit d i = true) l.
Proof.
  induction l as [|i l IH]; intros H; [reflexivity |].
  rewrite !filter_cons, (H i) by left.
  rewrite IH by (intros; apply H; by right). reflexivity.
Qed.

Lemma bits_set_low (c n : Z) : 0 <= n -> bits_set (Z.land c (Z.ones n)) n = bits_set c n.
Proof.
  intros Hn. unfold bits_set. do 2 f_equal.
  apply filter_testbit_ext. intros i Hi%elem_of_seqZ.
  rewrite Z.land_spec, Z.ones_spec_low by lia. by rewrite andb_true_r.
Qed.

(** X4: [EVT_FRAME_HEADER.channels] counts the bits set among the twelve low
    bits of the channel bitmap, so it returns between 0 and 12 and ignores
    the four high bits of the 16-bit field; for a frame of type 4 it raises
    [NotImplementedError] instead. *)
Theorem channels_counts_low_bits (w : world) (frametype channelbitmap : Z) :
  FRM w !! "frametype" = Some (VInt frametype) ->
  FRM w !! "channelbitmap" = Some (VInt channelbitmap) ->
  EVT_FRAME_HEADER.channels w
  = (w, if frametype =? 4 then Raise (NotImplementedError "16 Channels not implemented")
        else Ok (bits_set channelbitmap 12))
  /\ 0 <= bits_set channelbitmap 12 <= 12
  /\ bits_set (Z.land channelbitmap 4095) 12 = bits_set channelbitmap 12.
Proof.
  intros Hft Hbm. split; [| split; [apply bits_set_bound; lia | apply (bits_set_low _ 12); lia]].
  unfold EVT_FRAME_HEADER.channels, attr_int, attr, getattr.
  rewrite !bind_unfold, Hft. cbn [value_is]. destruct (frametype =? 4); [reflexivity |].
  rewrite !bind_unfold, Hbm. unfold lift, as_int, ret.
  f_equal. f_equal. apply popcount12_bits.
Qed.

Lemma channels_counts_low_bits_witness :
  EVT_FRAME_HEADER.channels
    (set_FRM {[ "frametype" := VInt 3; "channelbitmap" := VInt 61445 ]} (stream_world []))
  = (set_FRM {[ "frametype" := VInt 3; "channelbitmap" := VInt 61445 ]} (stream_world []),
     if 3 =? 4 then Raise (NotImplementedError "16 Channels not implemented")
     else Ok (bits_set 61445 12))
  /\ 0 <= bits_set 61445 12 <= 12
  /\ bits_set (Z.land 61445 4095) 12 = bits_set 61445 12.
Proof.
  apply (channels_counts_low_bits
           (set_FRM {[ "frametype" := VInt 3; "channelbitmap" := VInt 61445 ]}
              (stream_world [])) 3 61445).
  - reflexivity.
  - reflexivity.
Defined.

Lemma clamp_width_range (framestatus : Z) :
  clamp_width framestatus = 2 \/ clamp_width framestatus = 3
  \/ clamp_width framestatus = 4.
Proof.
  unfold clamp_width. cbv zeta.
  destruct (Z.eqb_spec (Z.shiftr framestatus 6 + 1) 2); [cbn; lia |].
  destruct (Z.eqb_spec (Z.shiftr framestatus 6 + 1) 3); [cbn; lia |].
  destruct (Z.eqb_spec (Z.shiftr framestatus 6 + 1) 4); cbn; lia.
Qed.

Lemma land_4095_range (z : Z) : 0 <= Z.land z 4095 <= 4095.
Proof.
  change 4095 with (Z.ones 12). rewrite Z.land_ones by lia.
  pose proof (Z.mod_pos_bound z (2 ^ 12)). change (Z.ones 12) with (2 ^ 12 - 1). lia.
Qed.

(** X5: on an open stream, [EVT_FRAME_HEADER.read] with length 32 returns
    normally exactly when 32 bytes are left and the frame type is 3 or 5.
    It then returns the 12 low bits of the stream parameters, the sample
    width, the block time paired with the millisecond field, and the number
    of active channels, and these satisfy the geometry the data block reader
    relies on: a rate of at most 4095, a width of 2, 3 or 4 and at most 12
    channels. *)
Theorem frame_read_accepts (w : world) (e : endian) :
  f_closed (fp w) = false ->
  let buff := read_bytes 32 w in
  ((exists w' r, EVT_FRAME_HEADER.read 32 e w = (w', Ok r))
   <-> length buff = 32%nat /\ (u8 buff 0 = 3 \/ u8 buff 0 = 5))
  /\ (forall w' rate numbyte blocktime numchan,
        EVT_FRAME_HEADER.read 32 e w = (w', Ok (rate, numbyte, blocktime, numchan)) ->
        rate = Z.land (u16 e buff 12) 4095
        /\ blocktime = VTime (u32 e buff 6) (u16 e buff 16)
        /\ numchan = bits_set (u16 e buff 10) 12
        /\ frame_geometry rate numbyte numchan).
Proof.
  intros Hopen buff. rewrite frame_read_run. unfold frame_read_result.
  rewrite Hopen. cbv zeta. fold buff. cbn [Z.eqb Pos.eqb].
  destruct (Nat.eqb_spec (length buff) 32) as [Hlen | Hlen].
  2: { split; [| intros; discriminate].
       split; [intros (w' & r & ?); discriminate | intros [? _]; contradiction]. }
  unfold frame_result. cbv zeta.
  assert (Hok : forall w0 : world,
             (exists (w' : world) (r : Z * Z * value * Z),
                 (w0, Ok (Z.land (u16 e buff 12) 4095, clamp_width (u8 buff 14),
                          VTime (u32 e buff 6) (u16 e buff 16),
                          popcount12 (u16 e buff 10))) = (w', Ok r))) by eauto.
  destruct (Z.eqb_spec (u8 buff 0) 3) as [H3 | H3];
    destruct (Z.eqb_spec (u8 buff 0) 4) as [H4 | H4];
    destruct (Z.eqb_spec (u8 buff 0) 5) as [H5 | H5]; cbn [orb];
    try (exfalso; lia).
  2, 4: split; [| intros; discriminate];
    (split; [intros (w' & r & ?); discriminate | intros [_ [? | ?]]; lia]).
  all: split; [split; [intros _; split; [exact Hlen | lia] | intros _; apply Hok] |].
  all: intros w' rate numbyte blocktime numchan Heq;
    pose proof (f_equal snd Heq) as Ho; cbn [snd] in Ho;
    injection Ho as <- <- <- <-;
    rewrite popcount12_bits;
    split; [reflexivity |]; split; [reflexivity |]; split; [reflexivity |];
    split; [apply land_4095_range |];
    split; [apply clamp_width_range | apply bits_set_bound; lia].
Qed.

Lemma frame_read_accepts_witness :
  let buff := read_bytes 32 (stream_world (frame_block Big 3 4095 100 192)) in
  ((exists w' r,
       EVT_FRAME_HEADER.read 32 Big (stream_world (frame_block Big 3 4095 100 192))
       = (w', Ok r))
   <-> length buff = 32%nat /\ (u8 buff 0 = 3 \/ u8 buff 0 = 5))
  /\ (forall w' rate numbyte blocktime numchan,
        EVT_FRAME_HEADER.read 32 Big (stream_world (frame_block Big 3 4095 100 192))
        = (w', Ok (rate, numbyte, blocktime, numchan)) ->
        rate = Z.land (u16 Big buff 12) 4095
        /\ blocktime = VTime (u32 Big buff 6) (u16 Big buff 16)
        /\ numchan = bits_set (u16 Big buff 10) 12
        /\ frame_geometry rate numbyte numchan).
Proof.
  apply (frame_read_accepts (stream_world (frame_block Big 3 4095 100 192)) Big).
  reflexivity.
Defined.

(** X6: how [EVT_FRAME_HEADER.read] fails on an open stream.  A length
    other than 32 raises [TypeError] (the message is a string plus an
    integer) and the frame is not counted.  With length 32 the frame is
    counted whatever happens next: fewer than 32 bytes left raise
    [struct.error], never [EVTEOFError]; a type outside 3, 4, 5 raises "Bad
    Frame values"; type 4 raises [NotImplementedError]. *)
Theorem frame_read_failures (w : world) (length : Z) (e : endian) :
  f_closed (fp w) = false ->
  let r := EVT_FRAME_HEADER.read length e w in
  let buff := read_bytes 32 w in
  (length <> 32 -> r.2 = Raise TypeError /\ numframe r.1 = numframe w /\ FRM r.1 = FRM w)
  /\ (length = 32 ->
      numframe r.1 = numframe w + 1
      /\ r.2 <> Raise EVTEOFError
      /\ (List.length buff <> 32%nat -> r.2 = Raise StructError /\ FRM r.1 = FRM w)
      /\ (List.length buff = 32%nat -> u8 buff 0 = 4 ->
          r.2 = Raise (NotImplementedError "16 Channels not implemented"))
      /\ (List.length buff = 32%nat ->
          u8 buff 0 <> 3 -> u8 buff 0 <> 4 -> u8 buff 0 <> 5 ->
          r.2 = Raise (EVTBadHeaderError "Bad Frame values"))).
Proof.
  intros Hopen r buff. unfold r. rewrite frame_read_run. unfold frame_read_result.
  rewrite Hopen. cbv zeta. split.
  - intros Hne. rewrite (proj2 (Z.eqb_neq _ _) Hne). cbn. auto.
  - intros ->. cbn [Z.eqb Pos.eqb]. fold buff.
    destruct (Nat.eqb_spec (List.length buff) 32) as [Hlen | Hlen].
    + cbn [fst snd numframe set_FRM set_numframe].
      split; [reflexivity |]. unfold frame_result. cbv zeta.
      destruct (Z.eqb_spec (u8 buff 0) 3) as [H3 | H3];
        destruct (Z.eqb_spec (u8 buff 0) 4) as [H4 | H4];
        destruct (Z.eqb_spec (u8 buff 0) 5) as [H5 | H5]; cbn [orb];
        (split; [discriminate |]); (split; [intros; contradiction |]);
        split; intros; (reflexivity || lia).
    + cbn. split; [reflexivity |]. split; [discriminate |].
      split; [auto |]. split; intros; contradiction.
Qed.

Lemma frame_read_failures_witness :
  let r := EVT_FRAME_HEADER.read 32 Big (stream_world (zeros 10)) in
  let buff := read_bytes 32 (stream_world (zeros 10)) in
  (32 <> 32 -> r.2 = Raise TypeError
               /\ numframe r.1 = numframe (stream_world (zeros 10))
               /\ FRM r.1 = FRM (stream_world (zeros 10)))
  /\ (32 = 32 ->
      numframe r.1 = numframe (stream_world (zeros 10)) + 1
      /\ r.2 <> Raise EVTEOFError
      /\ (List.length buff <> 32%nat ->
          r.2 = Raise StructError /\ FRM r.1 = FRM (stream_world (zeros 10)))
      /\ (List.length buff = 32%nat -> u8 buff 0 = 4 ->
          r.2 = Raise (NotImplementedError "16 Channels not implemented"))
      /\ (List.length buff = 32%nat ->
          u8 buff 0 <> 3 -> u8 buff 0 <> 4 -> u8 buff 0 <> 5 ->
          r.2 = Raise (EVTBadHeaderError "Bad Frame values"))).
Proof.
  apply (frame_read_failures (stream_world (zeros 10)) 32 Big). reflexivity.
Defined.

(** ** The shape of a decoded block *)

Lemma ofold_invariant {A B} (P : B -> Prop) (l : list A) (body : A -> B -> outcome B)
    (acc r : B) :
  (forall x a b, P a -> body x a = Ok b -> P b) ->
  P acc -> ofold l body acc = Ok r -> P r.
Proof.
  intros Hb. revert acc. induction l as [|x l IH]; intros acc Hacc; cbn.
  - by intros [= <-].
  - destruct (body x acc) as [b | err] eqn:E; cbn; [| discriminate].
    apply IH. eapply Hb; eassumption.
Qed.

Lemma unpack_block_length (samplerate numbyte numchan : Z) (buff : list byte)
    (datal : list (list Z)) :
  EVT_DATA.unpack_block samplerate numbyte numchan buff = Ok datal ->
  length datal = Z.to_nat numchan.
Proof.
  unfold EVT_DATA.unpack_block.
  apply (ofold_invariant (fun d => length d = Z.to_nat numchan)).
  - intros j a b Ha. apply (ofold_invariant (fun d => length d = Z.to_nat numchan)); [| exact Ha].
    intros k a' b' Ha'. destruct (EVT_DATA.sample_val _ _ _); cbn; [| discriminate].
    intros [= <-]. by rewrite length_alter.
  - apply length_replicate.
Qed.

Lemma data_read_length (length : Z) (e : endian) (rate numbyte : Z) (blocktime : value)
    (numchan : Z) (w w' : world) (datal : list (list Z)) :
  EVT_DATA.read length e (rate, numbyte, blocktime, numchan) w = (w', Ok datal) ->
  List.length datal = Z.to_nat numchan.
Proof.
  rewrite data_read_run. unfold data_read_result.
  destruct (f_closed (fp w)); [discriminate |]. cbv zeta.
  destruct (negb _); [discriminate |].
  intros Heq. pose proof (f_equal snd Heq) as Ho. cbn [snd] in Ho.
  eapply unpack_block_length, Ho.
Qed.

Lemma hstack_ok (data : list (list sample)) (datal : list (list Z))
    (d : list (list sample)) :
  EVT.hstack data datal = Ok d ->
  length datal <> 0%nat /\ length data = length datal /\ length d = length data
  /\ d = zip_with (fun row new => row ++ map Count new) data datal.
Proof.
  unfold EVT.hstack.
  destruct (Nat.eqb_spec (length datal) 0); [discriminate |].
  destruct (Nat.eqb_spec (length data) (length datal)) as [Heq | Hne]; cbn [negb];
    [| discriminate].
  intros [= <-]. rewrite length_zip_with. repeat split; auto; lia.
Qed.

(** Every row has [k] entries. *)
Definition rectangular {A} (k : nat) (rows : list (list A)) : Prop :=
  Forall (fun row => length row = k) rows.

Lemma ofold_ok_each {A B} (P : A -> Prop) (l : list A) (body : A -> B -> outcome B)
    (acc r : B) :
  (forall x a b, body x a = Ok b -> P x) ->
  ofold l body acc = Ok r -> forall x, x ∈ l -> P x.
Proof.
  intros Hb. revert acc. induction l as [|x l IH]; intros acc; cbn.
  - intros _ y Hy. by apply not_elem_of_nil in Hy.
  - destruct (body x acc) as [b | err] eqn:E; cbn; [| discriminate].
    intros Hr y [-> | Hy]%elem_of_cons; [eapply Hb, E | eapply IH; eassumption].
Qed.

(** When a block is unpacked, every sample of it was. *)
Lemma unpack_block_all_ok (samplerate numbyte numchan : Z) (buff : list byte)
    (datal : list (list Z)) :
  0 <= numchan ->
  EVT_DATA.unpack_block samplerate numbyte numchan buff = Ok datal ->
  forall i, 0 <= i < samplerate / 10 * numchan ->
    exists v, EVT_DATA.sample_val numbyte buff i = Ok v.
Proof.
  unfold EVT_DATA.unpack_block. intros Hnc0 H i Hi.
  assert (Hnc : 0 < numchan)
    by (destruct (Z.eq_dec numchan 0) as [-> |]; [rewrite Z.mul_0_r in Hi; lia | lia]).
  assert (Hj : i / numchan ∈ seqZ 0 (samplerate / 10)).
  { apply elem_of_seqZ. split; [apply Z.div_pos; lia |].
    rewrite Z.add_0_l. apply Z.div_lt_upper_bound; [lia |].
    rewrite Z.mul_comm. lia. }
  assert (Hk : i mod numchan ∈ seqZ 0 numchan).
  { apply elem_of_seqZ. pose proof (Z.mod_pos_bound i numchan Hnc). lia. }
  assert (Hinner : forall j (a b : list (list Z)),
             ofold (seqZ 0 numchan)
               (fun k data =>
                  let+ val := EVT_DATA.sample_val numbyte buff (j * numchan + k) in
                  Ok (alter (fun row => row ++ [val]) (Z.to_nat k) data)) a = Ok b ->
             forall k, k ∈ seqZ 0 numchan ->
               exists v, EVT_DATA.sample_val numbyte buff (j * numchan + k) = Ok v).
  { intros j a b. apply ofold_ok_each. intros k a' b'.
    destruct (EVT_DATA.sample_val numbyte buff (j * numchan + k)); [eauto | discriminate]. }
  pose proof (ofold_ok_each
                (fun j => forall k, k ∈ seqZ 0 numchan ->
                   exists v, EVT_DATA.sample_val numbyte buff (j * numchan + k) = Ok v)
                _ _ _ _ Hinner H _ Hj _ Hk) as Hv.
  cbv beta in Hv.
  replace (i / numchan * numchan + i mod numchan) with i in Hv; [exact Hv |].
  pose proof (Z.div_mod i numchan). lia.
Qed.

Lemma unpack_block_shape (samplerate numbyte numchan : Z) (buff : list byte)
    (datal : list (list Z)) :
  EVT_DATA.unpack_block samplerate numbyte numchan buff = Ok datal ->
  datal = block_of (fun i => match EVT_DATA.sample_val numbyte buff i with
                             | Ok v => v
                             | Raise _ => 0
                             end) (samplerate / 10) numchan.
Proof.
  intros H. destruct (Z_lt_le_dec numchan 0) as [Hneg | Hpos].
  - revert H. unfold EVT_DATA.unpack_block, block_of.
    rewrite (seqZ_nil 0 numchan) by lia. rewrite Z2Nat.nonpos by lia. cbn [replicate fmap list_fmap].
    intros H. apply (ofold_invariant (fun d => d = [])) in H; [exact H | | reflexivity].
    intros j a b -> [= <-]. reflexivity.
  - pose proof (unpack_block_all_ok _ _ _ _ _ Hpos H) as Hall.
    rewrite (unpack_block_ok numbyte buff
               (fun i => match EVT_DATA.sample_val numbyte buff i with
                         | Ok v => v
                         | Raise _ => 0
                         end)) in H.
    + by injection H.
    + intros i Hi. destruct (Hall i Hi) as [v Hv]. by rewrite Hv.
Qed.

Lemma block_of_rectangular (f : Z -> Z) (n nc : Z) :
  rectangular (Z.to_nat n) (block_of f n nc).
Proof.
  unfold rectangular, block_of. apply Forall_fmap, Forall_forall. intros k _. cbn.
  by rewrite length_fmap, length_seqZ.
Qed.

Lemma data_read_rectangular (length : Z) (e : endian) (rate numbyte : Z) (blocktime : value)
    (numchan : Z) (w w' : world) (datal : list (list Z)) :
  EVT_DATA.read length e (rate, numbyte, blocktime, numchan) w = (w', Ok datal) ->
  rectangular (Z.to_nat (rate / 10)) datal.
Proof.
  rewrite data_read_run. unfold data_read_result.
  destruct (f_closed (fp w)); [discriminate |]. cbv zeta.
  destruct (negb _); [discriminate |].
  intros Heq. pose proof (f_equal snd Heq) as Ho. cbn [snd] in Ho.
  apply unpack_block_shape in Ho. subst datal. apply block_of_rectangular.
Qed.

Lemma hstack_rectangular (L k : nat) (data : list (list sample)) (datal : list (list Z))
    (d : list (list sample)) :
  rectangular L data -> rectangular k datal -> EVT.hstack data datal = Ok d ->
  rectangular (L + k) d.
Proof.
  intros Hd Hl Hh. apply hstack_ok in Hh as (_ & _ & _ & ->).
  revert datal Hl. induction Hd as [|row data Hrow Hd IH]; intros datal Hl; [constructor |].
  destruct Hl as [|new datal Hnew Hl]; [constructor |].
  cbn. constructor; [| by apply IH].
  by rewrite length_app, length_map, Hrow, Hnew.
Qed.

(** ** Hoare triples for the decoder's monad *)

(** [triple P m Q X]: from a state satisfying [P], [m] either returns [a] in
    a state satisfying [Q a] or raises [e] in a state satisfying [X e]. *)
Definition triple {A} (P : world -> Prop) (m : M world A)
    (Q : A -> world -> Prop) (X : exn -> world -> Prop) : Prop :=
  forall w, P w ->
    match m w with
    | (w', Ok a) => Q a w'
    | (w', Raise e) => X e w'
    end.

Lemma triple_weaken {A} (P P' : world -> Prop) (m : M world A)
    (Q Q' : A -> world -> Prop) (X X' : exn -> world -> Prop) :
  triple P' m Q' X' ->
  (forall w, P w -> P' w) ->
  (forall a w, Q' a w -> Q a w) ->
  (forall e w, X' e w -> X e w) ->
  triple P m Q X.
Proof.
  intros Hm HP HQ HX w Hw. specialize (Hm w (HP w Hw)).
  destruct (m w) as [w' [a | e]]; auto.
Qed.

Lemma triple_bind {A B} (P : world -> Prop) (R : A -> world -> Prop) (m : M world A)
    (f : A -> M world B) (Q : B -> world -> Prop) (X : exn -> world -> Prop) :
  triple P m R X -> (forall a, triple (R a) (f a) Q X) -> triple P (bind m f) Q X.
Proof.
  intros Hm Hf w Hw. rewrite bind_unfold. specialize (Hm w Hw).
  destruct (m w) as [w' [a | e]]; [by apply Hf | exact Hm].
Qed.

Lemma triple_ret {A} (P : world -> Prop) (a : A) (Q : A -> world -> Prop)
    (X : exn -> world -> Prop) :
  (forall w, P w -> Q a w) -> triple P (ret a) Q X.
Proof. intros H w Hw. by apply H. Qed.

Lemma triple_raise {A} (P : world -> Prop) (e : exn) (Q : A -> world -> Prop)
    (X : exn -> world -> Prop) :
  (forall w, P w -> X e w) -> triple P (raise e) Q X.
Proof. intros H w Hw. by apply H. Qed.

Lemma triple_lift {A} (P : world -> Prop) (o : outcome A) (Q : A -> world -> Prop)
    (X : exn -> world -> Prop) :
  (forall w, P w -> match o with Ok a => Q a w | Raise e => X e w end) ->
  triple P (lift o) Q X.
Proof. intros H w Hw. specialize (H w Hw). unfold lift. by destruct o. Qed.

Lemma triple_gets {A} (P : world -> Prop) (f : world -> A) (Q : A -> world -> Prop)
    (X : exn -> world -> Prop) :
  (forall w, P w -> Q (f w) w) -> triple P (gets f) Q X.
Proof. intros H w Hw. by apply H. Qed.

Lemma triple_modify (P : world -> Prop) (f : world -> world) (Q : unit -> world -> Prop)
    (X : exn -> world -> Prop) :
  (forall w, P w -> Q tt (f w)) -> triple P (modify f) Q X.
Proof. intros H w Hw. by apply H. Qed.

Lemma triple_catch_eof {A} (P R : world -> Prop) (m h : M world A)
    (Q : A -> world -> Prop) (X : exn -> world -> Prop) :
  triple P m Q (fun e w => match e with EVTEOFError => R w | _ => X e w end) ->
  triple R h Q X ->
  triple P (catch_eof m h) Q X.
Proof.
  intros Hm Hh w Hw. unfold catch_eof. specialize (Hm w Hw).
  destruct (m w) as [w' [a | []]]; auto. by apply Hh.
Qed.

Lemma triple_attr (P : world -> Prop) (store : world -> gmap string value) (key : string)
    (Q : value -> world -> Prop) (X : exn -> world -> Prop) :
  (forall w, P w -> match store w !! key with
                    | Some v => Q v w
                    | None => X IndexError w
                    end) ->
  triple P (attr store key) Q X.
Proof.
  intros H w Hw. specialize (H w Hw). unfold attr, getattr.
  by destruct (store w !! key).
Qed.

Lemma triple_attr_int (P : world -> Prop) (store : world -> gmap string value)
    (key : string) (Q : Z -> world -> Prop) (X : exn -> world -> Prop) :
  (forall w, P w -> match store w !! key with
                    | Some (VInt z) => Q z w
                    | Some _ => X TypeError w
                    | None => X IndexError w
                    end) ->
  triple P (attr_int store key) Q X.
Proof.
  intros H w Hw. specialize (H w Hw). unfold attr_int, bind, attr, getattr, lift, as_int.
  destruct (store w !! key) as [[] |]; exact H.
Qed.

(** ** What the loop body may raise, and what it may write *)

(** The exceptions that come out of the block readers and of a turn of the
    loop. *)
Definition block_error (err : exn) : bool :=
  match err with
  | EVTEOFError | EVTBadHeaderError _ | NotImplementedError _ | TypeError | StructError
  | ValueError | IndexError | UnboundLocalError => true
  | EVTBadDataError msg => String.eqb msg "Bad data length"
  | ZeroDivisionError | IOError | OutOfFuel => false
  end.

(** A property of the state that the writes of the loop body keep: the
    reads from an open stream, the tag and frame dictionaries and byte
    orders, the count of a frame, the first sampling rate, and the samples
    of a block appended. *)
Record stable (I : world -> Prop) : Prop := mkstable {
  stable_read : forall w n, I w -> f_closed (fp w) = false -> I (advance n w);
  stable_TAG : forall w m, I w -> I (set_TAG m w);
  stable_ETag_endian : forall w e, I w -> I (set_ETag_endian e w);
  stable_FRM : forall w m, I w -> I (set_FRM m w);
  stable_EFrame_endian : forall w e, I w -> I (set_EFrame_endian e w);
  stable_numframe : forall w, I w -> I (set_numframe (numframe w + 1) w);
  stable_samplingrate :
    forall w rate, I w -> samplingrate w = 0 -> I (set_samplingrate rate w);
  stable_data :
    forall w datal d k,
      I w -> rectangular k datal -> EVT.hstack (data w) datal = Ok d -> I (set_data d w)
}.

(** A reader keeps [I], and raises only block errors. *)
Definition keeps (I : world -> Prop) {A} (m : M world A) : Prop :=
  triple I m (fun _ w => I w) (fun e w => I w /\ block_error e = true).

Lemma keeps_bind (I : world -> Prop) {A B} (m : M world A) (f : A -> M world B) :
  keeps I m -> (forall a, keeps I (f a)) -> keeps I (bind m f).
Proof. intros Hm Hf. eapply triple_bind; [exact Hm | exact Hf]. Qed.

Lemma tag_read_keeps (I : world -> Prop) : stable I -> keeps I EVT_TAG.read.
Proof.
  intros HI w Hw. rewrite tag_read_run. unfold tag_read_result.
  destruct (f_closed (fp w)) eqn:Hopen; [by split |]. cbv zeta.
  pose proof (stable_read I HI w (length (next_bytes 16 w)) Hw Hopen) as H1.
  destruct (_ <? _)%nat; [by split |].
  destruct (Byte.eqb _ x00); [by split |].
  destruct (negb _); [by split |].
  destruct (tag_order _) as [e |]; [| by split].
  assert (H2 : I (set_ETag_endian (Some e)
                    (set_TAG (apply_updates (TAG w) (tag_fields e (next_bytes 16 w)))
                       (advance (length (next_bytes 16 w)) w)))).
  { apply (stable_ETag_endian I HI). apply (stable_TAG I HI). exact H1. }
  destruct (tag_valid _ _); [exact H2 | by split].
Qed.

Lemma frame_result_errors (e : endian) (buff : list byte) (err : exn) :
  frame_result e buff = Raise err -> block_error err = true /\ err <> EVTEOFError.
Proof.
  unfold frame_result. cbv zeta. repeat case_match; intros [= <-]; by split.
Qed.

Lemma frame_read_keeps (I : world -> Prop) (length : Z) (e : endian) :
  stable I ->
  triple I (EVT_FRAME_HEADER.read length e) (fun _ w => I w)
    (fun err w => I w /\ block_error err = true /\ err <> EVTEOFError).
Proof.
  intros HI w Hw. rewrite frame_read_run. unfold frame_read_result.
  destruct (f_closed (fp w)) eqn:Hopen; [by repeat split |]. cbv zeta.
  pose proof (stable_read I HI w (List.length (read_bytes length w)) Hw Hopen) as H1.
  apply (stable_EFrame_endian I HI _ (Some e)) in H1.
  destruct (length =? 32); [| by repeat split].
  pose proof (stable_numframe I HI _ H1) as H2.
  change (numframe (set_EFrame_endian _ _)) with (numframe w) in H2.
  destruct (_ =? _)%nat; [| by repeat split].
  pose proof (stable_FRM I HI _ (apply_updates (FRM w)
                                   (frame_fields e (read_bytes 32 w))) H2) as H3.
  pose proof (frame_result_errors e (read_bytes length w)) as He.
  destruct (frame_result e (read_bytes length w)) as [r | err].
  - exact (stable_FRM I HI _ _ H2).
  - split; [exact (stable_FRM I HI _ _ H2) | by apply He].
Qed.

Lemma unpack_block_errors (samplerate numbyte numchan : Z) (buff : list byte) (err : exn) :
  EVT_DATA.unpack_block samplerate numbyte numchan buff = Raise err ->
  err = StructError \/ err = UnboundLocalError.
Proof.
  unfold EVT_DATA.unpack_block. intros H.
  apply (ofold_errors (fun err => err = StructError \/ err = UnboundLocalError)) in H;
    [exact H |].
  intros j dat err' H'.
  apply (ofold_errors (fun err => err = StructError \/ err = UnboundLocalError)) in H';
    [exact H' |].
  intros k dat' err'' H''.
  destruct (EVT_DATA.sample_val numbyte _ _) eqn:Es in H''; cbn in H''; [discriminate |].
  injection H'' as <-. eapply sample_val_errors, Es.
Qed.

Lemma data_read_keeps (I : world -> Prop) (length : Z) (e : endian)
    (param : Z * Z * value * Z) :
  stable I ->
  triple I (EVT_DATA.read length e param)
    (fun datal w => I w /\ exists k, rectangular k datal)
    (fun err w => I w /\ block_error err = true /\ err <> EVTEOFError).
Proof.
  intros HI w Hw. destruct param as [[[sr nb] bt] nc].
  pose proof (data_read_rectangular length e sr nb bt nc w) as Hrect.
  revert Hrect. rewrite data_read_run. unfold data_read_result.
  destruct (f_closed (fp w)) eqn:Hopen; [by repeat split |]. cbv zeta.
  pose proof (stable_read I HI w (List.length (read_bytes length w)) Hw Hopen) as H1.
  destruct (negb _); [by repeat split |].
  pose proof (unpack_block_errors sr nb nc (read_bytes length w)) as He.
  destruct (EVT_DATA.unpack_block _ _ _ _) as [d | err].
  - intros Hrect. split; [exact H1 | eauto].
  - intros _. split; [exact H1 |]. destruct (He err eq_refl) as [-> | ->]; by split.
Qed.

Lemma attr_int_keeps (P : world -> Prop) (X : exn -> world -> Prop)
    (store : world -> gmap string value) (key : string) :
  (forall w, P w -> X TypeError w /\ X IndexError w) ->
  triple P (attr_int store key) (fun z w => P w /\ store w !! key = Some (VInt z)) X.
Proof.
  intros HX. apply triple_attr_int. intros w Hw. destruct (HX w Hw).
  destruct (store w !! key) as [[] |]; auto.
Qed.

(** One turn of the loop, after the tag is read. *)
Definition block_body (endian : endian) : M world bool :=
  let* length := attr_int TAG "length" in
  let* retparam := EVT_FRAME_HEADER.read length endian in
  let '(rate, _, _, _) := retparam in
  let* self_samplingrate := gets samplingrate in
  let* _ :=
    (if self_samplingrate =? 0 then modify (set_samplingrate rate)
     else if negb (self_samplingrate =? rate)
          then raise (EVTBadHeaderError "Sampling rate not constant")
          else ret tt) in
  let* datalength := attr_int TAG "datalength" in
  let* datal := EVT_DATA.read datalength endian retparam in
  let* self_data := gets data in
  let* d := lift (EVT.hstack self_data datal) in
  let* _ := modify (set_data d) in
  ret true.

Lemma read_block_unfold (e : endian) :
  EVT.read_block e = catch_eof (let* _ := EVT_TAG.read in block_body e) (ret false).
Proof. reflexivity. Qed.

(** After the tag, a turn never raises [EVTEOFError]: the loop ends only
    at a tag. *)
Lemma block_body_keeps (I : world -> Prop) (e : endian) :
  stable I ->
  triple I (block_body e) (fun b w => I w /\ b = true)
    (fun err w => I w /\ block_error err = true /\ err <> EVTEOFError).
Proof.
  intros HI. unfold block_body.
  eapply triple_bind.
  { apply (attr_int_keeps I). intros w Hw. by repeat split. }
  intros len. cbv beta.
  eapply triple_bind.
  { eapply triple_weaken; [apply (frame_read_keeps I len e HI) | | |]; cbv beta.
    - intros w [Hw _]. exact Hw.
    - intros a w Hw. exact Hw.
    - intros err w Hw. exact Hw. }
  intros [[[rate nb] bt] nc]. cbv beta.
  eapply (triple_bind _ (fun sr w => I w /\ samplingrate w = sr)).
  { apply triple_gets. intros w Hw. exact (conj Hw (eq_refl (samplingrate w))). }
  intros sr. cbv beta.
  eapply (triple_bind _ (fun _ w => I w)).
  { destruct (Z.eqb_spec sr 0) as [-> | Hne].
    - apply triple_modify. intros w [Hw Hsr]. by apply (stable_samplingrate I HI).
    - destruct (negb _).
      + apply triple_raise. intros w [Hw _]. by repeat split.
      + apply triple_ret. intros w [Hw _]. exact Hw. }
  intros _.
  eapply triple_bind.
  { apply (attr_int_keeps I). intros w Hw. by repeat split. }
  intros dl. cbv beta.
  eapply triple_bind.
  { eapply triple_weaken; [apply (data_read_keeps I dl e (rate, nb, bt, nc) HI) | | |];
      cbv beta.
    - intros w [Hw _]. exact Hw.
    - intros a w Hw. exact Hw.
    - intros err w Hw. exact Hw. }
  intros datal. cbv beta.
  eapply (triple_bind _ (fun sd w => (I w /\ exists k, rectangular k datal) /\ data w = sd)).
  { apply triple_gets. intros w Hw. exact (conj Hw (eq_refl (data w))). }
  intros sd. cbv beta.
  eapply (triple_bind _ (fun d w => I w /\ (exists k, rectangular k datal)
                                    /\ EVT.hstack (data w) datal = Ok d)).
  { apply triple_lift. intros w [[Hw Hk] <-].
    pose proof (hstack_errors (data w) datal) as Hh.
    destruct (EVT.hstack (data w) datal) as [d | err]; [by repeat split |].
    rewrite (Hh err eq_refl). by repeat split. }
  intros d.
  eapply (triple_bind _ (fun _ w => I w)).
  { apply triple_modify. intros w (Hw & [k Hk] & Hd).
    by apply (stable_data I HI w datal d k). }
  intros _. apply triple_ret. intros w Hw. by split.
Qed.

Lemma read_block_keeps (I : world -> Prop) (e : endian) :
  stable I -> keeps I (EVT.read_block e).
Proof.
  intros HI. rewrite read_block_unfold. unfold keeps.
  apply (triple_catch_eof _ I).
  - eapply triple_bind.
    + eapply triple_weaken; [apply (tag_read_keeps I HI) | | |]; cbv beta.
      * auto.
      * intros a w Hw. exact Hw.
      * intros err w [Hw He]. destruct err; auto.
    + intros u. eapply triple_weaken; [apply (block_body_keeps I e HI) | | |]; cbv beta.
      * auto.
      * intros a w [Hw _]. exact Hw.
      * intros err w (Hw & He & Hn). destruct err; auto.
  - apply triple_ret. auto.
Qed.

Lemma read_blocks_keeps (I : world -> Prop) (e : endian) (fuel : nat) :
  stable I ->
  triple I (EVT.read_blocks fuel e) (fun _ w => I w)
    (fun err w => I w /\ (block_error err = true \/ err = OutOfFuel)).
Proof.
  intros HI. induction fuel as [|fuel IH]; cbn [EVT.read_blocks].
  - apply triple_raise. auto.
  - eapply triple_bind.
    + eapply triple_weaken; [apply (read_block_keeps I e HI) | | |]; cbv beta; auto.
      * intros a w Hw. exact Hw.
      * intros err w [Hw He]. auto.
    + intros []; [exact IH | apply triple_ret; auto].
Qed.

(** ** The block loop ends *)

(** The bytes of the stream not yet read. *)
Definition remaining (w : world) : nat := (length (f_bytes (fp w)) - f_pos (fp w))%nat.

Lemma stable_position (bs : list byte) (p : nat) :
  stable (fun w => f_bytes (fp w) = bs /\ (p <= f_pos (fp w))%nat).
Proof. constructor; intros; cbn in *; intuition lia. Qed.

Lemma stable_True : stable (fun _ => True).
Proof. by constructor. Qed.

Lemma tag_read_ok_position (w w' : world) :
  EVT_TAG.read w = (w', Ok tt) ->
  length (next_bytes 16 w) = 16%nat
  /\ f_pos (fp w') = (f_pos (fp w) + 16)%nat
  /\ f_bytes (fp w') = f_bytes (fp w).
Proof.
  rewrite tag_read_run. unfold tag_read_result.
  pose proof (next_bytes_length 16 w) as Hle.
  destruct (f_closed (fp w)); [discriminate |]. cbv zeta.
  destruct (Nat.ltb_spec (length (next_bytes 16 w)) 16) as [Hlt | Hge]; [discriminate |].
  assert (Hlen : length (next_bytes 16 w) = 16%nat) by lia.
  repeat case_match; intros Heq; try discriminate.
  pose proof (f_equal fst Heq) as Hw. cbn [fst] in Hw. subst w'.
  cbn. rewrite Hlen. auto.
Qed.

Lemma next_bytes_remaining (n : nat) (w : world) :
  length (next_bytes n w) = Nat.min n (remaining w).
Proof. unfold next_bytes, remaining. by rewrite length_take, length_drop. Qed.

(** A turn that goes on has read a tag: at least 16 bytes. *)
Lemma read_block_consumes (e : endian) (w w' : world) :
  EVT.read_block e w = (w', Ok true) -> (remaining w' + 16 <= remaining w)%nat.
Proof.
  rewrite read_block_unfold. unfold catch_eof. rewrite bind_unfold.
  pose proof (tag_read_ok_position w) as Ht.
  destruct (EVT_TAG.read w) as [w1 [[] | err]].
  2: { destruct err; discriminate. }
  destruct (Ht w1 eq_refl) as (Hlen & Hpos & Hbytes).
  rewrite next_bytes_remaining in Hlen.
  pose proof (block_body_keeps _ e (stable_position (f_bytes (fp w1)) (f_pos (fp w1))) w1
                (conj eq_refl (le_n _))) as Hb.
  destruct (block_body e w1) as [w2 [b | err]].
  - destruct Hb as [[Hbs Hp] ->]. intros [= <-]. unfold remaining in *.
    rewrite Hbs, Hbytes. lia.
  - destruct err; discriminate.
Qed.

Lemma read_block_no_fuel (e : endian) (w : world) :
  (EVT.read_block e w).2 <> Raise OutOfFuel.
Proof.
  pose proof (read_block_keeps _ e stable_True w I) as H.
  destruct (EVT.read_block e w) as [w' [b | err]]; [discriminate |].
  destruct H as [_ H]. intros [= ->]. discriminate.
Qed.

Lemma read_blocks_enough (e : endian) (fuel : nat) (w : world) :
  (remaining w < 16 * fuel)%nat ->
  (EVT.read_blocks fuel e w).2 <> Raise OutOfFuel.
Proof.
  revert w. induction fuel as [|fuel IH]; intros w Hr; [lia |].
  cbn [EVT.read_blocks]. rewrite bind_unfold.
  pose proof (read_block_consumes e w) as Hc.
  pose proof (read_block_no_fuel e w) as Hn.
  destruct (EVT.read_block e w) as [w1 [[] | err]].
  - apply IH. specialize (Hc w1 eq_refl). lia.
  - discriminate.
  - cbn in *. intros [= ->]. by apply Hn.
Qed.

Lemma read_blocks_more_fuel (e : endian) (fuel fuel' : nat) (w : world) :
  (fuel <= fuel')%nat ->
  (EVT.read_blocks fuel e w).2 <> Raise OutOfFuel ->
  EVT.read_blocks fuel' e w = EVT.read_blocks fuel e w.
Proof.
  revert fuel' w. induction fuel as [|fuel IH]; intros fuel' w Hle Hn.
  - cbn in Hn. contradiction.
  - destruct fuel' as [|fuel']; [lia |].
    cbn [EVT.read_blocks] in *. rewrite !bind_unfold in *.
    destruct (EVT.read_block e w) as [w1 [[] | err]]; try reflexivity.
    apply IH; [lia | exact Hn].
Qed.

(** X7: the [while True] loop of [readFile] ends on every stream.  Each
    turn that goes on consumes at least the 16 bytes of a tag, so the bound
    of one turn per byte of the stream is never reached, a larger bound gives
    the same result, and [readFile] never stops for lack of turns. *)
Theorem block_loop_ends (e : endian) (w : world) :
  (forall w', EVT.read_block e w = (w', Ok true) ->
              (remaining w' + 16 <= remaining w)%nat)
  /\ (EVT.read_blocks (EVT.loop_bound w) e w).2 <> Raise OutOfFuel
  /\ (forall fuel, (EVT.loop_bound w <= fuel)%nat ->
        EVT.read_blocks fuel e w = EVT.read_blocks (EVT.loop_bound w) e w).
Proof.
  assert (H : (EVT.read_blocks (EVT.loop_bound w) e w).2 <> Raise OutOfFuel).
  { apply read_blocks_enough. unfold EVT.loop_bound, remaining. lia. }
  split; [apply read_block_consumes |]. split; [exact H |].
  intros fuel Hle. by apply read_blocks_more_fuel.
Qed.

(** ** The sampling rate across the loop *)

Lemma stable_rate (r : Z) : r <> 0 -> stable (fun w => samplingrate w = r).
Proof. intros Hr. constructor; intros; cbn in *; congruence. Qed.

(** X8: once [self.samplingrate] is not 0 the loop never changes it:
    whatever the stream holds and however the loop ends, the stored rate is
    the same afterwards, and every turn that completes has read a frame of
    exactly that rate. *)
Theorem nonzero_rate_is_kept (e : endian) (w : world) :
  samplingrate w <> 0 ->
  (forall fuel, samplingrate (EVT.read_blocks fuel e w).1 = samplingrate w)
  /\ (forall w', EVT.read_block e w = (w', Ok true) ->
        frame_rate w' = Some (samplingrate w) /\ samplingrate w' = samplingrate w).
Proof.
  intros Hr. split.
  - intros fuel.
    pose proof (read_blocks_keeps _ e fuel (stable_rate _ Hr) w eq_refl) as H.
    destruct (EVT.read_blocks fuel e w) as [w' [[] | err]]; cbn; [exact H | apply H].
  - intros w' Hrun. pose proof (read_block_rate e w) as H. rewrite Hrun in H.
    destruct H as (rate & Hf & Hs & Heq).
    rewrite (proj2 (Z.eqb_neq _ _) Hr) in Hs. rewrite Hf, (Heq Hr). auto.
Qed.

Lemma nonzero_rate_is_kept_witness :
  (forall fuel,
      samplingrate (EVT.read_blocks fuel Big
                      (set_samplingrate 10 (stream_world zero_rate_second))).1
      = samplingrate (set_samplingrate 10 (stream_world zero_rate_second)))
  /\ (forall w',
        EVT.read_block Big (set_samplingrate 10 (stream_world zero_rate_second))
        = (w', Ok true) ->
        frame_rate w'
        = Some (samplingrate (set_samplingrate 10 (stream_world zero_rate_second)))
        /\ samplingrate w'
           = samplingrate (set_samplingrate 10 (stream_world zero_rate_second))).
Proof.
  apply (nonzero_rate_is_kept Big (set_samplingrate 10 (stream_world zero_rate_second))).
  cbn. lia.
Defined.

(** X9: with a stored rate that is not 0, a turn whose tag and frame header
    are read normally and whose frame has another rate raises "Sampling rate
    not constant", before the data block is read. *)
Theorem rate_change_is_fatal (e : endian) (w w1 w2 : world) (length rate numbyte : Z)
    (blocktime : value) (numchan : Z) :
  samplingrate w <> 0 ->
  EVT_TAG.read w = (w1, Ok tt) ->
  TAG w1 !! "length" = Some (VInt length) ->
  EVT_FRAME_HEADER.read length e w1 = (w2, Ok (rate, numbyte, blocktime, numchan)) ->
  rate <> samplingrate w ->
  EVT.read_block e w = (w2, Raise (EVTBadHeaderError "Sampling rate not constant")).
Proof.
  intros Hr Htag Hlen Hframe Hne.
  rewrite read_block_unfold. unfold catch_eof, block_body.
  rewrite bind_unfold, Htag.
  rewrite bind_unfold. unfold attr_int at 1, attr, getattr.
  rewrite bind_unfold, Hlen. unfold lift at 1, as_int. cbv beta iota.
  rewrite bind_unfold, Hframe. cbv beta iota.
  rewrite bind_unfold. unfold gets at 1. cbv beta iota.
  pose proof (tag_read_untouched w) as ((_ & _ & _ & H1 & _) & _).
  pose proof (frame_read_untouched length e w1) as ((_ & _ & _ & H2 & _) & _).
  rewrite Htag in H1. rewrite Hframe in H2. cbn [fst] in H1, H2.
  rewrite H2, H1.
  rewrite (proj2 (Z.eqb_neq _ _) Hr).
  rewrite (proj2 (Z.eqb_neq (samplingrate w) rate)) by congruence.
  reflexivity.
Qed.

Lemma rate_change_is_fatal_witness :
  EVT.read_block Big (set_samplingrate 10 (stream_world
                        (tag_block Big 1 2 32 0 ++ frame_block Big 3 1 20 192)))
  = ((EVT_FRAME_HEADER.read 32 Big
        (EVT_TAG.read (set_samplingrate 10 (stream_world
           (tag_block Big 1 2 32 0 ++ frame_block Big 3 1 20 192)))).1).1,
     Raise (EVTBadHeaderError "Sampling rate not constant")).
Proof.
  apply (rate_change_is_fatal Big
           (set_samplingrate 10 (stream_world
              (tag_block Big 1 2 32 0 ++ frame_block Big 3 1 20 192)))
           (EVT_TAG.read (set_samplingrate 10 (stream_world
              (tag_block Big 1 2 32 0 ++ frame_block Big 3 1 20 192)))).1
           _ 32 20 4 (VTime 0 0) 1).
  - cbn. lia.
  - rewrite (surjective_pairing (EVT_TAG.read _)) at 1.
    apply (f_equal (pair _)). vm_compute. reflexivity.
  - vm_compute. reflexivity.
  - rewrite (surjective_pairing (EVT_FRAME_HEADER.read _ _ _)) at 1.
    apply (f_equal (pair _)). vm_compute. reflexivity.
  - cbn. lia.
Defined.

(** ** The end of the loop *)

(** X10: on an open stream a turn of the loop ends it ([break]) exactly
    when the tag reader meets the end of the stream: fewer than 16 bytes
    left, or a block starting with a null byte.  Nothing but the position of
    the stream has then changed; no exception raised after the tag is
    taken for the end of the stream. *)
Theorem loop_ends_only_at_a_tag (e : endian) (w : world) :
  f_closed (fp w) = false ->
  ((EVT.read_block e w).2 = Ok false
   <-> (length (next_bytes 16 w) < 16)%nat \/ nth 0 (next_bytes 16 w) x00 = x00)
  /\ ((EVT.read_block e w).2 = Ok false ->
      (EVT.read_block e w).1 = advance (length (next_bytes 16 w)) w).
Proof.
  intros Hopen. rewrite read_block_unfold. unfold catch_eof. rewrite bind_unfold.
  rewrite tag_read_run. unfold tag_read_result. rewrite Hopen. cbv zeta.
  destruct (Nat.ltb_spec (length (next_bytes 16 w)) 16) as [Hlt | Hge].
  { cbn. tauto. }
  destruct (Byte.eqb (nth 0 (next_bytes 16 w) x00) x00) eqn:E0.
  { apply byte_dec_bl in E0. cbn. tauto. }
  apply Byte.eqb_false in E0.
  assert (Hno : ~ ((length (next_bytes 16 w) < 16)%nat
                   \/ nth 0 (next_bytes 16 w) x00 = x00)) by (intros [? | ?]; [lia | auto]).
  destruct (negb _); [cbn; split; [split |]; [discriminate | tauto | discriminate] |].
  destruct (tag_order _) as [e0 |];
    [| cbn; split; [split |]; [discriminate | tauto | discriminate]].
  destruct (tag_valid _ _);
    [| cbn; split; [split |]; [discriminate | tauto | discriminate]].
  match goal with |- context [block_body e ?w1] =>
    pose proof (block_body_keeps _ e stable_True w1 I) as Hb;
    destruct (block_body e w1) as [w2 [b | err]] end.
  - destruct Hb as [_ ->]. cbn. split; [split |]; [discriminate | tauto | discriminate].
  - destruct Hb as (_ & _ & Hne).
    destruct err; try contradiction; cbn; split; try split;
      solve [discriminate | tauto].
Qed.

Lemma loop_ends_only_at_a_tag_witness :
  ((EVT.read_block Big (stream_world (zeros 16))).2 = Ok false
   <-> (length (next_bytes 16 (stream_world (zeros 16))) < 16)%nat
       \/ nth 0 (next_bytes 16 (stream_world (zeros 16))) x00 = x00)
  /\ ((EVT.read_block Big (stream_world (zeros 16))).2 = Ok false ->
      (EVT.read_block Big (stream_world (zeros 16))).1
      = advance (length (next_bytes 16 (stream_world (zeros 16))))
          (stream_world (zeros 16))).
Proof. apply (loop_ends_only_at_a_tag Big (stream_world (zeros 16))). reflexivity. Defined.

(** ** The anatomy of a turn that completes *)

Lemma bind_ok_inv {S A B} (m : M S A) (f : A -> M S B) (s s' : S) (b : B) :
  bind m f s = (s', Ok b) -> exists s1 a, m s = (s1, Ok a) /\ f a s1 = (s', Ok b).
Proof.
  rewrite bind_unfold. destruct (m s) as [s1 [a | e]]; [eauto | discriminate].
Qed.

Lemma attr_int_ok_inv (store : world -> gmap string value) (key : string)
    (w w' : world) (z : Z) :
  attr_int store key w = (w', Ok z) -> w' = w /\ store w !! key = Some (VInt z).
Proof.
  unfold attr_int, bind, attr, getattr, lift, as_int.
  destruct (store w !! key) as [[] |]; intros [= <- <-] || discriminate. auto.
Qed.

Lemma attr_ok_inv (store : world -> gmap string value) (key : string)
    (w w' : world) (v : value) :
  attr store key w = (w', Ok v) -> w' = w /\ store w !! key = Some v.
Proof.
  unfold attr, getattr. destruct (store w !! key); intros [= <- <-] || discriminate. auto.
Qed.

(** The state in which the data block of a frame of rate [rate] is read. *)
Definition with_rate (rate : Z) (w : world) : world :=
  if samplingrate w =? 0 then set_samplingrate rate w else w.

Lemma read_block_true_inv (e : endian) (w w' : world) :
  EVT.read_block e w = (w', Ok true) ->
  exists w1 length rate numbyte blocktime numchan w2 datalength w4 datal d,
    EVT_TAG.read w = (w1, Ok tt)
    /\ TAG w1 !! "length" = Some (VInt length)
    /\ EVT_FRAME_HEADER.read length e w1 = (w2, Ok (rate, numbyte, blocktime, numchan))
    /\ (samplingrate w = 0 \/ samplingrate w = rate)
    /\ TAG w1 !! "datalength" = Some (VInt datalength)
    /\ EVT_DATA.read datalength e (rate, numbyte, blocktime, numchan) (with_rate rate w2)
       = (w4, Ok datal)
    /\ EVT.hstack (data w) datal = Ok d
    /\ w' = set_data d w4.
Proof.
  rewrite read_block_unfold. unfold catch_eof. intros H.
  destruct (bind EVT_TAG.read _ w) as [w0 [b | err]] eqn:Hb;
    [| destruct err; discriminate].
  injection H as -> ->.
  apply bind_ok_inv in Hb as (w1 & [] & Htag & Hb). unfold block_body in Hb.
  apply bind_ok_inv in Hb as (w1' & len & Hlen & Hb).
  apply attr_int_ok_inv in Hlen as [-> Hlen].
  apply bind_ok_inv in Hb as (w2 & [[[rate nb] bt] nc] & Hframe & Hb).
  apply bind_ok_inv in Hb as (w2' & sr & Hsr & Hb).
  injection Hsr as <- <-.
  apply bind_ok_inv in Hb as (w3 & [] & Hstep & Hb).
  apply bind_ok_inv in Hb as (w3' & dl & Hdl & Hb).
  apply attr_int_ok_inv in Hdl as [-> Hdl].
  apply bind_ok_inv in Hb as (w4 & datal & Hdata & Hb).
  apply bind_ok_inv in Hb as (w4' & sd & Hsd & Hb).
  injection Hsd as <- <-.
  apply bind_ok_inv in Hb as (w4' & d & Hh & Hb).
  unfold lift in Hh. injection Hh as <- Hh.
  apply bind_ok_inv in Hb as (w5 & [] & Hset & Hb).
  injection Hset as <-. injection Hb as <-.
  pose proof (tag_read_untouched w) as ((_ & _ & _ & Ht1 & Ht2 & _) & _).
  pose proof (frame_read_untouched len e w1) as ((_ & _ & _ & Hf1 & Hf2 & _) & Hf3 & _).
  rewrite Htag in Ht1, Ht2. rewrite Hframe in Hf1, Hf2, Hf3. cbn [fst] in *.
  assert (Hw3 : w3 = with_rate rate w2 /\ (samplingrate w = 0 \/ samplingrate w = rate)).
  { unfold with_rate. rewrite Hf1, Ht1 in *.
    destruct (Z.eqb_spec (samplingrate w) 0) as [H0 | H0].
    - injection Hstep as <-. auto.
    - destruct (Z.eqb_spec (samplingrate w) rate) as [Hr | Hr]; cbn [negb] in Hstep;
        [injection Hstep as <-; auto | discriminate]. }
  destruct Hw3 as [-> Hrate].
  pose proof (data_read_untouched dl e (rate, nb, bt, nc) (with_rate rate w2))
    as ((_ & _ & _ & _ & Hd & _) & _).
  rewrite Hdata in Hd. cbn [fst] in Hd.
  assert (Hdw : data w4 = data w).
  { rewrite Hd. unfold with_rate. destruct (_ =? _); cbn; congruence. }
  exists w1, len, rate, nb, bt, nc, w2, dl, w4, datal, d.
  rewrite <- Hdw.
  assert (Hdl' : TAG w1 !! "datalength" = Some (VInt dl)).
  { rewrite <- Hf3. revert Hdl. unfold with_rate. by destruct (_ =? _). }
  auto 10.
Qed.

Lemma frame_read_bitmap (length : Z) (e : endian) (w w' : world)
    (rate numbyte : Z) (blocktime : value) (numchan : Z) :
  EVT_FRAME_HEADER.read length e w = (w', Ok (rate, numbyte, blocktime, numchan)) ->
  exists bitmap,
    FRM w' !! "channelbitmap" = Some (VInt bitmap) /\ numchan = bits_set bitmap 12.
Proof.
  rewrite frame_read_run. unfold frame_read_result, frame_result.
  repeat case_match; intros Heq; try discriminate.
  pose proof (f_equal fst Heq) as Hw. pose proof (f_equal snd Heq) as Ho.
  cbn [fst snd] in Hw, Ho. subst w'. injection Ho as _ _ _ <-.
  eexists. cbn [FRM set_FRM]. rewrite apply_updates_lookup. split; [reflexivity |].
  apply popcount12_bits.
Qed.

(** X11: a turn of the loop completes only for a frame whose number of
    active channels (the bits set among the twelve low bits of its channel
    bitmap) is the number of rows of [self.data], and is not 0; the turn
    leaves the number of rows as it is.  The loop as a whole never changes
    the number of rows. *)
Theorem frame_channels_match_rows (e : endian) (w : world) :
  (forall w', EVT.read_block e w = (w', Ok true) ->
     exists bitmap,
       FRM w' !! "channelbitmap" = Some (VInt bitmap)
       /\ bits_set bitmap 12 = Z.of_nat (length (data w))
       /\ length (data w) <> 0%nat
       /\ length (data w') = length (data w))
  /\ (forall fuel, length (data (EVT.read_blocks fuel e w).1) = length (data w)).
Proof.
  split.
  - intros w' Hrun.
    apply read_block_true_inv in Hrun
      as (w1 & len & rate & nb & bt & nc & w2 & dl & w4 & datal & d
          & Htag & Hlen & Hframe & Hrate & Hdl & Hdata & Hh & ->).
    apply frame_read_bitmap in Hframe as Hbm. destruct Hbm as (bitmap & Hbm & Hnc).
    apply data_read_length in Hdata as Hdl'.
    apply hstack_ok in Hh as (Hn0 & Hrows & Hd & _).
    pose proof (data_read_untouched dl e (rate, nb, bt, nc) (with_rate rate w2))
      as (_ & _ & Hfrm & _).
    rewrite Hdata in Hfrm. cbn [fst] in Hfrm.
    assert (Hfrm' : FRM w4 = FRM w2).
    { rewrite Hfrm. unfold with_rate. by destruct (_ =? _). }
    exists bitmap. cbn [FRM data set_data]. rewrite Hfrm'.
    pose proof (bits_set_bound bitmap 12).
    repeat split; [exact Hbm | | lia | lia]. lia.
  - intros fuel.
    assert (Hst : stable (fun w0 => length (data w0) = length (data w))).
    { constructor; intros; cbn in *; try congruence.
      match goal with H : EVT.hstack _ _ = Ok _ |- _ =>
        apply hstack_ok in H as (_ & _ & ? & _) end. congruence. }
    pose proof (read_blocks_keeps _ e fuel Hst w eq_refl) as H.
    destruct (EVT.read_blocks fuel e w) as [w' [[] | err]]; cbn; [exact H | apply H].
Qed.

(** ** The exceptions of [readFile] *)

(** The exceptions raised before the count of the frames is checked, and
    by the steps after it: every one but "Bad number of blocks". *)
Definition decode_error (err : exn) : bool :=
  match err with
  | OutOfFuel => false
  | EVTBadDataError msg => String.eqb msg "Bad data length"
  | _ => true
  end.

Lemma block_error_decode (err : exn) : block_error err = true -> decode_error err = true.
Proof. by destruct err. Qed.

Lemma omap_errors {A B} (P : exn -> Prop) (f : A -> outcome B) (l : list A) (err : exn) :
  (forall x err, f x = Raise err -> P err) ->
  omap f l = Raise err -> P err.
Proof.
  intros Hf. induction l as [|x l IH]; cbn; [discriminate |].
  destruct (f x) as [y | e] eqn:E; cbn; [| intros [= <-]; eauto].
  destruct (omap f l) as [ys | e]; cbn; [discriminate |].
  intros [= <-]. by apply IH.
Qed.

Lemma val_at_errors (val : list value) (i : Z) (err : exn) :
  val_at val i = Raise err -> err = IndexError.
Proof. unfold val_at. repeat case_match; intros [= <-] || discriminate; reflexivity. Qed.

Lemma apply_transform_errors (t : transform) (raw : value) (val : list value)
    (offset : Z) (err : exn) :
  apply_transform t raw val offset = Raise err -> err = TypeError \/ err = IndexError.
Proof.
  destruct t; cbn.
  - discriminate.
  - unfold _instrument, as_int. destruct raw; cbn; intros [= <-] || discriminate; auto.
  - unfold _gpsstatus, as_int. destruct raw; cbn; intros [= <-] || discriminate; auto.
  - unfold _time. destruct (param =? -1); [discriminate |].
    unfold as_int. destruct raw; cbn; try (intros [= <-]; auto).
    destruct (val_at val (param - offset)) as [c | e] eqn:E; cbn.
    + destruct c; cbn; intros [= <-] || discriminate; auto.
    + intros [= <-]. right. eapply val_at_errors, E.
  - unfold _strnull. destruct raw; intros [= <-] || discriminate; auto.
  - unfold _array. destruct (omap _ _) as [l | e] eqn:E; cbn; [discriminate |].
    intros [= <-]. right.
    apply (omap_errors (fun err => err = IndexError)) in E; [exact E |].
    intros x err'. apply val_at_errors.
  - unfold _arraynull. destruct (omap _ _) as [l | e] eqn:E; cbn; [discriminate |].
    intros [= <-]. right.
    apply (omap_errors (fun err => err = IndexError)) in E; [exact E |].
    intros x err'. apply val_at_errors.
Qed.

Lemma updates_errors (HEADER : schema) (val : list value) (offset : Z) (err : exn) :
  (updates HEADER val offset).2 = Raise err -> err = TypeError \/ err = IndexError.
Proof.
  induction HEADER as [|[key [pos t]] rest IH]; cbn; [discriminate |].
  destruct (_ && _); [| exact IH].
  destruct (val_at val (pos - offset)) as [raw | e] eqn:E; cbn.
  - destruct (apply_transform t raw val offset) as [v | e] eqn:Et.
    + destruct (updates rest val offset) as [us o]. exact IH.
    + cbn. intros [= <-]. eapply apply_transform_errors, Et.
  - intros [= <-]. right. eapply val_at_errors, E.
Qed.

Lemma unpack_errors (fmt : string) (buff : list byte) (err : exn) :
  unpack fmt buff = Raise err -> err = StructError.
Proof.
  unfold unpack. destruct (split_order fmt) as [e body].
  destruct (parse body None); [| by intros [= <-]].
  destruct (_ =? _)%nat; [discriminate | by intros [= <-]].
Qed.

Lemma header_pass_errors (e : endian) (fmt : string) (buff : list byte) (lo n : nat)
    (offset : Z) (err : exn) :
  (header_pass e fmt buff lo n offset).2 = Raise err ->
  err = TypeError \/ err = IndexError \/ err = StructError.
Proof.
  unfold header_pass. destruct (unpack _ _) as [val | e'] eqn:E.
  - intros H. apply updates_errors in H. tauto.
  - cbn. intros [= <-]. apply unpack_errors in E. tauto.
Qed.

Lemma then_updates_errors (P : exn -> Prop) (p q : list (string * value) * outcome unit)
    (err : exn) :
  (forall err, p.2 = Raise err -> P err) ->
  (forall err, q.2 = Raise err -> P err) ->
  (then_updates p q).2 = Raise err -> P err.
Proof.
  intros Hp Hq. unfold then_updates. destruct p as [us [[] | e]]; cbn in *.
  - apply Hq.
  - intros [= <-]. by apply Hp.
Qed.

Lemma header_updates_errors (e : endian) (buff : list byte) (err : exn) :
  (header_updates e buff).2 = Raise err ->
  err = TypeError \/ err = IndexError \/ err = StructError.
Proof.
  unfold header_updates. revert err.
  do 3 (intros err;
        apply (then_updates_errors
                 (fun err => err = TypeError \/ err = IndexError \/ err = StructError));
        [intros err'; apply header_pass_errors |]; clear err).
  intros err. apply header_pass_errors.
Qed.

Lemma header_read_keeps (I : world -> Prop) (length : Z) (e : endian) :
  (forall w n, I w -> f_closed (fp w) = false -> I (advance n w)) ->
  (forall w m, I w -> I (set_HDR m w)) ->
  (forall w e, I w -> I (set_EHeader_endian e w)) ->
  triple I (EVT_HEADER.read length e) (fun _ w => I w)
    (fun err w => I w /\ decode_error err = true).
Proof.
  intros Hfp Hhdr Hend w Hw. rewrite header_read_run. unfold header_read_result.
  destruct (f_closed (fp w)) eqn:Hopen; [by split |]. cbv zeta.
  pose proof (Hend _ (Some e) (Hfp w (List.length (read_bytes length w)) Hw Hopen)) as H1.
  destruct (length =? 2040).
  - pose proof (header_updates_errors e (read_bytes length w)) as He.
    destruct (header_updates e (read_bytes length w)) as [us [[] | err]]; cbn [fst snd] in *.
    + by apply Hhdr.
    + split; [by apply Hhdr |]. destruct (He err eq_refl) as [-> | [-> | ->]]; reflexivity.
  - destruct (length =? 2736); by split.
Qed.

(** ** The end of [readFile] *)

(** What [readFile] does once the loop has ended. *)
Definition finish (is_fileobject Raw : bool) : M world (list Trace) :=
  let* count := EVT_FRAME_HEADER.count in
  let* duration := attr HDR "duration" in
  if negb (value_is duration count) then raise (EVTBadDataError "Bad number of blocks")
  else
    let* _ := (if negb Raw then EVT.calibration else ret tt) in
    let* _ := (if negb is_fileobject then fp_close else ret tt) in
    EVT.traces.

Definition is_object (arg : filename_or_object) : bool :=
  match arg with FileObject => true | FileName _ => false end.

(** [readFile] once the stream is at hand. *)
Definition decode (is_fileobject Raw : bool) : M world (list Trace) :=
  let* _ := EVT_TAG.read in
  let* self_ETag_endian := gets ETag_endian in
  let* endian := lift (match self_ETag_endian with
                       | Some e => Ok e
                       | None => Raise TypeError
                       end) in
  let* _ := modify (fun w => set_HDR (unsetdico (HDR w)) w) in
  let* length := attr_int TAG "length" in
  let* _ := EVT_HEADER.read length endian in
  let* nchannels := attr_int HDR "nchannels" in
  let* _ := modify (set_data (replicate (Z.to_nat nchannels) [])) in
  let* bound := gets EVT.loop_bound in
  let* _ := EVT.read_blocks bound endian in
  finish is_fileobject Raw.

Lemma readFile_split (arg : filename_or_object) (Raw : bool) :
  EVT.readFile arg Raw
  = (let* _ := match arg with FileObject => ret tt | FileName name => fp_open name end in
     decode (is_object arg) Raw).
Proof. destruct arg; reflexivity. Qed.

Lemma readFile_object (Raw : bool) : EVT.readFile FileObject Raw = decode true Raw.
Proof. reflexivity. Qed.

Lemma readFile_name (name : string) (Raw : bool) (w : world) :
  EVT.readFile (FileName name) Raw w
  = match files w !! name with
    | Some content => decode false Raw (set_fp (mkfile content 0 false) w)
    | None => (w, Raise IOError)
    end.
Proof.
  rewrite readFile_split, bind_unfold. unfold fp_open.
  by destruct (files w !! name).
Qed.

Lemma loop_keeps (I : world -> Prop) (e : endian) :
  stable I ->
  triple I (let* bound := gets EVT.loop_bound in EVT.read_blocks bound e)
    (fun _ w => I w) (fun err w => I w /\ decode_error err = true).
Proof.
  intros HI w Hw. rewrite bind_unfold. unfold gets. cbv beta iota.
  pose proof (read_blocks_keeps I e (EVT.loop_bound w) HI w Hw) as H.
  assert (Hn : (EVT.read_blocks (EVT.loop_bound w) e w).2 <> Raise OutOfFuel).
  { apply read_blocks_enough. unfold EVT.loop_bound, remaining. lia. }
  destruct (EVT.read_blocks (EVT.loop_bound w) e w) as [w' [[] | err]]; [exact H |].
  destruct H as [H [He | ->]]; [| contradiction].
  split; [exact H | by apply block_error_decode].
Qed.

(** The rule for a decode: [I] is kept by the steps before the loop; [J]
    holds when the sample matrix is created and is kept by the loop; what
    [finish] establishes from [J] is established by the decode. *)
Lemma decode_triple (I J : world -> Prop) (is_fileobject Raw : bool)
    (Q : list Trace -> world -> Prop) (X : exn -> world -> Prop) :
  stable I ->
  (forall w m, I w -> I (set_HDR m w)) ->
  (forall w e, I w -> I (set_EHeader_endian e w)) ->
  (forall w n, I w -> HDR w !! "nchannels" = Some (VInt n) ->
               J (set_data (replicate (Z.to_nat n) []) w)) ->
  stable J ->
  (forall err w, I w \/ J w -> decode_error err = true -> X err w) ->
  triple J (finish is_fileobject Raw) Q X ->
  triple I (decode is_fileobject Raw) Q X.
Proof.
  intros HI Hhdr Hend Hinit HJ HX Hfin. unfold decode.
  eapply (triple_bind _ (fun _ w => I w)).
  { eapply triple_weaken; [apply (tag_read_keeps I HI) | | |]; cbv beta; auto.
    intros err w [Hw He]. apply HX; [by left | by apply block_error_decode]. }
  intros _. eapply (triple_bind _ (fun _ w => I w)).
  { apply triple_gets. intros w Hw. exact Hw. }
  intros se. eapply (triple_bind _ (fun _ w => I w)).
  { apply triple_lift. intros w Hw. destruct se; [exact Hw | apply HX; auto]. }
  intros endian. eapply (triple_bind _ (fun _ w => I w)).
  { apply triple_modify. intros w Hw. by apply Hhdr. }
  intros _. eapply (triple_bind _ (fun _ w => I w)).
  { apply triple_attr_int. intros w Hw.
    destruct (TAG w !! "length") as [[] |]; auto. }
  intros len. eapply (triple_bind _ (fun _ w => I w)).
  { eapply triple_weaken; [apply (header_read_keeps I len endian) | | |]; cbv beta; auto.
    - apply (stable_read I HI).
    - intros err w [Hw He]. apply HX; auto. }
  intros _.
  eapply (triple_bind _ (fun n w => I w /\ HDR w !! "nchannels" = Some (VInt n))).
  { apply triple_attr_int. intros w Hw.
    destruct (HDR w !! "nchannels") as [[] |]; auto. }
  intros n. eapply (triple_bind _ (fun _ w => J w)).
  { apply triple_modify. intros w [Hw Hn]. by apply Hinit. }
  intros _.
  change (let* bound := gets EVT.loop_bound in
          let* _ := EVT.read_blocks bound endian in finish is_fileobject Raw)
    with (let* bound := gets EVT.loop_bound in
          bind (EVT.read_blocks bound endian) (fun _ => finish is_fileobject Raw)).
  intros w Hw. rewrite bind_unfold. unfold gets at 1. cbv beta iota.
  rewrite bind_unfold.
  pose proof (loop_keeps J endian HJ w Hw) as Hl.
  rewrite bind_unfold in Hl. unfold gets at 1 in Hl. cbv beta iota in Hl.
  destruct (EVT.read_blocks (EVT.loop_bound w) endian w) as [w' [[] | err]].
  - by apply Hfin.
  - destruct Hl. apply HX; auto.
Qed.

Lemma readFile_triple (I J : world -> Prop) (arg : filename_or_object) (Raw : bool)
    (Q : list Trace -> world -> Prop) (X : exn -> world -> Prop) :
  stable I ->
  (forall w m, I w -> I (set_HDR m w)) ->
  (forall w e, I w -> I (set_EHeader_endian e w)) ->
  (forall w content, is_object arg = false -> I w -> I (set_fp (mkfile content 0 false) w)) ->
  (forall w n, I w -> HDR w !! "nchannels" = Some (VInt n) ->
               J (set_data (replicate (Z.to_nat n) []) w)) ->
  stable J ->
  (forall err w, I w \/ J w -> decode_error err = true -> X err w) ->
  triple J (finish (is_object arg) Raw) Q X ->
  triple I (EVT.readFile arg Raw) Q X.
Proof.
  intros HI Hhdr Hend Hopen Hinit HJ HX Hfin.
  pose proof (decode_triple I J (is_object arg) Raw Q X HI Hhdr Hend Hinit HJ HX Hfin) as Hd.
  destruct arg as [| name].
  - rewrite readFile_object. exact Hd.
  - intros w Hw. rewrite readFile_name.
    destruct (files w !! name) as [content |].
    + apply Hd. by apply Hopen.
    + apply HX; auto.
Qed.

(** ** After the loop *)

Lemma value_is_true (v : value) (z : Z) : value_is v z = true <-> v = VInt z.
Proof.
  destruct v; cbn; try (split; [discriminate | intros [=]]).
  rewrite Z.eqb_eq. split; [by intros -> | by intros [= ->]].
Qed.

(** [file_pointer.close()] *)
Definition closed_world (w : world) : world :=
  set_fp (mkfile (f_bytes (fp w)) (f_pos (fp w)) true) w.

Lemma item_errors (v : value) (i : Z) (err : exn) :
  EVT.item v i = Raise err -> err = TypeError \/ err = IndexError.
Proof.
  unfold EVT.item. destruct v; try (intros [= <-]; auto).
  intros H. right. eapply val_at_errors, H.
Qed.

(** The loop of [calibration] over the rows. *)
Definition calibrate_rows (nchannels : Z) (chan_fullscale chan_sensitivity : value)
    (rows : list (list sample)) : outcome (list (list sample)) :=
  ofold (seqZ 0 nchannels)
    (fun i data =>
       let+ fs := EVT.item chan_fullscale i in
       match fs with
       | VFloat fbits =>
           if EVT.is_zero_float fbits then Raise ZeroDivisionError
           else
             let+ sens := EVT.item chan_sensitivity i in
             match sens with
             | VFloat sbits =>
                 match data !! Z.to_nat i with
                 | Some row =>
                     Ok (<[Z.to_nat i := map (fun x => Scaled x fbits sbits) row]> data)
                 | None => Raise IndexError
                 end
             | _ => Raise TypeError
             end
       | _ => Raise TypeError
       end)
    rows.

Lemma calibration_run (w : world) :
  EVT.calibration w
  = match HDR w !! "nchannels" with
    | Some (VInt n) =>
        match HDR w !! "chan_fullscale" with
        | Some fs =>
            match HDR w !! "chan_sensitivity" with
            | Some sens =>
                match calibrate_rows n fs sens (data w) with
                | Ok d => (set_data d w, Ok tt)
                | Raise err => (w, Raise err)
                end
            | None => (w, Raise IndexError)
            end
        | None => (w, Raise IndexError)
        end
    | Some _ => (w, Raise TypeError)
    | None => (w, Raise IndexError)
    end.
Proof.
  unfold EVT.calibration, attr_int, attr, getattr, bind, lift, as_int, gets, modify.
  fold (calibrate_rows).
  destruct (HDR w !! "nchannels") as [[] |]; try reflexivity.
  destruct (HDR w !! "chan_fullscale"); [| reflexivity].
  destruct (HDR w !! "chan_sensitivity"); [| reflexivity].
  unfold calibrate_rows. destruct (ofold _ _ _); reflexivity.
Qed.

Lemma calibrate_rows_errors (n : Z) (fs sens : value) (rows : list (list sample))
    (err : exn) :
  calibrate_rows n fs sens rows = Raise err ->
  err = TypeError \/ err = IndexError \/ err = ZeroDivisionError.
Proof.
  unfold calibrate_rows.
  apply (ofold_errors (fun err => err = TypeError \/ err = IndexError
                                  \/ err = ZeroDivisionError)).
  intros i dat err'.
  destruct (EVT.item fs i) as [v | e] eqn:E1; cbn.
  2: { intros [= <-]. apply item_errors in E1. tauto. }
  destruct v; try (intros [= <-]; tauto).
  destruct (EVT.is_zero_float bits); [intros [= <-]; tauto |].
  destruct (EVT.item sens i) as [v | e] eqn:E2; cbn.
  2: { intros [= <-]. apply item_errors in E2. tauto. }
  destruct v; try (intros [= <-]; tauto).
  destruct (dat !! Z.to_nat i); [discriminate | intros [= <-]; tauto].
Qed.

Lemma calibration_errors (w w' : world) (err : exn) :
  EVT.calibration w = (w', Raise err) ->
  err = TypeError \/ err = IndexError \/ err = ZeroDivisionError.
Proof.
  rewrite calibration_run.
  pose proof (calibrate_rows_errors) as Hc.
  repeat case_match; intros [= <- <-] || discriminate; eauto.
Qed.

Lemma calibration_ok (w w' : world) :
  EVT.calibration w = (w', Ok tt) ->
  exists n fs sens d,
    HDR w !! "nchannels" = Some (VInt n)
    /\ HDR w !! "chan_fullscale" = Some fs
    /\ HDR w !! "chan_sensitivity" = Some sens
    /\ calibrate_rows n fs sens (data w) = Ok d
    /\ w' = set_data d w.
Proof.
  rewrite calibration_run. repeat case_match; intros [= <-] || discriminate.
  eauto 10.
Qed.

Lemma makeobspydico_errors (numchan : Z) (store : gmap string value) (err : exn) :
  EVT_HEADER.makeobspydico numchan store = Raise err -> err = IndexError.
Proof.
  unfold EVT_HEADER.makeobspydico.
  apply (ofold_errors (fun err => err = IndexError)).
  intros [key p] dico err'. unfold getattr.
  destruct (store !! key) as [v |]; cbn; [| by intros [= <-]].
  destruct v; try discriminate.
  destruct (val_at l numchan) as [x | e] eqn:E; cbn; [discriminate |].
  intros [= <-]. eapply val_at_errors, E.
Qed.

(** What [readFile] builds for channel [i]. *)
Definition trace_of (w : world) (i : Z) : outcome Trace :=
  let+ row := match data w !! Z.to_nat i with
              | Some row => Ok row
              | None => Raise IndexError
              end in
  let+ stnid := getattr (HDR w) "stnid" in
  let+ station := match stnid with
                  | VText b | VBytes b => Ok (filter (fun x => Byte.eqb x x00 = false) b)
                  | _ => Raise TypeError
                  end in
  let+ starttime := getattr (HDR w) "starttime" in
  let+ dico := EVT_HEADER.makeobspydico i (HDR w) in
  Ok (mkTrace row i station (samplingrate w) starttime dico).

Lemma traces_run (w : world) :
  EVT.traces w
  = match HDR w !! "nchannels" with
    | Some (VInt n) => (w, omap (trace_of w) (seqZ 0 n))
    | Some _ => (w, Raise TypeError)
    | None => (w, Raise IndexError)
    end.
Proof.
  unfold EVT.traces, attr_int, attr, getattr, bind, lift, as_int, gets.
  destruct (HDR w !! "nchannels") as [[] |]; reflexivity.
Qed.

Lemma trace_of_errors (w : world) (i : Z) (err : exn) :
  trace_of w i = Raise err -> err = TypeError \/ err = IndexError.
Proof.
  unfold trace_of, getattr.
  destruct (data w !! Z.to_nat i); cbn [obind]; [| intros [= <-]; tauto].
  destruct (HDR w !! "stnid") as [v |]; cbn [obind]; [| intros [= <-]; tauto].
  assert (Hrest : forall station : list byte,
             (let+ starttime := match HDR w !! "starttime" with
                                | Some v => Ok v
                                | None => Raise IndexError
                                end in
              let+ dico := EVT_HEADER.makeobspydico i (HDR w) in
              Ok (mkTrace l i station (samplingrate w) starttime dico)) = Raise err ->
             err = TypeError \/ err = IndexError).
  { intros station. destruct (HDR w !! "starttime"); cbn [obind]; [| intros [= <-]; tauto].
    destruct (EVT_HEADER.makeobspydico i (HDR w)) eqn:E; cbn [obind]; [discriminate |].
    intros [= <-]. apply makeobspydico_errors in E. tauto. }
  destruct v; cbn [obind]; try (intros [= <-]; tauto); apply Hrest.
Qed.

Lemma traces_errors (w w' : world) (err : exn) :
  EVT.traces w = (w', Raise err) -> err = TypeError \/ err = IndexError.
Proof.
  rewrite traces_run. destruct (HDR w !! "nchannels") as [[] |];
    try (intros [= <- <-]; tauto).
  intros [= <- H].
  apply (omap_errors (fun err => err = TypeError \/ err = IndexError)) in H; [exact H |].
  intros x err'. apply trace_of_errors.
Qed.

(** [finish], case by case. *)
Lemma finish_ok (is_fileobject Raw : bool) (w w' : world) (ts : list Trace) :
  finish is_fileobject Raw w = (w', Ok ts) ->
  HDR w !! "duration" = Some (VInt (numframe w))
  /\ exists wc,
       (if Raw then wc = w else EVT.calibration w = (wc, Ok tt))
       /\ w' = (if is_fileobject then wc else closed_world wc)
       /\ EVT.traces w' = (w', Ok ts).
Proof.
  unfold finish. intros H.
  apply bind_ok_inv in H as (w0 & count & Hc & H). injection Hc as <- <-.
  apply bind_ok_inv in H as (w0 & duration & Hd & H).
  apply attr_ok_inv in Hd as [-> Hd].
  destruct (value_is duration (numframe w)) eqn:Hv; cbn [negb] in H; [| discriminate].
  apply value_is_true in Hv. subst duration. split; [exact Hd |].
  apply bind_ok_inv in H as (wc & [] & Hcal & H).
  apply bind_ok_inv in H as (wd & [] & Hclose & H).
  pose proof (traces_state wd) as Hs. rewrite H in Hs. cbn [fst] in Hs. subst wd.
  exists wc. split; [destruct Raw; cbn [negb] in Hcal; [by injection Hcal | exact Hcal] |].
  split; [| exact H].
  destruct is_fileobject; cbn [negb] in Hclose; by injection Hclose.
Qed.

Lemma calibration_raise_state (w w' : world) (err : exn) :
  EVT.calibration w = (w', Raise err) -> fp w' = fp w.
Proof. rewrite calibration_run. repeat case_match; intros [= <- _] || discriminate; reflexivity. Qed.

Lemma finish_raise (is_fileobject Raw : bool) (w w' : world) (err : exn) :
  finish is_fileobject Raw w = (w', Raise err) ->
  (err = EVTBadDataError "Bad number of blocks" /\ w' = w
   /\ exists v, HDR w !! "duration" = Some v /\ v <> VInt (numframe w))
  \/ err = TypeError \/ err = IndexError
  \/ (err = ZeroDivisionError /\ fp w' = fp w).
Proof.
  unfold finish. rewrite bind_unfold. unfold EVT_FRAME_HEADER.count at 1. cbv beta iota.
  rewrite bind_unfold. unfold attr at 1, getattr.
  destruct (HDR w !! "duration") as [duration |] eqn:Hd; [| intros [= <- <-]; tauto].
  destruct (value_is duration (numframe w)) eqn:Hv; cbn [negb].
  2: { intros [= <- <-]. left. split; [reflexivity |]. split; [reflexivity |].
       exists duration. split; [reflexivity |]. intros ->.
       cbn in Hv. rewrite Z.eqb_refl in Hv. discriminate. }
  rewrite bind_unfold.
  destruct (if negb Raw then EVT.calibration else ret tt) as [wc [[] | e]] eqn:Hcal; cbv beta.
  2: { intros [= <- <-]. right.
       destruct Raw; cbn [negb] in Hcal; [discriminate |].
       pose proof (calibration_raise_state _ _ _ Hcal).
       apply calibration_errors in Hcal. tauto. }
  rewrite bind_unfold.
  destruct (if negb is_fileobject then fp_close else ret tt) as [wd [[] | e]] eqn:Hcl.
  2: { destruct is_fileobject; discriminate. }
  cbv beta iota. intros H. right. apply traces_errors in H. tauto.
Qed.

Lemma finish_keeps (I : world -> Prop) (is_fileobject Raw : bool) :
  (forall d w, I w -> I (set_data d w)) ->
  (is_fileobject = false -> forall w, I w -> I (closed_world w)) ->
  invariant I (finish is_fileobject Raw).
Proof.
  intros Hd Hc. unfold finish.
  apply invariant_bind; [by apply invariant_same | intros count].
  apply invariant_bind; [by apply invariant_same | intros duration].
  destruct (negb _); [by apply invariant_same |].
  apply invariant_bind.
  { destruct (negb Raw); [by apply calibration_state | by apply invariant_same]. }
  intros _. apply invariant_bind.
  { destruct is_fileobject; cbn [negb]; [by apply invariant_same |].
    apply invariant_modify. by apply Hc. }
  intros _. apply invariant_same. apply traces_state.
Qed.

(** ** The count of the frames *)

Lemma stable_numframe_le (n : Z) : stable (fun w => n <= numframe w).
Proof. constructor; intros; cbn in *; lia. Qed.

(** X12: [readFile] returns only when the duration of the file header is
    the number of frame headers the [EVT] object has read, and raises "Bad
    number of blocks" only when it is not.  The count is never reset:
    frames counted before the call stay counted.  No run stops for lack of
    loop turns. *)
Theorem readFile_checks_the_frame_count (arg : filename_or_object) (Raw : bool)
    (w : world) :
  match EVT.readFile arg Raw w with
  | (w', Ok _) =>
      HDR w' !! "duration" = Some (VInt (numframe w')) /\ numframe w <= numframe w'
  | (w', Raise err) =>
      err <> OutOfFuel /\ numframe w <= numframe w'
      /\ (err = EVTBadDataError "Bad number of blocks" ->
          exists v, HDR w' !! "duration" = Some v /\ v <> VInt (numframe w'))
  end.
Proof.
  apply (readFile_triple (fun w0 => numframe w <= numframe w0)
           (fun w0 => numframe w <= numframe w0)); try (intros; cbn; assumption || lia).
  - apply stable_numframe_le.
  - apply stable_numframe_le.
  - intros err w0 Hw He. split; [intros ->; discriminate |].
    split; [tauto | intros ->; discriminate].
  - intros w0 Hw0.
    pose proof (finish_keeps (fun w1 => numframe w <= numframe w1) (is_object arg) Raw) as Hk.
    specialize (Hk (fun d w1 H => H) (fun _ w1 H => H) w0 Hw0).
    pose proof (finish_ok (is_object arg) Raw w0) as Hok.
    pose proof (finish_raise (is_object arg) Raw w0) as Hr.
    destruct (finish (is_object arg) Raw w0) as [w' [ts | err]]; cbn [fst] in Hk.
    + split; [| exact Hk].
      destruct (Hok w' ts eq_refl) as (Hd & wc & Hcal & -> & _).
      assert (Hwc : HDR wc = HDR w0 /\ numframe wc = numframe w0).
      { destruct Raw; [by subst |].
        apply calibration_ok in Hcal as (? & ? & ? & ? & _ & _ & _ & _ & ->). by split. }
      destruct Hwc as [H1 H2].
      destruct (is_object arg); cbn; by rewrite H1, H2.
    + split; [| split; [exact Hk |]].
      * destruct (Hr w' err eq_refl) as [(-> & _) | [-> | [-> | [-> _]]]]; discriminate.
      * intros ->. destruct (Hr w' _ eq_refl) as [(_ & -> & H) | [? | [? | [? _]]]];
          [exact H | discriminate..].
Qed.

(** ** Closing the stream *)



(** ** Calibration *)

Lemma calibrate_rows_step (m : nat) (fs sens : value) (rows d : list (list sample)) :
  calibrate_rows (Z.of_nat (S m)) fs sens rows = Ok d ->
  exists d1 fbits sbits row,
    calibrate_rows (Z.of_nat m) fs sens rows = Ok d1
    /\ EVT.item fs (Z.of_nat m) = Ok (VFloat fbits)
    /\ EVT.is_zero_float fbits = false
    /\ EVT.item sens (Z.of_nat m) = Ok (VFloat sbits)
    /\ d1 !! m = Some row
    /\ d = <[m := map (fun x => Scaled x fbits sbits) row]> d1.
Proof.
  unfold calibrate_rows. rewrite seqZ_S, ofold_app. cbn [ofold]. rewrite Z.add_0_l.
  destruct (ofold (seqZ 0 (Z.of_nat m)) _ rows) as [d1 | err]; cbn [obind]; [| discriminate].
  destruct (EVT.item fs (Z.of_nat m)) as [[] | e]; cbn [obind]; try discriminate.
  destruct (EVT.is_zero_float bits) eqn:Hz; [discriminate |].
  destruct (EVT.item sens (Z.of_nat m)) as [[] | e]; cbn [obind]; try discriminate.
  rewrite Nat2Z.id. destruct (d1 !! m) as [row |] eqn:Hrow; [| discriminate].
  intros [= <-]. eauto 10.
Qed.

(** What the loop of [calibration] leaves in the rows. *)
Definition calibrated (n : Z) (fs sens : value) (rows d : list (list sample)) : Prop :=
  length d = length rows
  /\ forall i : nat,
       (Z.of_nat i < n ->
        exists fbits sbits row,
          EVT.item fs (Z.of_nat i) = Ok (VFloat fbits)
          /\ EVT.is_zero_float fbits = false
          /\ EVT.item sens (Z.of_nat i) = Ok (VFloat sbits)
          /\ rows !! i = Some row
          /\ d !! i = Some (map (fun x => Scaled x fbits sbits) row))
       /\ (n <= Z.of_nat i -> d !! i = rows !! i).

Lemma calibrate_rows_nat (m : nat) (fs sens : value) (rows d : list (list sample)) :
  calibrate_rows (Z.of_nat m) fs sens rows = Ok d ->
  calibrated (Z.of_nat m) fs sens rows d.
Proof.
  revert d. induction m as [|m IH]; intros d.
  - cbn. intros [= <-]. split; [reflexivity |]. intros i. split; [lia | reflexivity].
  - intros H. apply calibrate_rows_step in H
      as (d1 & fbits & sbits & row & H1 & Hfs & Hz & Hsens & Hrow & ->).
    destruct (IH d1 H1) as [Hlen Hrows].
    split; [by rewrite length_insert |].
    intros i. destruct (Hrows i) as [Hlt Hge]. split.
    + intros Hi. destruct (decide (i = m)) as [-> | Hne].
      * exists fbits, sbits, row. rewrite <- (proj2 (Hrows m)) by lia.
        repeat split; try assumption.
        apply list_lookup_insert_eq. by eapply lookup_lt_Some.
      * rewrite list_lookup_insert_ne by congruence. apply Hlt. lia.
    + intros Hi. rewrite list_lookup_insert_ne by lia. apply Hge. lia.
Qed.

Lemma calibrate_rows_ok (n : Z) (fs sens : value) (rows d : list (list sample)) :
  calibrate_rows n fs sens rows = Ok d -> calibrated n fs sens rows d.
Proof.
  destruct (Z_lt_le_dec n 0) as [Hneg | Hpos].
  - unfold calibrate_rows. rewrite seqZ_nil by lia. cbn. intros [= <-].
    split; [reflexivity |]. intros i. split; [lia | reflexivity].
  - rewrite <- (Z2Nat.id n) by exact Hpos. apply calibrate_rows_nat.
Qed.

(** X14: when [calibration] returns, every row [i] below [nchannels] has
    been divided once by the factor of channel [i], built from the full
    scale and the sensitivity of that channel in the file header, and the
    full scale is not zero; the other rows, the number of rows and the
    length of each row are unchanged.  Nothing but [self.data] is written. *)
Theorem calibration_scales_each_channel (w w' : world) :
  EVT.calibration w = (w', Ok tt) ->
  exists n fs sens,
    HDR w !! "nchannels" = Some (VInt n)
    /\ HDR w !! "chan_fullscale" = Some fs
    /\ HDR w !! "chan_sensitivity" = Some sens
    /\ calibrated n fs sens (data w) (data w')
    /\ w' = set_data (data w') w.
Proof.
  intros H. apply calibration_ok in H as (n & fs & sens & d & Hn & Hfs & Hsens & Hd & ->).
  exists n, fs, sens.
  split; [exact Hn |]. split; [exact Hfs |]. split; [exact Hsens |].
  split; [by apply calibrate_rows_ok | reflexivity].
Qed.

Lemma calibration_scales_each_channel_witness :
  exists n fs sens,
    HDR (EVT.readFile FileObject true (stream_world (two_frames 2))).1 !! "nchannels"
    = Some (VInt n)
    /\ HDR (EVT.readFile FileObject true (stream_world (two_frames 2))).1 !! "chan_fullscale"
       = Some fs
    /\ HDR (EVT.readFile FileObject true (stream_world (two_frames 2))).1
         !! "chan_sensitivity" = Some sens
    /\ calibrated n fs sens
         (data (EVT.readFile FileObject true (stream_world (two_frames 2))).1)
         (data (EVT.calibration
                  (EVT.readFile FileObject true (stream_world (two_frames 2))).1).1)
    /\ (EVT.calibration (EVT.readFile FileObject true (stream_world (two_frames 2))).1).1
       = set_data
           (data (EVT.calibration
                    (EVT.readFile FileObject true (stream_world (two_frames 2))).1).1)
           (EVT.readFile FileObject true (stream_world (two_frames 2))).1.
Proof.
  apply (calibration_scales_each_channel
           (EVT.readFile FileObject true (stream_world (two_frames 2))).1
           (EVT.calibration
              (EVT.readFile FileObject true (stream_world (two_frames 2))).1).1).
  rewrite (surjective_pairing (EVT.calibration _)) at 1.
  apply (f_equal (pair _)). vm_compute. reflexivity.
Defined.

(** ** The traces *)

Lemma omap_ok {A B} (f : A -> outcome B) (l : list A) (r : list B) :
  omap f l = Ok r -> Forall2 (fun x y => f x = Ok y) l r.
Proof.
  revert r. induction l as [|x l IH]; intros r; cbn.
  - intros [= <-]. constructor.
  - destruct (f x) as [y | e] eqn:E; cbn; [| discriminate].
    destruct (omap f l) as [ys | e]; cbn; [| discriminate].
    intros [= <-]. constructor; [exact E | by apply IH].
Qed.

Lemma trace_of_ok (w : world) (i : Z) (t : Trace) :
  trace_of w i = Ok t ->
  tr_channel t = i
  /\ data w !! Z.to_nat i = Some (tr_data t)
  /\ tr_sampling_rate t = samplingrate w
  /\ HDR w !! "starttime" = Some (tr_starttime t)
  /\ EVT_HEADER.makeobspydico i (HDR w) = Ok (tr_kinemetrics_evt t).
Proof.
  unfold trace_of, getattr.
  destruct (data w !! Z.to_nat i) as [row |]; cbn [obind]; [| discriminate].
  destruct (HDR w !! "stnid") as [stnid |]; cbn [obind]; [| discriminate].
  destruct (match stnid with
            | VText b | VBytes b => Ok (filter (fun x => Byte.eqb x x00 = false) b)
            | _ => Raise TypeError
            end) as [station | e]; cbn [obind]; [| discriminate].
  destruct (HDR w !! "starttime") as [starttime |]; cbn [obind]; [| discriminate].
  destruct (EVT_HEADER.makeobspydico i (HDR w)) as [dico | e]; cbn [obind]; [| discriminate].
  intros [= <-]. cbn. auto.
Qed.

Lemma traces_ok (w w' : world) (ts : list Trace) :
  EVT.traces w = (w', Ok ts) ->
  exists n,
    HDR w !! "nchannels" = Some (VInt n)
    /\ length ts = Z.to_nat n
    /\ forall (i : nat) t, ts !! i = Some t -> trace_of w (Z.of_nat i) = Ok t.
Proof.
  rewrite traces_run. destruct (HDR w !! "nchannels") as [[n | | | | | | | |] |];
    try discriminate.
  intros [= _ H]. apply omap_ok in H. exists n. split; [reflexivity |].
  split; [by rewrite <- (Forall2_length _ _ _ H), length_seqZ |].
  intros i t Hi.
  destruct (Forall2_lookup_r _ _ _ _ _ H Hi) as (x & Hx & Hf).
  apply lookup_seqZ in Hx as [-> _]. by rewrite Z.add_0_l in Hf.
Qed.

(** The sample matrix has a row per channel of the file header, and its rows
    have one length. *)
Definition matrix (w : world) : Prop :=
  exists n L,
    HDR w !! "nchannels" = Some (VInt n)
    /\ length (data w) = Z.to_nat n
    /\ rectangular L (data w).

Lemma stable_matrix : stable matrix.
Proof.
  constructor; try (intros; assumption).
  intros w datal d k (n & L & Hn & Hlen & Hrect) Hk Hh. exists n, (L + k)%nat.
  cbn. split; [exact Hn |]. split.
  - apply hstack_ok in Hh as (_ & _ & -> & _). exact Hlen.
  - by eapply hstack_rectangular.
Qed.

Lemma calibrated_rectangular (n : Z) (fs sens : value) (rows d : list (list sample))
    (L : nat) :
  calibrated n fs sens rows d -> rectangular L rows -> rectangular L d.
Proof.
  intros [Hlen Hrows] Hrect. apply Forall_lookup. intros i row Hi.
  destruct (Hrows i) as [Hlt Hge].
  destruct (Z_lt_le_dec (Z.of_nat i) n) as [Hin | Hout].
  - destruct (Hlt Hin) as (fbits & sbits & row0 & _ & _ & _ & Hr & Hd).
    rewrite Hd in Hi. injection Hi as <-. rewrite length_map.
    eapply (proj1 (Forall_lookup _ _) Hrect), Hr.
  - rewrite (Hge Hout) in Hi. eapply (proj1 (Forall_lookup _ _) Hrect), Hi.
Qed.

Lemma finish_matrix (is_fileobject Raw : bool) (w w' : world) (ts : list Trace) :
  matrix w -> finish is_fileobject Raw w = (w', Ok ts) -> matrix w'.
Proof.
  intros (n & L & Hn & Hlen & Hrect) H.
  apply finish_ok in H as (_ & wc & Hcal & -> & _).
  assert (Hwc : matrix wc).
  { destruct Raw; [subst; by exists n, L |].
    apply calibration_ok in Hcal as (n' & fs & sens & d & _ & _ & _ & Hd & ->).
    apply calibrate_rows_ok in Hd. exists n, L. cbn.
    split; [exact Hn |]. split; [by rewrite (proj1 Hd) |].
    by eapply calibrated_rectangular. }
  by destruct is_fileobject.
Qed.

(** X15: when [readFile] returns, it returns one trace per channel of the
    file header, in channel order; trace [i] carries row [i] of the sample
    matrix, the channel number [i], the sampling rate stored by the loop,
    the start time of the header and the header dictionary of channel [i];
    and all traces have the same number of samples. *)
Theorem readFile_returns_a_trace_per_channel (arg : filename_or_object) (Raw : bool)
    (w : world) :
  match EVT.readFile arg Raw w with
  | (w', Ok ts) =>
      exists n L,
        HDR w' !! "nchannels" = Some (VInt n)
        /\ length ts = Z.to_nat n
        /\ length (data w') = Z.to_nat n
        /\ forall (i : nat) t, ts !! i = Some t ->
             tr_channel t = Z.of_nat i
             /\ data w' !! i = Some (tr_data t)
             /\ length (tr_data t) = L
             /\ tr_sampling_rate t = samplingrate w'
             /\ HDR w' !! "starttime" = Some (tr_starttime t)
             /\ EVT_HEADER.makeobspydico (Z.of_nat i) (HDR w') = Ok (tr_kinemetrics_evt t)
  | (_, Raise _) => True
  end.
Proof.
  apply (readFile_triple (fun _ => True) matrix arg Raw
           (fun ts w' =>
              exists n L,
                HDR w' !! "nchannels" = Some (VInt n)
                /\ length ts = Z.to_nat n
                /\ length (data w') = Z.to_nat n
                /\ forall (i : nat) t, ts !! i = Some t ->
                     tr_channel t = Z.of_nat i
                     /\ data w' !! i = Some (tr_data t)
                     /\ length (tr_data t) = L
                     /\ tr_sampling_rate t = samplingrate w'
                     /\ HDR w' !! "starttime" = Some (tr_starttime t)
                     /\ EVT_HEADER.makeobspydico (Z.of_nat i) (HDR w')
                        = Ok (tr_kinemetrics_evt t))
           (fun _ _ => True)); auto.
  - apply stable_True.
  - intros w0 n _ Hn. exists n, 0%nat. cbn. split; [exact Hn |].
    split; [apply length_replicate |]. by apply Forall_replicate.
  - apply stable_matrix.
  - intros w0 Hw0.
    pose proof (finish_matrix (is_object arg) Raw w0) as Hm.
    pose proof (finish_ok (is_object arg) Raw w0) as Hok.
    destruct (finish (is_object arg) Raw w0) as [w' [ts | err]]; [| exact I].
    destruct (Hm w' ts Hw0 eq_refl) as (n & L & Hn & Hlen & Hrect).
    destruct (Hok w' ts eq_refl) as (_ & wc & _ & _ & Htr).
    apply traces_ok in Htr as (n' & Hn' & Hts & Hall).
    assert (n' = n) by congruence. subst n'.
    exists n, L. repeat (split; [assumption |]).
    intros i t Hi. apply Hall, trace_of_ok in Hi as (H1 & H2 & H3 & H4 & H5).
    rewrite Nat2Z.id in H2.
    repeat (split; [assumption |]). split; [| auto].
    eapply (proj1 (Forall_lookup _ _) Hrect), H2.
Qed.

(** ** Raw samples *)

Definition is_count (s : sample) : Prop :=
  match s with Count _ => True | Scaled _ _ _ => False end.

Definition counts (w : world) : Prop := Forall (Forall is_count) (data w).

Lemma stable_counts : stable counts.
Proof.
  constructor; try (intros; assumption).
  intros w datal d k Hc _ Hh. apply hstack_ok in Hh as (_ & _ & _ & ->).
  unfold counts in *. cbn. revert datal.
  induction Hc as [|row data Hrow Hd IH]; intros datal; [constructor |].
  destruct datal as [|new datal]; [constructor |].
  cbn. constructor; [| apply IH].
  apply Forall_app. split; [exact Hrow |]. apply Forall_fmap, Forall_forall. by intros.
Qed.

(** X16: with [Raw=True] every sample [readFile] returns is a count as
    the data block reader decoded it: [readFile] applies no scaling, in any
    frame, to any channel. *)
Theorem raw_samples_are_counts (arg : filename_or_object) (w : world) :
  match EVT.readFile arg true w with
  | (_, Ok ts) => Forall (fun t => Forall is_count (tr_data t)) ts
  | (_, Raise _) => True
  end.
Proof.
  apply (readFile_triple (fun _ => True) counts arg true
           (fun ts _ => Forall (fun t => Forall is_count (tr_data t)) ts)
           (fun _ _ => True)); auto.
  - apply stable_True.
  - intros w0 n _ _. unfold counts. cbn. by apply Forall_replicate.
  - apply stable_counts.
  - intros w0 Hw0.
    pose proof (finish_ok (is_object arg) true w0) as Hok.
    destruct (finish (is_object arg) true w0) as [w' [ts | err]]; [| exact I].
    destruct (Hok w' ts eq_refl) as (_ & wc & -> & -> & Htr).
    apply traces_ok in Htr as (n & _ & _ & Hall).
    apply Forall_lookup. intros i t Hi.
    apply Hall, trace_of_ok in Hi as (_ & H2 & _).
    assert (Hd : data (if is_object arg then w0 else closed_world w0) = data w0)
      by (by destruct (is_object arg)).
    rewrite Hd in H2. eapply (proj1 (Forall_lookup _ _) Hw0), H2.
Qed.

(** ** A stream without a first tag *)

(** X17: the first tag is read outside the [try]: on an open stream that
    holds fewer than 16 bytes (an empty file), or starts with a null byte,
    [readFile] raises [EVTEOFError] instead of returning an empty result; on
    a closed stream it raises [ValueError] and changes nothing; for the name
    of a file that does not exist it raises the [IOError] of [open]. *)
Theorem readFile_without_a_first_tag (Raw : bool) (w : world) :
  (f_closed (fp w) = true -> EVT.readFile FileObject Raw w = (w, Raise ValueError))
  /\ (f_closed (fp w) = false ->
      (length (next_bytes 16 w) < 16)%nat \/ nth 0 (next_bytes 16 w) x00 = x00 ->
      EVT.readFile FileObject Raw w
      = (advance (length (next_bytes 16 w)) w, Raise EVTEOFError))
  /\ (forall name, files w !! name = None ->
        EVT.readFile (FileName name) Raw w = (w, Raise IOError)).
Proof.
  split; [| split].
  - intros Hc. rewrite readFile_object. unfold decode. rewrite bind_unfold, tag_read_run.
    unfold tag_read_result. by rewrite Hc.
  - intros Hopen Hend. rewrite readFile_object. unfold decode.
    rewrite bind_unfold, tag_read_run. unfold tag_read_result. rewrite Hopen. cbv zeta.
    destruct (Nat.ltb_spec (length (next_bytes 16 w)) 16) as [Hlt | Hge]; [reflexivity |].
    destruct Hend as [Hlt | H0]; [lia |]. by rewrite H0.
  - intros name Hn. by rewrite readFile_name, Hn.
Qed.

Lemma readFile_without_a_first_tag_witness :
  EVT.readFile FileObject false (stream_world [])
  = (advance (length (next_bytes 16 (stream_world []))) (stream_world []),
     Raise EVTEOFError).
Proof.
  apply (proj1 (proj2 (readFile_without_a_first_tag false (stream_world [])))).
  - reflexivity.
  - left. cbn. lia.
Defined.

(** ** A data block cut short *)

Lemma sample_val_short (numbyte : Z) (buff : list byte) (i : Z) :
  numbyte = 2 \/ numbyte = 3 \/ numbyte = 4 ->
  0 <= i ->
  Z.of_nat (length buff) < (i + 1) * numbyte ->
  EVT_DATA.sample_val numbyte buff i = Raise StructError.
Proof.
  intros Hnb Hi Hlen. unfold EVT_DATA.sample_val.
  assert (Hs : forall n : nat, Z.of_nat n = numbyte ->
             (length (slice buff (Z.to_nat (i * numbyte)) n) < n)%nat).
  { intros n Hn. unfold slice. rewrite length_take, length_drop. lia. }
  destruct Hnb as [-> | [-> | ->]]; cbn [Z.eqb Pos.eqb].
  - pose proof (Hs 2%nat eq_refl).
    rewrite unpack_be_i_short by (rewrite length_app; cbn; lia). reflexivity.
  - pose proof (Hs 3%nat eq_refl).
    rewrite unpack_be_i_short by (rewrite length_app; cbn; lia). reflexivity.
  - pose proof (Hs 4%nat eq_refl).
    rewrite unpack_be_i_short by lia. reflexivity.
Qed.

Lemma sample_val_struct_error (numbyte : Z) (buff : list byte) (i : Z) (err : exn) :
  numbyte = 2 \/ numbyte = 3 \/ numbyte = 4 ->
  EVT_DATA.sample_val numbyte buff i = Raise err -> err = StructError.
Proof.
  intros Hnb H. destruct (sample_val_errors _ _ _ _ H) as [-> | ->]; [reflexivity |].
  exfalso. revert H. unfold EVT_DATA.sample_val.
  destruct Hnb as [-> | [-> | ->]]; cbn [Z.eqb Pos.eqb];
    destruct (EVT_DATA.unpack_be_i _) eqn:E; cbn; try discriminate;
    intros [= ->];
    match goal with H : EVT_DATA.unpack_be_i ?s = _ |- _ =>
      destruct (decide (length s = 4%nat)) as [H4 | H4];
      [rewrite unpack_be_i_ok in H by exact H4 | rewrite unpack_be_i_short in H by exact H4];
      discriminate
    end.
Qed.

Lemma unpack_block_struct_error (samplerate numbyte numchan : Z) (buff : list byte)
    (err : exn) :
  numbyte = 2 \/ numbyte = 3 \/ numbyte = 4 ->
  EVT_DATA.unpack_block samplerate numbyte numchan buff = Raise err -> err = StructError.
Proof.
  intros Hnb. unfold EVT_DATA.unpack_block.
  apply (ofold_errors (fun err => err = StructError)). intros j dat err'.
  apply (ofold_errors (fun err => err = StructError)). intros k dat' err''.
  destruct (EVT_DATA.sample_val numbyte _ _) eqn:Es; cbn; [discriminate |].
  intros [= <-]. eapply sample_val_struct_error; eassumption.
Qed.

(** X18: a data block whose declared length passes the length check but
    whose samples are not all in the stream (the file ends inside the
    block) makes [EVT_DATA.read] raise [struct.error]: the end of the file
    inside a data block is not taken for the end of the recording. *)
Theorem truncated_data_block (w : world) (length : Z) (e : endian)
    (rate numbyte : Z) (blocktime : value) (numchan : Z) :
  f_closed (fp w) = false ->
  frame_geometry rate numbyte numchan ->
  PyFloat.int_eqb length (EVT_DATA.expected_num rate numbyte numchan) = true ->
  Z.of_nat (remaining w) < rate / 10 * numchan * numbyte ->
  snd (EVT_DATA.read length e (rate, numbyte, blocktime, numchan) w) = Raise StructError.
Proof.
  intros Hopen Hgeo Heq Hshort. rewrite data_read_run. unfold data_read_result.
  rewrite Hopen. cbv zeta. rewrite Heq. cbn [negb snd].
  destruct Hgeo as (Hsr & Hnb & Hnc).
  set (buff := read_bytes length w).
  assert (Hbuff : (List.length buff <= remaining w)%nat).
  { unfold buff, read_bytes, remaining. destruct (length <? 0).
    - by rewrite length_drop.
    - rewrite length_take, length_drop. lia. }
  assert (Hn : 0 < rate / 10 * numchan) by nia.
  destruct (EVT_DATA.unpack_block rate numbyte numchan buff) as [d | err] eqn:E.
  - exfalso.
    destruct (unpack_block_all_ok _ _ _ _ _ (proj1 Hnc) E (rate / 10 * numchan - 1))
      as [v Hv]; [lia |].
    rewrite sample_val_short in Hv; [discriminate | exact Hnb | lia | nia].
  - f_equal. eapply unpack_block_struct_error; eassumption.
Qed.

Lemma truncated_data_block_witness :
  snd (EVT_DATA.read 8 Big (20, 2, VNone, 2) (stream_world (zeros 5))) = Raise StructError.
Proof.
  apply (truncated_data_block (stream_world (zeros 5)) 8 Big 20 2 VNone 2).
  - reflexivity.
  - unfold frame_geometry. lia.
  - vm_compute. reflexivity.
  - vm_compute. reflexivity.
Defined.

(** ** The file header, whatever its bytes *)

(** The shape of a value: its kind, and for a list its length. *)
Definition shape (v : value) : value :=
  match v with
  | VInt _ => VInt 0
  | VBytes _ => VBytes []
  | VFloat _ => VFloat 0
  | VText _ => VText []
  | VStr _ => VStr ""
  | VTime _ _ => VTime 0 0
  | VInstrument _ => VInstrument 0
  | VList l => VList (replicate (length l) VNone)
  | VNone => VNone
  end.

Definition field_shape (kv : string * value) : string * value := (kv.1, shape kv.2).

Lemma shape_list_inv (v : value) (r : list value) :
  shape v = VList r -> exists l, v = VList l /\ length l = length r.
Proof.
  destruct v; try discriminate. intros [= <-]. eexists. split; [reflexivity |].
  by rewrite length_replicate.
Qed.

Lemma decode1_shape (e : endian) (c : fcode) (bs bs' : list byte) :
  shape (decode1 e c bs) = shape (decode1 e c bs').
Proof. by destruct c. Qed.

Lemma decode_repeat_shape (e : endian) (c : fcode) (n : nat) (bs bs' : list byte) :
  map shape (decode_repeat e c n bs) = map shape (decode_repeat e c n bs').
Proof.
  revert bs bs'. induction n as [|n IH]; intros bs bs'; cbn; [reflexivity |].
  f_equal; [apply decode1_shape | apply IH].
Qed.

Lemma decode_items_shape (e : endian) (items : list (nat * fcode)) (bs bs' : list byte) :
  map shape (decode_items e items bs) = map shape (decode_items e items bs').
Proof.
  revert bs bs'. induction items as [|[n c] items IH]; intros bs bs'; cbn; [reflexivity |].
  rewrite !map_app. f_equal; [| apply IH].
  destruct c; try apply decode_repeat_shape; reflexivity.
Qed.

Lemma val_at_shape (val val' : list value) (i : Z) :
  map shape val = map shape val' ->
  outcome_map shape (val_at val i) = outcome_map shape (val_at val' i).
Proof.
  intros H. unfold val_at. destruct (i <? 0); [reflexivity |].
  pose proof (f_equal (fun l => l !! Z.to_nat i) H) as Hi. cbv beta in Hi.
  change (map shape val) with (shape <$> val) in Hi.
  change (map shape val') with (shape <$> val') in Hi.
  rewrite !list_lookup_fmap in Hi.
  destruct (val !! Z.to_nat i), (val' !! Z.to_nat i); cbn in *; congruence.
Qed.

Lemma omap_val_at_length (val val' : list value) (g : Z -> Z) (l : list Z) :
  map shape val = map shape val' ->
  outcome_map length (omap (fun i => val_at val (g i)) l)
  = outcome_map length (omap (fun i => val_at val' (g i)) l).
Proof.
  intros H. induction l as [|x l IH]; [reflexivity |]. cbn [omap].
  pose proof (val_at_shape val val' (g x) H) as Hx.
  destruct (val_at val (g x)), (val_at val' (g x)); cbn in Hx; try discriminate;
    cbn [obind].
  - destruct (omap _ l), (omap _ l); cbn in *; congruence.
  - by injection Hx as ->.
Qed.

Lemma apply_transform_shape (t : transform) (raw raw' : value) (val val' : list value)
    (offset : Z) :
  shape raw = shape raw' -> map shape val = map shape val' ->
  outcome_map shape (apply_transform t raw val offset)
  = outcome_map shape (apply_transform t raw' val' offset).
Proof.
  intros Hraw Hval. destruct t; cbn [apply_transform].
  - cbn. by f_equal.
  - destruct raw, raw'; try discriminate; reflexivity.
  - destruct raw, raw'; try discriminate; reflexivity.
  - unfold _time. destruct (param =? -1); [cbn; by f_equal |].
    destruct raw, raw'; try discriminate; try reflexivity. cbn [as_int obind].
    pose proof (val_at_shape val val' (param - offset) Hval) as Hc.
    destruct (val_at val (param - offset)) as [c |], (val_at val' (param - offset)) as [c' |];
      cbn in Hc; try discriminate; cbn [obind]; [| by injection Hc as ->].
    injection Hc as Hc. destruct c, c'; try discriminate; reflexivity.
  - destruct raw, raw'; try discriminate; reflexivity.
  - unfold _array.
    pose proof (omap_val_at_length val val' (fun i => base + i * stride - offset)
                  (seqZ 0 size) Hval) as Hl.
    destruct (omap _ _), (omap _ _); cbn in *; congruence.
  - unfold _arraynull.
    pose proof (omap_val_at_length val val' (fun i => base + i * stride - offset)
                  (seqZ 0 size) Hval) as Hl.
    destruct (omap _ _), (omap _ _); cbn in *; try congruence.
    rewrite !length_map. congruence.
Qed.

Lemma updates_shape (HEADER : schema) (val val' : list value) (offset : Z) :
  map shape val = map shape val' ->
  map field_shape (updates HEADER val offset).1
  = map field_shape (updates HEADER val' offset).1
  /\ (updates HEADER val offset).2 = (updates HEADER val' offset).2.
Proof.
  intros H. assert (Hlen : length val = length val').
  { by rewrite <- (length_map shape val), H, length_map. }
  induction HEADER as [|[key [pos t]] rest IH]; cbn [updates]; [by split |].
  rewrite Hlen. destruct (_ && _); [| exact IH].
  pose proof (val_at_shape val val' (pos - offset) H) as Hraw.
  destruct (val_at val (pos - offset)) as [raw |], (val_at val' (pos - offset)) as [raw' |];
    cbn in Hraw; try discriminate; cbn [obind].
  2: { by injection Hraw as ->. }
  injection Hraw as Hraw.
  pose proof (apply_transform_shape t raw raw' val val' offset Hraw H) as Ht.
  destruct (apply_transform t raw val offset) as [v |],
           (apply_transform t raw' val' offset) as [v' |]; cbn in Ht; try discriminate.
  - injection Ht as Ht.
    destruct (updates rest val offset) as [us o], (updates rest val' offset) as [us' o'].
    cbn in *. destruct IH as [IH1 IH2]. split; [| exact IH2].
    unfold field_shape at 1 3. cbn. by rewrite Ht, IH1.
  - by injection Ht as ->.
Qed.

Lemma header_pass_shape (e : endian) (fmt : string) (buff buff' : list byte)
    (lo n : nat) (offset : Z) :
  length (slice buff lo n) = length (slice buff' lo n) ->
  map field_shape (header_pass e fmt buff lo n offset).1
  = map field_shape (header_pass e fmt buff' lo n offset).1
  /\ (header_pass e fmt buff lo n offset).2 = (header_pass e fmt buff' lo n offset).2.
Proof.
  intros Hlen. unfold header_pass, unpack.
  destruct (split_order _) as [e' body]. destruct (parse body None) as [items |];
    [| by split].
  rewrite Hlen. destruct (_ =? _)%nat; [| by split].
  apply updates_shape, decode_items_shape.
Qed.

Lemma header_pass_short (e : endian) (fmt : string) (items : list (nat * fcode))
    (buff : list byte) (lo n : nat) (offset : Z) :
  parse fmt None = Some items ->
  calcsize items = n ->
  length (slice buff lo n) <> n ->
  header_pass e fmt buff lo n offset = ([], Raise StructError).
Proof.
  intros Hp Hsize Hlen. unfold header_pass.
  rewrite (unpack_parsed _ fmt e items) by (apply split_order_prefix || exact Hp).
  rewrite Hsize.
  destruct (Nat.eqb_spec n (length (slice buff lo n))) as [Heq | Hne]; [| reflexivity].
  congruence.
Qed.

(** The fields the four passes store, with the shapes of their values. *)
Definition header_shapes : list (string * value) :=
  [("instrument", VInstrument 0); ("a2dbits", VInt 0); ("samplebytes", VInt 0);
   ("installedchan", VInt 0); ("maxchannels", VInt 0); ("batteryvoltage", VInt 0);
   ("temperature", VInt 0); ("gpsstatus", VStr ""); ("gpslastlock", VInt 0);
   ("starttime", VTime 0 0); ("triggertime", VTime 0 0); ("duration", VInt 0);
   ("nscans", VInt 0); ("serialnumber", VInt 0); ("nchannels", VInt 0);
   ("stnid", VText []); ("comment", VText []); ("elevation", VInt 0);
   ("latitude", VFloat 0); ("longitude", VFloat 0);
   ("chan_id", VList (replicate 12 VNone)); ("chan_north", VList (replicate 12 VNone));
   ("chan_east", VList (replicate 12 VNone)); ("chan_up", VList (replicate 12 VNone));
   ("chan_azimuth", VList (replicate 12 VNone)); ("chan_gain", VList (replicate 12 VNone));
   ("chan_fullscale", VList (replicate 12 VNone));
   ("chan_sensitivity", VList (replicate 12 VNone));
   ("chan_damping", VList (replicate 12 VNone));
   ("chan_natfreq", VList (replicate 12 VNone));
   ("chan_calcoil", VList (replicate 12 VNone));
   ("chan_range", VList (replicate 12 VNone));
   ("chan_sensorgain", VList (replicate 12 VNone))].

Lemma header_updates_zeros (e : endian) :
  map field_shape (header_updates e (zeros 1624)).1 = header_shapes
  /\ (header_updates e (zeros 1624)).2 = Ok tt.
Proof. destruct e; split; vm_compute; reflexivity. Qed.

Lemma slice_length (buff : list byte) (lo n : nat) :
  length (slice buff lo n) = Nat.min n (length buff - lo).
Proof. unfold slice. by rewrite length_take, length_drop. Qed.

Lemma then_updates_shape (p q p' q' : list (string * value) * outcome unit) :
  map field_shape p.1 = map field_shape p'.1 -> p.2 = p'.2 ->
  map field_shape q.1 = map field_shape q'.1 -> q.2 = q'.2 ->
  map field_shape (then_updates p q).1 = map field_shape (then_updates p' q').1
  /\ (then_updates p q).2 = (then_updates p' q').2.
Proof.
  intros Hp1 Hp2 Hq1 Hq2. unfold then_updates. rewrite <- Hp2.
  destruct p.2; cbn; [| by split]. by rewrite !map_app, Hp1, Hq1.
Qed.

(** The header reader uses the first 1624 bytes only, and does not fail on
    any content. *)
Lemma header_updates_full (e : endian) (buff : list byte) :
  (1624 <= length buff)%nat ->
  map field_shape (header_updates e buff).1 = header_shapes
  /\ (header_updates e buff).2 = Ok tt.
Proof.
  intros Hlen. destruct (header_updates_zeros e) as [<- <-].
  unfold header_updates.
  repeat apply then_updates_shape;
    apply header_pass_shape; rewrite !slice_length; unfold zeros;
    rewrite length_replicate; lia.
Qed.

Lemma then_updates_raise (p q : list (string * value) * outcome unit) (err : exn) :
  p.2 = Raise err -> (then_updates p q).2 = Raise err.
Proof. intros H. unfold then_updates. by rewrite H. Qed.

Lemma then_updates_next (p q : list (string * value) * outcome unit) :
  p.2 = Ok tt -> (then_updates p q).2 = q.2.
Proof. intros H. unfold then_updates. by rewrite H. Qed.

Lemma header_pass_full (e : endian) (fmt : string) (buff : list byte) (lo n : nat)
    (offset : Z) :
  (header_pass e fmt (zeros 1624) lo n offset).2 = Ok tt ->
  (lo + n <= 1624)%nat -> (lo + n <= length buff)%nat ->
  (header_pass e fmt buff lo n offset).2 = Ok tt.
Proof.
  intros Hz H1 H2. rewrite <- Hz. apply header_pass_shape.
  rewrite !slice_length. unfold zeros. rewrite length_replicate. lia.
Qed.

Lemma header_updates_short (e : endian) (buff : list byte) :
  (length buff < 1624)%nat -> (header_updates e buff).2 = Raise StructError.
Proof.
  intros Hlen. unfold header_updates.
  assert (Hz1 : (header_pass e HEADER_STRUCT1 (zeros 1624) 0 124 0).2 = Ok tt)
    by (destruct e; vm_compute; reflexivity).
  assert (Hz2 : (header_pass e HEADER_STRUCT2 (zeros 1624) 124 432 35).2 = Ok tt)
    by (destruct e; vm_compute; reflexivity).
  assert (Hz3 : (header_pass e HEADER_STRUCT3 (zeros 1624) 556 156 107).2 = Ok tt)
    by (destruct e; vm_compute; reflexivity).
  destruct (le_lt_dec 124 (length buff)) as [H1 | H1].
  2: { apply then_updates_raise.
       erewrite header_pass_short; [reflexivity | vm_compute; reflexivity | reflexivity |].
       rewrite slice_length. lia. }
  rewrite then_updates_next by (apply header_pass_full; [exact Hz1 | lia | lia]).
  destruct (le_lt_dec 556 (length buff)) as [H2 | H2].
  2: { apply then_updates_raise.
       erewrite header_pass_short; [reflexivity | vm_compute; reflexivity | reflexivity |].
       rewrite slice_length. lia. }
  rewrite then_updates_next by (apply header_pass_full; [exact Hz2 | lia | lia]).
  destruct (le_lt_dec 712 (length buff)) as [H3 | H3].
  2: { apply then_updates_raise.
       erewrite header_pass_short; [reflexivity | vm_compute; reflexivity | reflexivity |].
       rewrite slice_length. lia. }
  rewrite then_updates_next by (apply header_pass_full; [exact Hz3 | lia | lia]).
  erewrite header_pass_short; [reflexivity | vm_compute; reflexivity | reflexivity |].
  rewrite slice_length. lia.
Qed.

Lemma find_update_shape (us : list (string * value)) (key : string) :
  find_update (map field_shape us) key = shape <$> find_update us key.
Proof.
  induction us as [|[k v] us IH]; [reflexivity |]. cbn [map find_update field_shape fst snd].
  rewrite IH. destruct (find_update us key); cbn; [reflexivity |].
  by destruct (String.eqb k key).
Qed.

Definition is_per_channel (t : transform) : bool :=
  match t with
  | T_array _ _ _ | T_arraynull _ _ _ => true
  | _ => false
  end.

(** A stored value fits its field: a list of twelve entries for a
    per-channel field, a single value otherwise. *)
Definition fits (t : transform) (v : value) : Prop :=
  if is_per_channel t then exists l, v = VList l /\ length l = 12%nat
  else forall l, v <> VList l.

Lemma header_shapes_fit :
  forallb (fun '(key, (_, t)) =>
             match find_update header_shapes key with
             | Some (VList l) => is_per_channel t && (length l =? 12)%nat
             | Some _ => negb (is_per_channel t)
             | None => false
             end) EVT_HEADER_HEADER = true.
Proof. vm_compute. reflexivity. Qed.

(** X19: [EVT_HEADER.read] with length 2040 on an open stream succeeds
    whenever at least 1624 bytes are left, whatever they are: no content
    makes the header reader fail, and the bytes from 1624 on are not used.
    Every field of the header table is then stored, the per-channel ones as
    lists of twelve entries.  With fewer than 1624 bytes left it raises
    [struct.error]. *)
Theorem header_read_2040 (w : world) (e : endian) :
  f_closed (fp w) = false ->
  let r := EVT_HEADER.read 2040 e w in
  ((1624 <= length (read_bytes 2040 w))%nat ->
   r.2 = Ok tt
   /\ forall key pos t, (key, (pos, t)) ∈ EVT_HEADER_HEADER ->
        exists v, HDR r.1 !! key = Some v /\ fits t v)
  /\ ((length (read_bytes 2040 w) < 1624)%nat -> r.2 = Raise StructError).
Proof.
  intros Hopen r. unfold r. rewrite header_read_run. unfold header_read_result.
  rewrite Hopen. cbv zeta. cbn [Z.eqb Pos.eqb fst snd]. split.
  - intros Hlen. destruct (header_updates_full e _ Hlen) as [Hsh Hok].
    split; [exact Hok |]. intros key pos t Hin.
    cbn [HDR set_HDR]. rewrite apply_updates_lookup.
    pose proof (find_update_shape (header_updates e (read_bytes 2040 w)).1 key) as Hf.
    rewrite Hsh in Hf.
    pose proof (proj1 (forallb_forall _ _) header_shapes_fit (key, (pos, t))
                  (proj1 (list_elem_of_In _ _) Hin)) as Hfit.
    cbv beta iota in Hfit. rewrite Hf in Hfit.
    destruct (find_update (header_updates e (read_bytes 2040 w)).1 key) as [v |];
      [| discriminate].
    exists v. split; [reflexivity |]. unfold fits. cbn [fmap option_fmap option_map] in Hfit.
    destruct (shape v) as [| | | | | | | r0 |] eqn:Hs.
    all: try (apply negb_true_iff in Hfit; rewrite Hfit;
              intros l ->; discriminate).
    apply andb_true_iff in Hfit as [-> Hl%Nat.eqb_eq].
    apply shape_list_inv in Hs as (l & -> & Hlen'). exists l. split; [reflexivity | lia].
  - intros Hlen. by apply header_updates_short.
Qed.

Lemma header_read_2040_witness :
  let r := EVT_HEADER.read 2040 Big (stream_world (header_block Big 12 2)) in
  ((1624 <= length (read_bytes 2040 (stream_world (header_block Big 12 2))))%nat ->
   r.2 = Ok tt
   /\ forall key pos t, (key, (pos, t)) ∈ EVT_HEADER_HEADER ->
        exists v, HDR r.1 !! key = Some v /\ fits t v)
  /\ ((length (read_bytes 2040 (stream_world (header_block Big 12 2))) < 1624)%nat ->
      r.2 = Raise StructError).
Proof.
  apply (header_read_2040 (stream_world (header_block Big 12 2)) Big). reflexivity.
Defined.

(** ** Where the header fields come from *)

Lemma updates_keys (HEADER : schema) (val : list value) (offset : Z) (key : string) :
  key ∉ HEADER.*1 -> find_update (updates HEADER val offset).1 key = None.
Proof.
  induction HEADER as [|[k [pos t]] rest IH]; cbn [updates fmap list_fmap fst];
    [reflexivity |].
  intros Hk. apply not_elem_of_cons in Hk as [Hne Hk].
  destruct (_ && _); [| by apply IH].
  destruct (let+ raw := _ in _) as [v | e]; [| reflexivity].
  specialize (IH Hk). destruct (updates rest val offset) as [us o].
  cbn [fst find_update] in *. rewrite IH.
  destruct (String.eqb_spec k key); [congruence | reflexivity].
Qed.

(** The value a completed pass of [setdico] leaves in a field whose
    position falls in the values unpacked. *)
Lemma updates_lookup (HEADER : schema) (val : list value) (offset : Z)
    (key : string) (pos : Z) (t : transform) :
  NoDup HEADER.*1 ->
  (key, (pos, t)) ∈ HEADER ->
  0 <= pos - offset < Z.of_nat (length val) ->
  (updates HEADER val offset).2 = Ok tt ->
  exists v,
    (let+ raw := val_at val (pos - offset) in apply_transform t raw val offset) = Ok v
    /\ find_update (updates HEADER val offset).1 key = Some v.
Proof.
  intros Hnd Hin Hrange.
  induction HEADER as [|[k [p t']] rest IH]; [by apply not_elem_of_nil in Hin |].
  cbn [fmap list_fmap fst] in Hnd. apply NoDup_cons in Hnd as [Hk Hnd].
  cbn [updates].
  apply elem_of_cons in Hin as [[= <- <- <-] | Hin].
  - rewrite (proj2 (andb_true_iff _ _)) by (split; [apply Z.leb_le | apply Z.ltb_lt]; lia).
    destruct (let+ raw := _ in _) as [v | e]; [| discriminate].
    pose proof (updates_keys rest val offset key Hk) as Hnone.
    destruct (updates rest val offset) as [us o]. cbn [fst snd find_update] in *.
    intros _. exists v. split; [reflexivity |].
    by rewrite Hnone, String.eqb_refl.
  - assert (Hne : k <> key).
    { intros ->. apply Hk. apply list_elem_of_fmap. by exists (key, (pos, t)). }
    destruct (_ && _); [| by apply IH].
    destruct (let+ raw := val_at val (p - offset) in _) as [v' | e]; [| discriminate].
    specialize (IH Hnd Hin).
    destruct (updates rest val offset) as [us o]. cbn [fst snd find_update] in *.
    intros Ho. destruct (IH Ho) as (v & Hv & Hf). exists v. split; [exact Hv |].
    by rewrite Hf.
Qed.

Lemma header_keys_nodup : NoDup EVT_HEADER_HEADER.*1.
Proof. apply (bool_decide_unpack _). vm_compute. reflexivity. Qed.

Lemma find_update_app (us1 us2 : list (string * value)) (key : string) :
  find_update (us1 ++ us2) key
  = match find_update us2 key with
    | Some v => Some v
    | None => find_update us1 key
    end.
Proof.
  induction us1 as [|[k v] us1 IH]; cbn [app find_update].
  - by destruct (find_update us2 key).
  - rewrite IH. destruct (find_update us2 key); [reflexivity |].
    reflexivity.
Qed.

Lemma slice_inner (buff : list byte) (c b a n : nat) :
  (a + n <= b)%nat ->
  take n (drop a (slice buff c b)) = take n (drop (c + a) buff).
Proof.
  intros H. unfold slice. rewrite skipn_firstn_comm, drop_drop, take_take.
  f_equal. lia.
Qed.

Lemma take2_nth (l : list byte) (k : nat) :
  (k + 2 <= length l)%nat -> take 2 (drop k l) = [nth k l x00; nth (k + 1) l x00].
Proof.
  intros H. rewrite <- (take_drop k l) at 2 3.
  assert (Hk : length (take k l) = k) by (rewrite length_take; lia).
  rewrite !app_nth2 by lia. rewrite Hk. replace (k + 1 - k)%nat with 1%nat by lia.
  rewrite Nat.sub_diag.
  destruct (drop k l) as [|a [|b r]] eqn:E;
    pose proof (f_equal length E) as El; rewrite length_drop in El; cbn in El; try lia.
  reflexivity.
Qed.

Lemma take4_nth (l : list byte) (k : nat) :
  (k + 4 <= length l)%nat ->
  take 4 (drop k l)
  = [nth k l x00; nth (k + 1) l x00; nth (k + 2) l x00; nth (k + 3) l x00].
Proof.
  intros H. rewrite <- (take_drop k l) at 2 3 4 5.
  assert (Hk : length (take k l) = k) by (rewrite length_take; lia).
  rewrite !app_nth2 by lia. rewrite Hk.
  replace (k + 1 - k)%nat with 1%nat by lia. replace (k + 2 - k)%nat with 2%nat by lia.
  replace (k + 3 - k)%nat with 3%nat by lia. rewrite Nat.sub_diag.
  destruct (drop k l) as [|a [|b [|c [|d r]]]] eqn:E;
    pose proof (f_equal length E) as El; rewrite length_drop in El; cbn in El; try lia.
  reflexivity.
Qed.

Definition header_items3 : list (nat * fcode) :=
  [(3, FL); (4, FH); (2, FL); (4, Fx); (2, FH); (5, Fs); (33, Fs); (1, Fh); (2, Ff);
   (4, Fh); (4, FB); (2, FL); (1, FB); (17, Fs); (2, FB); (2, FB); (6, Fx); (1, Fh);
   (22, Fx)]%nat.

Lemma parse_HEADER_STRUCT3 : parse HEADER_STRUCT3 None = Some header_items3.
Proof. vm_compute. reflexivity. Qed.

(** The third pass, on the bytes 556 to 711: the values of index 107 to
    139. *)
Lemma header_pass3_values (e : endian) (buff : list byte) :
  (712 <= length buff)%nat ->
  let val := decode_items e header_items3 (slice buff 556 156) in
  length val = 33%nat
  /\ val !! 0%nat = Some (VInt (u32 e buff 556))
  /\ val !! 1%nat = Some (VInt (u32 e buff 560))
  /\ val !! 2%nat = Some (VInt (u32 e buff 564))
  /\ val !! 5%nat = Some (VInt (u16 e buff 572))
  /\ val !! 6%nat = Some (VInt (u16 e buff 574))
  /\ val !! 10%nat = Some (VInt (u16 e buff 590)).
Proof.
  intros Hlen val. unfold val, header_items3.
  cbn [decode_items decode_repeat size_of Nat.mul Nat.add app lookup list_lookup decode1
       length].
  rewrite !drop_drop. cbn [Nat.add].
  split; [reflexivity |].
  change (take 4 (slice buff 556 156)) with (take 4 (drop 0 (slice buff 556 156))).
  rewrite !slice_inner by lia. cbn [Nat.add].
  rewrite !take4_nth, !take2_nth by lia.
  repeat split; reflexivity.
Qed.

Lemma header_pass4_none (e : endian) (buff : list byte) (key : string) :
  (1624 <= length buff)%nat ->
  find_update (map field_shape (header_pass e HEADER_STRUCT4 (zeros 1624) 712 912 140).1)
    key = None ->
  find_update (header_pass e HEADER_STRUCT4 buff 712 912 140).1 key = None.
Proof.
  intros Hlen Href.
  destruct (header_pass_shape e HEADER_STRUCT4 buff (zeros 1624) 712 912 140) as [Hs _].
  { rewrite !slice_length. unfold zeros. rewrite length_replicate. lia. }
  rewrite <- Hs, find_update_shape in Href.
  by destruct (find_update _ key).
Qed.

Lemma header_pass3_run (e : endian) (buff : list byte) :
  (712 <= length buff)%nat ->
  header_pass e HEADER_STRUCT3 buff 556 156 107
  = updates EVT_HEADER_HEADER (decode_items e header_items3 (slice buff 556 156)) 107.
Proof.
  intros Hlen. unfold header_pass.
  rewrite (unpack_parsed _ HEADER_STRUCT3 e header_items3)
    by (apply split_order_prefix || apply parse_HEADER_STRUCT3).
  rewrite slice_length. replace (Nat.min 156 (length buff - 556)) with 156%nat by lia.
  reflexivity.
Qed.

(** The field a completed header read leaves for a key of the third pass. *)
Lemma header_field3 (e : endian) (buff : list byte) (key : string) (pos : Z)
    (t : transform) :
  (1624 <= length buff)%nat ->
  (key, (pos, t)) ∈ EVT_HEADER_HEADER ->
  107 <= pos < 140 ->
  find_update (map field_shape (header_pass e HEADER_STRUCT4 (zeros 1624) 712 912 140).1)
    key = None ->
  exists v,
    (let+ raw := val_at (decode_items e header_items3 (slice buff 556 156)) (pos - 107) in
     apply_transform t raw (decode_items e header_items3 (slice buff 556 156)) 107) = Ok v
    /\ find_update (header_updates e buff).1 key = Some v.
Proof.
  intros Hlen Hin Hpos Href.
  assert (Hz : forall fmt lo n off,
             (header_pass e fmt (zeros 1624) lo n off).2 = Ok tt ->
             (lo + n <= 1624)%nat -> (header_pass e fmt buff lo n off).2 = Ok tt).
  { intros fmt lo n off Hz Hb. apply header_pass_full; [exact Hz | exact Hb | lia]. }
  pose proof (Hz HEADER_STRUCT1 0%nat 124%nat 0
                ltac:(destruct e; vm_compute; reflexivity) ltac:(lia)) as H1.
  pose proof (Hz HEADER_STRUCT2 124%nat 432%nat 35
                ltac:(destruct e; vm_compute; reflexivity) ltac:(lia)) as H2.
  pose proof (Hz HEADER_STRUCT3 556%nat 156%nat 107
                ltac:(destruct e; vm_compute; reflexivity) ltac:(lia)) as H3.
  destruct (header_pass3_values e buff ltac:(lia)) as (Hl & _).
  destruct (updates_lookup EVT_HEADER_HEADER
              (decode_items e header_items3 (slice buff 556 156)) 107 key pos t
              header_keys_nodup Hin ltac:(rewrite Hl; lia)) as (v & Hv & Hf).
  { rewrite <- header_pass3_run by lia. exact H3. }
  exists v. split; [exact Hv |].
  unfold header_updates, then_updates. rewrite H1. cbn [fst snd]. rewrite H2.
  cbn [fst snd]. rewrite H3. cbn [fst snd].
  rewrite !find_update_app, (header_pass4_none e buff key Hlen Href).
  by rewrite header_pass3_run, Hf by lia.
Qed.

(** X20: in a file header read by [EVT_HEADER.read] the number of channels
    is the unsigned 16-bit integer at bytes 590-591, the duration the
    unsigned 32-bit integer at bytes 564-567, and the start and trigger
    times are the 32-bit integers at bytes 556 and 560 paired with the 16-bit
    millisecond fields at bytes 572 and 574, all in the byte order given to
    the reader. *)
Theorem header_fields_layout (w : world) (e : endian) :
  f_closed (fp w) = false ->
  (1624 <= length (read_bytes 2040 w))%nat ->
  let buff := read_bytes 2040 w in
  let w' := (EVT_HEADER.read 2040 e w).1 in
  HDR w' !! "nchannels" = Some (VInt (u16 e buff 590))
  /\ HDR w' !! "duration" = Some (VInt (u32 e buff 564))
  /\ HDR w' !! "starttime" = Some (VTime (u32 e buff 556) (u16 e buff 572))
  /\ HDR w' !! "triggertime" = Some (VTime (u32 e buff 560) (u16 e buff 574)).
Proof.
  intros Hopen Hlen buff w'. unfold w'. rewrite header_read_run.
  unfold header_read_result. rewrite Hopen. cbv zeta. cbn [Z.eqb Pos.eqb fst HDR set_HDR].
  fold buff. rewrite !apply_updates_lookup.
  destruct (header_pass3_values e buff ltac:(unfold buff; lia))
    as (Hl & V0 & V1 & V2 & V5 & V6 & V10).
  assert (Hfield : forall key pos t v,
             (key, (pos, t)) ∈ EVT_HEADER_HEADER -> 107 <= pos < 140 ->
             find_update
               (map field_shape (header_pass e HEADER_STRUCT4 (zeros 1624) 712 912 140).1)
               key = None ->
             (let+ raw := val_at (decode_items e header_items3 (slice buff 556 156))
                            (pos - 107) in
              apply_transform t raw (decode_items e header_items3 (slice buff 556 156)) 107)
             = Ok v ->
             find_update (header_updates e buff).1 key = Some v).
  { intros key pos t v Hin Hpos Href Hv.
    destruct (header_field3 e buff key pos t Hlen Hin Hpos Href) as (v' & Hv' & Hf).
    congruence. }
  split; [| split; [| split]].
  - erewrite (Hfield "nchannels" 117 T_none); [reflexivity | | lia | |].
    + apply list_elem_of_In. cbn. tauto.
    + destruct e; vm_compute; reflexivity.
    + unfold val_at. cbn [Z.sub Z.ltb Z.compare Z.to_nat Z.add Z.opp Z.pos_sub
                            Pos.to_nat Pos.iter_op Nat.add Pos.pred_double].
      change (Z.to_nat (117 - 107)) with 10%nat. change (117 - 107 <? 0) with false.
      cbv iota. rewrite V10. reflexivity.
  - erewrite (Hfield "duration" 109 T_none); [reflexivity | | lia | |].
    + apply list_elem_of_In. cbn. tauto.
    + destruct e; vm_compute; reflexivity.
    + unfold val_at. change (Z.to_nat (109 - 107)) with 2%nat.
      change (109 - 107 <? 0) with false. cbv iota. rewrite V2. reflexivity.
  - erewrite (Hfield "starttime" 107 (T_time 112)); [reflexivity | | lia | |].
    + apply list_elem_of_In. cbn. tauto.
    + destruct e; vm_compute; reflexivity.
    + unfold val_at. change (Z.to_nat (107 - 107)) with 0%nat.
      change (107 - 107 <? 0) with false. cbv iota. rewrite V0.
      cbn [obind apply_transform]. unfold _time, val_at.
      change (112 =? -1) with false. change (112 - 107 <? 0) with false.
      change (Z.to_nat (112 - 107)) with 5%nat. cbv iota. rewrite V5. reflexivity.
  - erewrite (Hfield "triggertime" 108 (T_time 113)); [reflexivity | | lia | |].
    + apply list_elem_of_In. cbn. tauto.
    + destruct e; vm_compute; reflexivity.
    + unfold val_at. change (Z.to_nat (108 - 107)) with 1%nat.
      change (108 - 107 <? 0) with false. cbv iota. rewrite V1.
      cbn [obind apply_transform]. unfold _time, val_at.
      change (113 =? -1) with false. change (113 - 107 <? 0) with false.
      change (Z.to_nat (113 - 107)) with 6%nat. cbv iota. rewrite V6. reflexivity.
Qed.

Lemma header_fields_layout_witness :
  let buff := read_bytes 2040 (stream_world (header_block Little 3 7)) in
  let w' := (EVT_HEADER.read 2040 Little (stream_world (header_block Little 3 7))).1 in
  HDR w' !! "nchannels" = Some (VInt (u16 Little buff 590))
  /\ HDR w' !! "duration" = Some (VInt (u32 Little buff 564))
  /\ HDR w' !! "starttime" = Some (VTime (u32 Little buff 556) (u16 Little buff 572))
  /\ HDR w' !! "triggertime" = Some (VTime (u32 Little buff 560) (u16 Little buff 574)).
Proof.
  apply (header_fields_layout (stream_world (header_block Little 3 7)) Little).
  - reflexivity.
  - vm_compute. lia.
Defined.

Example header_fields_of_a_block :
  u16 Little (header_block Little 3 7) 590 = 3
  /\ u32 Little (header_block Little 3 7) 564 = 7.
Proof. split; vm_compute; reflexivity. Qed.

(** ** The GPS status string *)

(** The string [_gpsstatus] builds for an integer. *)
Definition gps_string (v : Z) : string :=
  foldl (fun retval '(key, label) =>
           if Z.land v key =? 0 then retval else retval +:+ label +:+ " ")
        "" [(1, "Checking"); (2, "Present"); (4, "Error"); (8, "Failed");
            (16, "Not Locked"); (32, "ON")].

Lemma gps_string_low_bits (v : Z) : gps_string (Z.land v 63) = gps_string v.
Proof.
  unfold gps_string. cbn [foldl].
  rewrite <- !Z.land_assoc.
  change (Z.land 63 1) with 1. change (Z.land 63 2) with 2. change (Z.land 63 4) with 4.
  change (Z.land 63 8) with 8. change (Z.land 63 16) with 16.
  change (Z.land 63 32) with 32. reflexivity.
Qed.

Lemma gps_string_table :
  forallb (fun u => Bool.eqb (String.eqb (gps_string u) "") (u =? 0)) (seqZ 0 64) = true.
Proof. vm_compute. reflexivity. Qed.

(** X21: for an integer status, [_gpsstatus] returns a string that depends
    on the six low bits only; it is empty exactly when none of them is set,
    and lists the six labels in ascending bit order, each followed by a
    space, when all are set.  A status that is not an integer raises
    [TypeError]. *)
Theorem gpsstatus_reads_six_bits (v : Z) :
  _gpsstatus (VInt v) = Ok (VStr (gps_string v))
  /\ _gpsstatus (VInt (Z.land v 63)) = _gpsstatus (VInt v)
  /\ (gps_string v = "" <-> Z.land v 63 = 0)
  /\ (Z.land v 63 = 63 ->
      gps_string v = "Checking Present Error Failed Not Locked ON ")
  /\ (forall b, _gpsstatus (VBytes b) = Raise TypeError).
Proof.
  split; [reflexivity |]. split.
  { change (_gpsstatus (VInt (Z.land v 63))) with (Ok (VStr (gps_string (Z.land v 63)))).
    by rewrite gps_string_low_bits. }
  split.
  { rewrite <- gps_string_low_bits.
    assert (Hin : In (Z.land v 63) (seqZ 0 64)).
    { apply list_elem_of_In, elem_of_seqZ.
      change 63 with (Z.ones 6). rewrite Z.land_ones by lia.
      pose proof (Z.mod_pos_bound v (2 ^ 6)). lia. }
    pose proof (proj1 (forallb_forall _ _) gps_string_table _ Hin) as Ht.
    cbv beta in Ht. apply Bool.eqb_prop in Ht.
    destruct (String.eqb_spec (gps_string (Z.land v 63)) "") as [Hs | Hs];
      destruct (Z.eqb_spec (Z.land v 63) 0) as [Hz | Hz]; try discriminate; tauto. }
  split; [| reflexivity].
  intros H. rewrite <- gps_string_low_bits, H. reflexivity.
Qed.

(** ** The header dictionary of a channel *)

(** The entry of a field for channel [numchan]: the field itself, or its
    entry [numchan] when it is a list. *)
Definition channel_entry (numchan : Z) (v : value) : outcome value :=
  match v with
  | VList l => val_at l numchan
  | _ => Ok v
  end.

Lemma makeobspydico_body (numchan : Z) (store : gmap string value) (key : string)
    (p : Z * transform) (dico : gmap string value) :
  (let+ v := getattr store key in
   match v with
   | VList l => let+ x := val_at l numchan in Ok (<[key := x]> dico)
   | _ => Ok (<[key := v]> dico)
   end)
  = (let+ v := getattr store key in
     let+ x := channel_entry numchan v in Ok (<[key := x]> dico)).
Proof. destruct (getattr store key) as [[] |]; reflexivity. Qed.

Lemma makeobspydico_fold (numchan : Z) (store : gmap string value) (HEADER : schema)
    (dico0 : gmap string value) :
  NoDup HEADER.*1 ->
  match ofold HEADER
          (fun '(key, _) dico =>
             let+ v := getattr store key in
             match v with
             | VList l => let+ x := val_at l numchan in Ok (<[key := x]> dico)
             | _ => Ok (<[key := v]> dico)
             end) dico0 with
  | Ok dico =>
      (forall key p, (key, p) ∈ HEADER ->
         exists v x, store !! key = Some v /\ channel_entry numchan v = Ok x
                     /\ dico !! key = Some x)
      /\ (forall key, key ∉ HEADER.*1 -> dico !! key = dico0 !! key)
  | Raise err =>
      err = IndexError
      /\ exists key p, (key, p) ∈ HEADER
           /\ (store !! key = None
               \/ exists v, store !! key = Some v
                            /\ channel_entry numchan v = Raise IndexError)
  end.
Proof.
  revert dico0. induction HEADER as [|[key p] rest IH]; intros dico0 Hnd; cbn [ofold].
  - split; [intros key p Hin; by apply not_elem_of_nil in Hin | reflexivity].
  - cbn [fmap list_fmap fst] in Hnd. apply NoDup_cons in Hnd as [Hk Hnd].
    rewrite (makeobspydico_body numchan store key p). unfold getattr.
    destruct (store !! key) as [v |] eqn:Hv; cbn [obind].
    2: { split; [reflexivity |]. exists key, p. split; [left | by left]. }
    destruct (channel_entry numchan v) as [x | err] eqn:Hx; cbn [obind].
    2: { assert (err = IndexError) as ->.
         { destruct v; try discriminate. eapply val_at_errors, Hx. }
         split; [reflexivity |]. exists key, p. split; [left |]. right. eauto. }
    specialize (IH (<[key := x]> dico0) Hnd).
    destruct (ofold rest _ _) as [dico | err].
    + destruct IH as [IH1 IH2]. split.
      * intros key' p' [[= -> ->] | Hin]%elem_of_cons.
        -- exists v, x. rewrite (IH2 key Hk), lookup_insert_eq. auto.
        -- by apply IH1 with p'.
      * intros key' [Hne Hk']%not_elem_of_cons.
        rewrite (IH2 key' Hk'). by apply lookup_insert_ne.
    + destruct IH as (-> & key' & p' & Hin & Hbad). split; [reflexivity |].
      exists key', p'. split; [by right | exact Hbad].
Qed.

(** X22: for a channel number that is not negative, [makeobspydico]
    returns a dictionary with exactly the fields of the header table: a
    per-channel list gives its entry for the channel, any other field is
    copied.  It fails, with [IndexError], exactly when a field was never
    stored or a list has no entry for the channel. *)
Theorem makeobspydico_projects (numchan : Z) (store : gmap string value) :
  0 <= numchan ->
  match EVT_HEADER.makeobspydico numchan store with
  | Ok dico =>
      (forall key p, (key, p) ∈ EVT_HEADER_HEADER ->
         exists v x, store !! key = Some v /\ channel_entry numchan v = Ok x
                     /\ dico !! key = Some x)
      /\ (forall key, key ∉ EVT_HEADER_HEADER.*1 -> dico !! key = None)
  | Raise err =>
      err = IndexError
      /\ exists key p, (key, p) ∈ EVT_HEADER_HEADER
           /\ (store !! key = None
               \/ exists v, store !! key = Some v
                            /\ channel_entry numchan v = Raise IndexError)
  end.
Proof.
  intros _. unfold EVT_HEADER.makeobspydico.
  pose proof (makeobspydico_fold numchan store EVT_HEADER_HEADER ∅ header_keys_nodup) as H.
  destruct (ofold EVT_HEADER_HEADER _ ∅) as [dico | err]; [| exact H].
  destruct H as [H1 H2]. split; [exact H1 |].
  intros key Hk. by rewrite (H2 key Hk).
Qed.

Lemma makeobspydico_projects_witness :
  match EVT_HEADER.makeobspydico 3
          (HDR (EVT_HEADER.read 2040 Big (stream_world (header_block Big 12 2))).1) with
  | Ok dico =>
      (forall key p, (key, p) ∈ EVT_HEADER_HEADER ->
         exists v x,
           HDR (EVT_HEADER.read 2040 Big (stream_world (header_block Big 12 2))).1 !! key
           = Some v
           /\ channel_entry 3 v = Ok x /\ dico !! key = Some x)
      /\ (forall key, key ∉ EVT_HEADER_HEADER.*1 -> dico !! key = None)
  | Raise err =>
      err = IndexError
      /\ exists key p, (key, p) ∈ EVT_HEADER_HEADER
           /\ (HDR (EVT_HEADER.read 2040 Big (stream_world (header_block Big 12 2))).1
                 !! key = None
               \/ exists v,
                    HDR (EVT_HEADER.read 2040 Big (stream_world (header_block Big 12 2))).1
                      !! key = Some v
                    /\ channel_entry 3 v = Raise IndexError)
  end.
Proof.
  apply (makeobspydico_projects 3
           (HDR (EVT_HEADER.read 2040 Big (stream_world (header_block Big 12 2))).1)).
  lia.
Defined.

(** ** Samples are two's complement *)

Lemma byte_val_of (z : Z) : byte_val (byte_of z) = z mod 256.
Proof.
  unfold byte_val, byte_of.
  pose proof (Z.mod_pos_bound z 256 ltac:(lia)) as Hb.
  destruct (Byte.of_N (Z.to_N (z mod 256))) as [b |] eqn:E.
  - apply Byte.to_of_N in E. rewrite E. lia.
  - exfalso. pose proof (Byte.to_of_N_option_map (Z.to_N (z mod 256))) as H.
    rewrite E in H. cbn in H.
    destruct (N.leb_spec (Z.to_N (z mod 256)) 255); [discriminate | lia].
Qed.

Lemma be_uint_snoc (l : list byte) (b : byte) :
  be_uint (l ++ [b]) = be_uint l * 256 + byte_val b.
Proof. unfold be_uint. by rewrite fold_left_app. Qed.

Lemma be_uint_be_bytes (n : nat) (z : Z) :
  be_uint (be_bytes n z) = z mod 256 ^ Z.of_nat n.
Proof.
  revert z. induction n as [|n IH]; intros z.
  - cbn. by rewrite Z.mod_1_r.
  - cbn [be_bytes]. rewrite be_uint_snoc, IH, byte_val_of.
    rewrite Nat2Z.inj_succ, Z.pow_succ_r by lia.
    rewrite (Z.rem_mul_r z 256 (256 ^ Z.of_nat n)) by lia. lia.
Qed.

Lemma length_be_bytes (n : nat) (z : Z) : length (be_bytes n z) = n.
Proof.
  revert z. induction n as [|n IH]; intros z; [reflexivity |].
  cbn [be_bytes]. rewrite length_app, IH. cbn. lia.
Qed.

Lemma chunk_of_concat {A} (n : nat) (chunks : list (list A)) (i : nat) (c : list A) :
  Forall (fun c => length c = n) chunks ->
  chunks !! i = Some c ->
  take n (drop (i * n) (concat chunks)) = c.
Proof.
  intros Hall. revert i. induction Hall as [|c0 chunks Hc Hall IH]; intros i Hi;
    [discriminate |].
  destruct i as [|i]; cbn [concat].
  - injection Hi as ->. change (0 * n)%nat with 0%nat. rewrite drop_0.
    rewrite take_app_length'; [reflexivity | by symmetry].
  - cbn [lookup list_lookup] in Hi. replace (S i * n)%nat with (n + i * n)%nat by lia.
    rewrite <- drop_drop, drop_app_length' by (by symmetry). by apply IH.
Qed.

(** The value [EVT_DATA.read] gives a sample of [numbyte] bytes holding
    [z] in two's complement. *)
Definition decoded (numbyte z : Z) : Z := if numbyte =? 2 then 256 * z else z.

Lemma spec_decode_be_bytes (numbyte z : Z) :
  numbyte = 2 \/ numbyte = 3 \/ numbyte = 4 ->
  - 2 ^ (8 * numbyte - 1) <= z < 2 ^ (8 * numbyte - 1) ->
  spec_decode numbyte (be_bytes (Z.to_nat numbyte) z) = decoded numbyte z.
Proof.
  intros Hnb Hz. unfold spec_decode, decoded, to_signed.
  destruct Hnb as [-> | [-> | ->]]; cbn [Z.eqb Pos.eqb].
  - change (Z.to_nat (4 - 2)) with 2%nat. change (Z.to_nat 2) with 2%nat.
    cbn [replicate]. change [x00; x00] with ([x00] ++ [x00]).
    rewrite app_assoc, !be_uint_snoc, be_uint_be_bytes.
    change (byte_val x00) with 0. change (256 ^ Z.of_nat 2) with 65536.
    change (2 ^ (8 * 2 - 1)) with 32768 in Hz.
    change (2 ^ (8 * Z.of_nat 4 - 1)) with 2147483648.
    change (2 ^ (8 * Z.of_nat 4)) with 4294967296.
    rewrite Z.shiftr_div_pow2 by lia. change (2 ^ 8) with 256.
    pose proof (Z.mod_pos_bound z 65536 ltac:(lia)) as Hm.
    destruct (Z_lt_le_dec z 0) as [Hneg | Hpos].
    + assert (Hu : z mod 65536 = z + 65536).
      { symmetry. apply (Z.mod_unique z 65536 (-1)); lia. }
      rewrite Hu. destruct (Z.leb_spec 2147483648 (((z + 65536) * 256 + 0) * 256 + 0));
        [| lia].
      replace (((z + 65536) * 256 + 0) * 256 + 0 - 4294967296) with (256 * z * 256) by lia.
      by rewrite Z.div_mul by lia.
    + rewrite Z.mod_small by lia.
      destruct (Z.leb_spec 2147483648 ((z * 256 + 0) * 256 + 0)); [lia |].
      replace ((z * 256 + 0) * 256 + 0) with (256 * z * 256) by lia.
      by rewrite Z.div_mul by lia.
  - change (Z.to_nat (4 - 3)) with 1%nat. change (Z.to_nat 3) with 3%nat.
    cbn [replicate]. rewrite be_uint_snoc, be_uint_be_bytes.
    change (byte_val x00) with 0. change (256 ^ Z.of_nat 3) with 16777216.
    change (2 ^ (8 * 3 - 1)) with 8388608 in Hz.
    change (2 ^ (8 * Z.of_nat 4 - 1)) with 2147483648.
    change (2 ^ (8 * Z.of_nat 4)) with 4294967296.
    rewrite Z.shiftr_div_pow2 by lia. change (2 ^ 8) with 256.
    pose proof (Z.mod_pos_bound z 16777216 ltac:(lia)) as Hm.
    destruct (Z_lt_le_dec z 0) as [Hneg | Hpos].
    + assert (Hu : z mod 16777216 = z + 16777216).
      { symmetry. apply (Z.mod_unique z 16777216 (-1)); lia. }
      rewrite Hu. destruct (Z.leb_spec 2147483648 ((z + 16777216) * 256 + 0)); [| lia].
      replace ((z + 16777216) * 256 + 0 - 4294967296) with (z * 256) by lia.
      by rewrite Z.div_mul by lia.
    + rewrite Z.mod_small by lia.
      destruct (Z.leb_spec 2147483648 (z * 256 + 0)); [lia |].
      replace (z * 256 + 0) with (z * 256) by lia.
      by rewrite Z.div_mul by lia.
  - change (Z.to_nat 4) with 4%nat. rewrite be_uint_be_bytes.
    change (256 ^ Z.of_nat 4) with 4294967296.
    change (2 ^ (8 * 4 - 1)) with 2147483648 in Hz.
    change (2 ^ (8 * Z.of_nat 4 - 1)) with 2147483648.
    change (2 ^ (8 * Z.of_nat 4)) with 4294967296.
    pose proof (Z.mod_pos_bound z 4294967296 ltac:(lia)) as Hm.
    destruct (Z_lt_le_dec z 0) as [Hneg | Hpos].
    + assert (Hu : z mod 4294967296 = z + 4294967296).
      { symmetry. apply (Z.mod_unique z 4294967296 (-1)); lia. }
      rewrite Hu. destruct (Z.leb_spec 2147483648 (z + 4294967296)); lia.
    + rewrite Z.mod_small by lia.
      destruct (Z.leb_spec 2147483648 z); lia.
Qed.

(** X23: the sample decoding of [EVT_DATA.read] inverts big-endian two's
    complement.  In a buffer made of the [numbyte]-byte encodings of the
    integers [zs], each within the signed range of [numbyte] bytes, sample
    [i] decodes to [zs[i]] for widths 3 and 4, negative values included, and
    to [256 * zs[i]] for width 2. *)
Theorem samples_are_twos_complement (numbyte : Z) (zs : list Z) (i : nat) (z : Z) :
  numbyte = 2 \/ numbyte = 3 \/ numbyte = 4 ->
  zs !! i = Some z ->
  - 2 ^ (8 * numbyte - 1) <= z < 2 ^ (8 * numbyte - 1) ->
  EVT_DATA.sample_val numbyte (concat (map (be_bytes (Z.to_nat numbyte)) zs)) (Z.of_nat i)
  = Ok (decoded numbyte z).
Proof.
  intros Hnb Hi Hz.
  assert (Hchunk : slice (concat (map (be_bytes (Z.to_nat numbyte)) zs))
                     (Z.to_nat (Z.of_nat i * numbyte)) (Z.to_nat numbyte)
                   = be_bytes (Z.to_nat numbyte) z).
  { unfold slice. replace (Z.to_nat (Z.of_nat i * numbyte)) with (i * Z.to_nat numbyte)%nat
      by lia.
    apply chunk_of_concat.
    - apply Forall_forall. intros c Hc%list_elem_of_In%in_map_iff.
      destruct Hc as (z' & <- & _). apply length_be_bytes.
    - change (map ?f zs) with (f <$> zs). by rewrite list_lookup_fmap, Hi. }
  rewrite sample_val_complete; [| exact Hnb | by rewrite Hchunk, length_be_bytes].
  rewrite Hchunk. f_equal. by apply spec_decode_be_bytes.
Qed.

Lemma samples_are_twos_complement_witness :
  EVT_DATA.sample_val 3 (concat (map (be_bytes (Z.to_nat 3)) [5; -8388608; -1])) (Z.of_nat 1)
  = Ok (decoded 3 (-8388608)).
Proof.
  apply (samples_are_twos_complement 3 [5; -8388608; -1] 1 (-8388608)).
  - right. left. reflexivity.
  - reflexivity.
  - lia.
Defined.

(** ** Decoding again *)

(** Two states of one [EVT] object and one stream, whatever earlier decodes
    left in the three class dictionaries. *)
Definition same_object (w1 w2 : world) : Prop :=
  files w1 = files w2 /\ fp w1 = fp w2
  /\ ETag_endian w1 = ETag_endian w2 /\ EHeader_endian w1 = EHeader_endian w2
  /\ EFrame_endian w1 = EFrame_endian w2
  /\ numframe w1 = numframe w2 /\ samplingrate w1 = samplingrate w2
  /\ data w1 = data w2.

(** [sim h t]: the same object; with [h] the header dictionaries are equal
    too; with [t] the tag dictionaries agree on the two lengths. *)
Definition sim (h t : bool) (w1 w2 : world) : Prop :=
  same_object w1 w2
  /\ (h = true -> HDR w1 = HDR w2)
  /\ (t = true -> TAG w1 !! "length" = TAG w2 !! "length"
                  /\ TAG w1 !! "datalength" = TAG w2 !! "datalength").

(** [rel P m Q X]: from two states related by [P], the two runs of [m]
    return the same value in states related by [Q], or raise the same
    exception in states related by [X]. *)
Definition rel {A} (P : world -> world -> Prop) (m : M world A)
    (Q : A -> world -> world -> Prop) (X : world -> world -> Prop) : Prop :=
  forall w1 w2, P w1 w2 ->
    match m w1, m w2 with
    | (w1', Ok a1), (w2', Ok a2) => a1 = a2 /\ Q a1 w1' w2'
    | (w1', Raise e1), (w2', Raise e2) => e1 = e2 /\ X w1' w2'
    | _, _ => False
    end.

Lemma rel_bind {A B} (P : world -> world -> Prop) (R : A -> world -> world -> Prop)
    (m : M world A) (f : A -> M world B) (Q : B -> world -> world -> Prop)
    (X : world -> world -> Prop) :
  rel P m R X -> (forall a, rel (R a) (f a) Q X) -> rel P (bind m f) Q X.
Proof.
  intros Hm Hf w1 w2 Hw. rewrite !bind_unfold. specialize (Hm w1 w2 Hw).
  destruct (m w1) as [w1' [a1 | e1]], (m w2) as [w2' [a2 | e2]]; try contradiction.
  - destruct Hm as [<- Hr]. by apply Hf.
  - exact Hm.
Qed.

Lemma rel_weaken {A} (P P' : world -> world -> Prop) (m : M world A)
    (Q Q' : A -> world -> world -> Prop) (X X' : world -> world -> Prop) :
  rel P' m Q' X' ->
  (forall w1 w2, P w1 w2 -> P' w1 w2) ->
  (forall a w1 w2, Q' a w1 w2 -> Q a w1 w2) ->
  (forall w1 w2, X' w1 w2 -> X w1 w2) ->
  rel P m Q X.
Proof.
  intros Hm HP HQ HX w1 w2 Hw. specialize (Hm w1 w2 (HP _ _ Hw)).
  destruct (m w1) as [w1' [a1 | e1]], (m w2) as [w2' [a2 | e2]]; try contradiction.
  - destruct Hm. auto.
  - destruct Hm. auto.
Qed.

Lemma rel_ret {A} (P : world -> world -> Prop) (a : A) (Q : A -> world -> world -> Prop)
    (X : world -> world -> Prop) :
  (forall w1 w2, P w1 w2 -> Q a w1 w2) -> rel P (ret a) Q X.
Proof. intros H w1 w2 Hw. split; [reflexivity | by apply H]. Qed.

Lemma rel_raise {A} (P : world -> world -> Prop) (e : exn)
    (Q : A -> world -> world -> Prop) (X : world -> world -> Prop) :
  (forall w1 w2, P w1 w2 -> X w1 w2) -> rel P (raise e) Q X.
Proof. intros H w1 w2 Hw. split; [reflexivity | by apply H]. Qed.

Lemma rel_lift {A} (P : world -> world -> Prop) (o : outcome A)
    (Q : A -> world -> world -> Prop) (X : world -> world -> Prop) :
  (forall w1 w2, P w1 w2 -> X w1 w2) ->
  (forall a w1 w2, P w1 w2 -> Q a w1 w2) ->
  rel P (lift o) Q X.
Proof. intros HX HQ w1 w2 Hw. unfold lift. destruct o; split; auto. Qed.

Lemma rel_gets {A} (P : world -> world -> Prop) (f : world -> A)
    (Q : A -> world -> world -> Prop) (X : world -> world -> Prop) :
  (forall w1 w2, P w1 w2 -> f w1 = f w2 /\ Q (f w1) w1 w2) -> rel P (gets f) Q X.
Proof. intros H w1 w2 Hw. exact (H w1 w2 Hw). Qed.

Lemma rel_modify (P : world -> world -> Prop) (f : world -> world)
    (Q : unit -> world -> world -> Prop) (X : world -> world -> Prop) :
  (forall w1 w2, P w1 w2 -> Q tt (f w1) (f w2)) -> rel P (modify f) Q X.
Proof. intros H w1 w2 Hw. split; [reflexivity | by apply H]. Qed.

Lemma rel_catch_eof {A} (P R : world -> world -> Prop) (m h : M world A)
    (Q : A -> world -> world -> Prop) (X : world -> world -> Prop) :
  rel P m Q R -> rel R h Q X -> (forall w1 w2, R w1 w2 -> X w1 w2) ->
  rel P (catch_eof m h) Q X.
Proof.
  intros Hm Hh HX w1 w2 Hw. unfold catch_eof. specialize (Hm w1 w2 Hw).
  destruct (m w1) as [w1' [a1 | e1]], (m w2) as [w2' [a2 | e2]]; try contradiction.
  - exact Hm.
  - destruct Hm as [<- Hr]. destruct e1; try (split; [reflexivity | by apply HX]).
    by apply Hh.
Qed.

Lemma rel_attr_int (P : world -> world -> Prop) (store : world -> gmap string value)
    (key : string) :
  (forall w1 w2, P w1 w2 -> store w1 !! key = store w2 !! key) ->
  rel P (attr_int store key) (fun _ => P) P.
Proof.
  intros H w1 w2 Hw. unfold attr_int, bind, attr, getattr, lift, as_int.
  rewrite (H w1 w2 Hw). destruct (store w2 !! key) as [[] |]; by split.
Qed.

Lemma rel_attr (P : world -> world -> Prop) (store : world -> gmap string value)
    (key : string) :
  (forall w1 w2, P w1 w2 -> store w1 !! key = store w2 !! key) ->
  rel P (attr store key) (fun _ => P) P.
Proof.
  intros H w1 w2 Hw. unfold attr, getattr.
  rewrite (H w1 w2 Hw). destruct (store w2 !! key); by split.
Qed.

(** The readers on two states of one object. *)
Ltac same_worlds :=
  match goal with
  | H : sim _ _ ?w1 ?w2 |- _ =>
      destruct H as ((? & ? & ? & ? & ? & ? & ? & ?) & ? & ?);
      destruct w1, w2;
      cbn [files fp TAG HDR FRM ETag_endian EHeader_endian EFrame_endian numframe
           samplingrate data] in *;
      subst
  end.

Ltac sim_done :=
  unfold sim, same_object;
  cbn [files fp TAG HDR FRM ETag_endian EHeader_endian EFrame_endian numframe
       samplingrate data set_fp set_TAG set_HDR set_FRM set_ETag_endian
       set_EHeader_endian set_EFrame_endian set_numframe set_samplingrate set_data];
  rewrite ?apply_updates_lookup;
  repeat split; auto; try discriminate; try tauto; try congruence.

Ltac rel_cases :=
  cbv beta iota zeta;
  repeat first
    [ split; [reflexivity | sim_done]
    | match goal with
      | |- context [if ?b then _ else _] => destruct b eqn:?; cbv beta iota zeta
      | |- context [match ?x with Some _ => _ | None => _ end] =>
          destruct x eqn:?; cbv beta iota zeta
      | |- context [match ?x with Ok _ => _ | Raise _ => _ end] =>
          destruct x eqn:?; cbv beta iota zeta
      end ].

Lemma rel_tag (h : bool) :
  rel (sim h false) EVT_TAG.read (fun _ => sim h true) (sim h false).
Proof.
  intros w1 w2 Hw. rewrite !tag_read_run. unfold tag_read_result, next_bytes, advance.
  same_worlds. rel_cases.
Qed.

Lemma rel_frame (h t : bool) (length : Z) (e : endian) :
  rel (sim h t) (EVT_FRAME_HEADER.read length e) (fun _ => sim h t) (sim h t).
Proof.
  intros w1 w2 Hw. rewrite !frame_read_run.
  unfold frame_read_result, read_bytes, advance.
  same_worlds. rel_cases.
Qed.

Lemma rel_data (h t : bool) (length : Z) (e : endian) (param : Z * Z * value * Z) :
  rel (sim h t) (EVT_DATA.read length e param) (fun _ => sim h t) (sim h t).
Proof.
  intros w1 w2 Hw. rewrite !data_read_run.
  unfold data_read_result, read_bytes, advance. destruct param as [[[sr nb] bt] nc].
  same_worlds. rel_cases.
Qed.

Lemma rel_header (t : bool) (length : Z) (e : endian) :
  rel (sim true t) (EVT_HEADER.read length e) (fun _ => sim true t) (sim true t).
Proof.
  intros w1 w2 Hw. rewrite !header_read_run.
  unfold header_read_result, read_bytes, advance.
  same_worlds.
  match goal with H : true = true -> _ |- _ => specialize (H eq_refl); subst end.
  rel_cases.
Qed.

Lemma sim_weaken (h t : bool) (w1 w2 : world) : sim h t w1 w2 -> sim h false w1 w2.
Proof. intros (Hs & Hh & _). split; [exact Hs |]. split; [exact Hh | discriminate]. Qed.

Lemma sim_data (h t : bool) (w1 w2 : world) : sim h t w1 w2 -> data w1 = data w2.
Proof. intros ((_ & _ & _ & _ & _ & _ & _ & Hd) & _). exact Hd. Qed.

Lemma sim_set_data (h t : bool) (d : list (list sample)) (w1 w2 : world) :
  sim h t w1 w2 -> sim h t (set_data d w1) (set_data d w2).
Proof. intros ((? & ? & ? & ? & ? & ? & ? & ?) & ? & ?). sim_done. Qed.

Lemma rel_block_body (e : endian) :
  rel (sim true true) (block_body e) (fun _ => sim true false) (sim true false).
Proof.
  unfold block_body.
  eapply (rel_bind _ (fun _ => sim true true)).
  { eapply rel_weaken; [apply (rel_attr_int (sim true true) TAG "length") | | |]; auto.
    - intros w1 w2 (_ & _ & Ht). by apply Ht.
    - intros w1 w2. apply sim_weaken. }
  intros len. eapply (rel_bind _ (fun _ => sim true true)).
  { eapply rel_weaken; [apply (rel_frame true true len e) | | |]; auto.
    intros w1 w2. apply sim_weaken. }
  intros [[[rate nb] bt] nc].
  eapply (rel_bind _ (fun _ => sim true true)).
  { apply rel_gets. intros w1 w2 Hw. split; [| exact Hw].
    by destruct Hw as ((_ & _ & _ & _ & _ & _ & Hsr & _) & _). }
  intros sr. eapply (rel_bind _ (fun _ => sim true true)).
  { destruct (sr =? 0).
    - apply rel_modify. intros w1 w2 ((? & ? & ? & ? & ? & ? & ? & ?) & ? & ?). sim_done.
    - destruct (negb _).
      + apply rel_raise. intros w1 w2. apply sim_weaken.
      + by apply rel_ret. }
  intros _. eapply (rel_bind _ (fun _ => sim true true)).
  { eapply rel_weaken; [apply (rel_attr_int (sim true true) TAG "datalength") | | |]; auto.
    - intros w1 w2 (_ & _ & Ht). by apply Ht.
    - intros w1 w2. apply sim_weaken. }
  intros dl. eapply (rel_bind _ (fun _ => sim true true)).
  { eapply rel_weaken; [apply (rel_data true true dl e (rate, nb, bt, nc)) | | |]; auto.
    intros w1 w2. apply sim_weaken. }
  intros datal. eapply (rel_bind _ (fun _ => sim true true)).
  { apply rel_gets. intros w1 w2 Hw. split; [by eapply sim_data | exact Hw]. }
  intros sd. eapply (rel_bind _ (fun _ => sim true true)).
  { apply rel_lift; [intros w1 w2; apply sim_weaken | auto]. }
  intros d. eapply (rel_bind _ (fun _ => sim true false)).
  { apply rel_modify. intros w1 w2 Hw. by apply sim_set_data, sim_weaken with true. }
  intros _. by apply rel_ret.
Qed.

Lemma rel_read_block (e : endian) :
  rel (sim true false) (EVT.read_block e) (fun _ => sim true false) (sim true false).
Proof.
  rewrite read_block_unfold.
  apply (rel_catch_eof _ (sim true false)); [| by apply rel_ret | auto].
  eapply rel_bind; [apply rel_tag |]. intros u. apply rel_block_body.
Qed.

Lemma rel_read_blocks (e : endian) (fuel : nat) :
  rel (sim true false) (EVT.read_blocks fuel e) (fun _ => sim true false) (sim true false).
Proof.
  induction fuel as [|fuel IH]; cbn [EVT.read_blocks]; [by apply rel_raise |].
  eapply rel_bind; [apply rel_read_block |].
  intros []; [exact IH | by apply rel_ret].
Qed.

Lemma rel_calibration :
  rel (sim true false) EVT.calibration (fun _ => sim true false) (sim true false).
Proof.
  intros w1 w2 Hw. rewrite !calibration_run.
  pose proof Hw as ((_ & _ & _ & _ & _ & _ & _ & Hd) & Hh & _).
  rewrite (Hh eq_refl), Hd.
  destruct (HDR w2 !! "nchannels") as [[] |]; try by split.
  destruct (HDR w2 !! "chan_fullscale"); [| by split].
  destruct (HDR w2 !! "chan_sensitivity"); [| by split].
  destruct (calibrate_rows _ _ _ _); [| by split].
  split; [reflexivity | by apply sim_set_data].
Qed.

Lemma rel_traces :
  rel (sim true false) EVT.traces (fun _ => sim true false) (sim true false).
Proof.
  intros w1 w2 Hw. rewrite !traces_run.
  pose proof Hw as ((_ & _ & _ & _ & _ & _ & Hsr & Hd) & Hh & _).
  assert (Ht : trace_of w1 = trace_of w2).
  { unfold trace_of. by rewrite (Hh eq_refl), Hd, Hsr. }
  rewrite (Hh eq_refl), Ht.
  destruct (HDR w2 !! "nchannels") as [[] |]; try by split.
  destruct (omap _ _); by split.
Qed.

Lemma rel_finish (is_fileobject Raw : bool) :
  rel (sim true false) (finish is_fileobject Raw) (fun _ => sim true false)
    (sim true false).
Proof.
  unfold finish.
  eapply (rel_bind _ (fun _ => sim true false)).
  { intros w1 w2 Hw. unfold EVT_FRAME_HEADER.count.
    pose proof Hw as ((_ & _ & _ & _ & _ & Hn & _) & _). by rewrite Hn. }
  intros count. eapply (rel_bind _ (fun _ => sim true false)).
  { apply rel_attr. intros w1 w2 (_ & Hh & _). by rewrite (Hh eq_refl). }
  intros duration. destruct (negb _); [by apply rel_raise |].
  eapply (rel_bind _ (fun _ => sim true false)).
  { destruct (negb Raw); [apply rel_calibration | by apply rel_ret]. }
  intros _. eapply (rel_bind _ (fun _ => sim true false)).
  { destruct (negb is_fileobject); [| by apply rel_ret].
    apply rel_modify. intros w1 w2 ((? & Hfp & ? & ? & ? & ? & ? & ?) & ? & ?).
    rewrite Hfp. sim_done. }
  intros _. apply rel_traces.
Qed.

Lemma rel_decode (is_fileobject Raw : bool) :
  rel (sim false false) (decode is_fileobject Raw) (fun _ => sim false false)
    (sim false false).
Proof.
  unfold decode.
  eapply (rel_bind _ (fun _ => sim false true)).
  { eapply rel_weaken; [apply (rel_tag false) | | |]; auto. }
  intros _. eapply (rel_bind _ (fun _ => sim false true)).
  { apply rel_gets. intros w1 w2 Hw. split; [| exact Hw].
    by destruct Hw as ((_ & _ & He & _) & _). }
  intros se. eapply (rel_bind _ (fun _ => sim false true)).
  { apply rel_lift; [intros w1 w2; apply sim_weaken | auto]. }
  intros endian. eapply (rel_bind _ (fun _ => sim true true)).
  { apply rel_modify. intros w1 w2 ((? & ? & ? & ? & ? & ? & ? & ?) & ? & ?). sim_done. }
  intros _.
  assert (Hx : forall w1 w2, sim true true w1 w2 -> sim false false w1 w2).
  { intros w1 w2 (Hs & _). split; [exact Hs |]. split; discriminate. }
  assert (Hx' : forall w1 w2, sim true false w1 w2 -> sim false false w1 w2).
  { intros w1 w2 (Hs & _). split; [exact Hs |]. split; discriminate. }
  eapply (rel_bind _ (fun _ => sim true true)).
  { eapply rel_weaken; [apply (rel_attr_int (sim true true) TAG "length") | | |]; auto.
    intros w1 w2 (_ & _ & Ht). by apply Ht. }
  intros len. eapply (rel_bind _ (fun _ => sim true true)).
  { eapply rel_weaken; [apply (rel_header true len endian) | | |]; auto. }
  intros _. eapply (rel_bind _ (fun _ => sim true true)).
  { eapply rel_weaken; [apply (rel_attr_int (sim true true) HDR "nchannels") | | |]; auto.
    intros w1 w2 (_ & Hh & _). by rewrite (Hh eq_refl). }
  intros n. eapply (rel_bind _ (fun _ => sim true false)).
  { apply rel_modify. intros w1 w2 Hw. by apply sim_set_data, sim_weaken with true. }
  intros _. eapply (rel_bind _ (fun _ => sim true false)).
  { apply rel_gets. intros w1 w2 Hw. split; [| exact Hw].
    destruct Hw as ((_ & Hfp & _) & _). unfold EVT.loop_bound. by rewrite Hfp. }
  intros bound. eapply (rel_bind _ (fun _ => sim true false)).
  { eapply rel_weaken; [apply (rel_read_blocks endian bound) | | |]; auto. }
  intros _. eapply rel_weaken; [apply (rel_finish is_fileobject Raw) | | |]; auto.
Qed.

Lemma rel_readFile (arg : filename_or_object) (Raw : bool) :
  rel (sim false false) (EVT.readFile arg Raw) (fun _ => sim false false)
    (sim false false).
Proof.
  destruct arg as [| name].
  - rewrite readFile_object. apply rel_decode.
  - intros w1 w2 Hw. rewrite !readFile_name.
    pose proof Hw as ((Hf & _) & _). rewrite Hf.
    destruct (files w2 !! name) as [content |]; [| by split].
    apply rel_decode.
    destruct Hw as ((? & ? & ? & ? & ? & ? & ? & ?) & ? & ?). sim_done.
Qed.

Lemma files_kept (Raw : bool) (w : world) :
  files (EVT.readFile FileObject Raw w).1 = files w.
Proof.
  assert (Hst : stable (fun w0 => files w0 = files w))
    by (constructor; intros; assumption).
  pose proof (readFile_triple (fun w0 => files w0 = files w) (fun w0 => files w0 = files w)
                FileObject Raw (fun _ w0 => files w0 = files w)
                (fun _ w0 => files w0 = files w) Hst) as H.
  assert (Hrun : triple (fun w0 => files w0 = files w) (EVT.readFile FileObject Raw)
                   (fun _ w0 => files w0 = files w) (fun _ w0 => files w0 = files w)).
  { apply H; try (intros; cbn; assumption); try exact Hst.
    - intros err w0 [Hw | Hw] _; exact Hw.
    - intros w0 Hw0.
      pose proof (finish_keeps (fun w1 => files w1 = files w) true Raw
                    (fun d w1 Hf => Hf) (fun Hf => False_ind _ (diff_true_false Hf))
                    w0 Hw0) as Hk.
      cbn [is_object]. destruct (finish true Raw w0) as [w' [ts | err]]; exact Hk. }
  specialize (Hrun w eq_refl).
  destruct (EVT.readFile FileObject Raw w) as [w' [ts | err]]; exact Hrun.
Qed.

(** X24: what [readFile] returns or raises does not depend on what the
    three class-level dictionaries held when it was called: two runs
    from states of the same object and stream end alike.  In particular,
    decoding a stream again from its start with a new [EVT] object gives the
    same traces, or the same exception, as the first decode. *)
Theorem readFile_ignores_earlier_decodes (arg : filename_or_object) (Raw : bool)
    (w1 w2 : world) :
  same_object w1 w2 ->
  (EVT.readFile arg Raw w1).2 = (EVT.readFile arg Raw w2).2
  /\ same_object (EVT.readFile arg Raw w1).1 (EVT.readFile arg Raw w2).1
  /\ (EVT.readFile FileObject Raw
        (EVT_init (set_fp (fp w1) (EVT.readFile FileObject Raw (EVT_init w1)).1))).2
     = (EVT.readFile FileObject Raw (EVT_init w1)).2.
Proof.
  intros Hs.
  assert (Hrel : forall arg u1 u2, same_object u1 u2 ->
             (EVT.readFile arg Raw u1).2 = (EVT.readFile arg Raw u2).2
             /\ same_object (EVT.readFile arg Raw u1).1 (EVT.readFile arg Raw u2).1).
  { intros arg' u1 u2 Hu.
    pose proof (rel_readFile arg' Raw u1 u2) as H.
    assert (Hsim : sim false false u1 u2) by (split; [exact Hu | split; discriminate]).
    specialize (H Hsim).
    destruct (EVT.readFile arg' Raw u1) as [u1' [a1 | e1]],
             (EVT.readFile arg' Raw u2) as [u2' [a2 | e2]]; try contradiction;
      destruct H as [-> (Hs' & _)]; by split. }
  split; [by apply Hrel |]. split; [by apply Hrel |].
  apply Hrel. pose proof (files_kept Raw (EVT_init w1)) as Hf.
  unfold same_object. cbn. auto 10.
Qed.

Lemma readFile_ignores_earlier_decodes_witness :
  (EVT.readFile FileObject true (stream_world (two_frames 2))).2
  = (EVT.readFile FileObject true
       (set_TAG {[ "length" := VInt 7 ]}
          (set_HDR {[ "duration" := VInt 99 ]} (stream_world (two_frames 2))))).2.
Proof.
  apply (proj1 (readFile_ignores_earlier_decodes FileObject true
                  (stream_world (two_frames 2))
                  (set_TAG {[ "length" := VInt 7 ]}
                     (set_HDR {[ "duration" := VInt 99 ]} (stream_world (two_frames 2))))
                  ltac:(repeat split))).
Defined.

(** ** What a completed turn has read *)

Lemma tag_read_valid (w w' : world) :
  EVT_TAG.read w = (w', Ok tt) ->
  exists e,
    tag_order (next_bytes 16 w) = Some e
    /\ tag_valid e (next_bytes 16 w) = true
    /\ TAG w' !! "type" = Some (VInt (u32 e (next_bytes 16 w) 4))
    /\ TAG w' !! "length" = Some (VInt (u16 e (next_bytes 16 w) 8)).
Proof.
  rewrite tag_read_run. unfold tag_read_result.
  destruct (f_closed (fp w)); [discriminate |]. cbv zeta.
  destruct (_ <? _)%nat; [discriminate |].
  destruct (Byte.eqb _ x00); [discriminate |].
  destruct (negb _); [discriminate |].
  destruct (tag_order _) as [e |]; [| discriminate].
  destruct (tag_valid e _) eqn:Hv; [| discriminate].
  intros Heq. pose proof (f_equal fst Heq) as Hw. cbn [fst] in Hw. subst w'.
  exists e. cbn [TAG set_ETag_endian set_TAG]. rewrite !apply_updates_lookup. auto.
Qed.

Lemma frame_read_fields (length : Z) (e : endian) (w w' : world)
    (rate numbyte : Z) (blocktime : value) (numchan : Z) :
  EVT_FRAME_HEADER.read length e w = (w', Ok (rate, numbyte, blocktime, numchan)) ->
  length = 32
  /\ exists streampar framestatus bitmap,
       FRM w' !! "streampar" = Some (VInt streampar)
       /\ FRM w' !! "framestatus" = Some (VInt framestatus)
       /\ FRM w' !! "channelbitmap" = Some (VInt bitmap)
       /\ rate = Z.land streampar 4095
       /\ numbyte = clamp_width framestatus
       /\ numchan = bits_set bitmap 12.
Proof.
  rewrite frame_read_run. unfold frame_read_result, frame_result.
  destruct (f_closed (fp w)); [discriminate |]. cbv zeta.
  destruct (Z.eqb_spec length 32) as [-> | Hne]; [| discriminate].
  destruct (_ =? _)%nat; [| discriminate].
  destruct (_ || _); [| discriminate].
  destruct (_ =? 4); [discriminate |].
  intros Heq. pose proof (f_equal fst Heq) as Hw. pose proof (f_equal snd Heq) as Ho.
  cbn [fst snd] in Hw, Ho. subst w'. injection Ho as <- <- _ <-.
  split; [reflexivity |]. do 3 eexists.
  cbn [FRM set_FRM]. rewrite !apply_updates_lookup.
  repeat (split; [reflexivity |]). apply popcount12_bits.
Qed.

Lemma data_read_checked (length : Z) (e : endian) (rate numbyte : Z) (blocktime : value)
    (numchan : Z) (w w' : world) (datal : list (list Z)) :
  EVT_DATA.read length e (rate, numbyte, blocktime, numchan) w = (w', Ok datal) ->
  PyFloat.int_eqb length (EVT_DATA.expected_num rate numbyte numchan) = true.
Proof.
  rewrite data_read_run. unfold data_read_result.
  destruct (f_closed (fp w)); [discriminate |]. cbv zeta.
  destruct (PyFloat.int_eqb _ _); [reflexivity | discriminate].
Qed.

(** X25: [readFile] never looks at the type of a tag, yet a turn of its
    loop completes only for a frame tag: the tag has type 2 and length 32,
    and ten times its data length is the product of the sampling rate, the
    sample width and the number of active channels of the frame header that
    follows it. *)
Theorem completed_turn_read_a_frame (e : endian) (w w' : world) :
  EVT.read_block e w = (w', Ok true) ->
  TAG w' !! "type" = Some (VInt 2)
  /\ TAG w' !! "length" = Some (VInt 32)
  /\ exists datalength streampar framestatus bitmap,
       TAG w' !! "datalength" = Some (VInt datalength)
       /\ FRM w' !! "streampar" = Some (VInt streampar)
       /\ FRM w' !! "framestatus" = Some (VInt framestatus)
       /\ FRM w' !! "channelbitmap" = Some (VInt bitmap)
       /\ 10 * datalength
          = Z.land streampar 4095 * clamp_width framestatus * bits_set bitmap 12.
Proof.
  intros Hrun.
  apply read_block_true_inv in Hrun
    as (w1 & len & rate & nb & bt & nc & w2 & dl & w4 & datal & d
        & Htag & Hlen & Hframe & Hrate & Hdl & Hdata & Hh & ->).
  apply tag_read_valid in Htag as (e0 & _ & Hvalid & Htype & Hlen').
  pose proof (frame_read_untouched len e w1) as (_ & Htag2 & _).
  rewrite Hframe in Htag2. cbn [fst] in Htag2.
  apply frame_read_fields in Hframe as Hf.
  destruct Hf as (-> & sp & fs & bm & Hsp & Hfs & Hbm & -> & -> & ->).
  pose proof (data_read_untouched dl e
                (Z.land sp 4095, clamp_width fs, bt, bits_set bm 12)
                (with_rate (Z.land sp 4095) w2)) as (_ & Htag4 & Hfrm4 & _).
  rewrite Hdata in Htag4, Hfrm4. cbn [fst] in Htag4, Hfrm4.
  assert (HT : TAG w4 = TAG w1).
  { rewrite Htag4, <- Htag2. unfold with_rate. by destruct (_ =? _). }
  assert (HF : FRM w4 = FRM w2).
  { rewrite Hfrm4. unfold with_rate. by destruct (_ =? _). }
  cbn [TAG FRM set_data]. rewrite HT, HF.
  assert (Hl32 : u16 e0 (next_bytes 16 w) 8 = 32) by congruence.
  split.
  { rewrite Htype. do 2 f_equal. revert Hvalid. unfold tag_valid. cbv zeta. rewrite Hl32.
    destruct (Z.eqb_spec (u32 e0 (next_bytes 16 w) 4) 1) as [H1 | H1];
      destruct (Z.eqb_spec (u32 e0 (next_bytes 16 w) 4) 2) as [H2 | H2];
      cbn; try discriminate; auto. }
  split; [exact Hlen |].
  exists dl, sp, fs, bm. repeat (split; [assumption |]).
  apply data_read_checked in Hdata.
  apply (expected_num_exact _ _ _ _) in Hdata; [lia |].
  split; [apply land_4095_range |]. split; [apply clamp_width_range |].
  apply bits_set_bound. lia.
Qed.

Lemma completed_turn_read_a_frame_witness :
  TAG (EVT.read_block Big zero_rate_frames).1 !! "type" = Some (VInt 2)
  /\ TAG (EVT.read_block Big zero_rate_frames).1 !! "length" = Some (VInt 32)
  /\ exists datalength streampar framestatus bitmap,
       TAG (EVT.read_block Big zero_rate_frames).1 !! "datalength" = Some (VInt datalength)
       /\ FRM (EVT.read_block Big zero_rate_frames).1 !! "streampar" = Some (VInt streampar)
       /\ FRM (EVT.read_block Big zero_rate_frames).1 !! "framestatus"
          = Some (VInt framestatus)
       /\ FRM (EVT.read_block Big zero_rate_frames).1 !! "channelbitmap"
          = Some (VInt bitmap)
       /\ 10 * datalength
          = Z.land streampar 4095 * clamp_width framestatus * bits_set bitmap 12.
Proof.
  apply (completed_turn_read_a_frame Big zero_rate_frames
           (EVT.read_block Big zero_rate_frames).1).
  rewrite (surjective_pairing (EVT.read_block Big zero_rate_frames)) at 1.
  apply (f_equal (pair _)). vm_compute. reflexivity.
Defined.



(** ** Where the calibration constants come from *)

(** The items of one channel of the fourth format, [5sbH5h3H4BHBx8f2B10x]:
    76 bytes and 27 values. *)
Definition channel_items : list (nat * fcode) :=
  [(5, Fs); (1, Fb); (1, FH); (5, Fh); (3, FH); (4, FB); (1, FH); (1, FB); (1, Fx);
   (8, Ff); (2, FB); (10, Fx)]%nat.

Definition header_items4 : list (nat * fcode) := concat (replicate 12 channel_items).

Lemma parse_HEADER_STRUCT4 : parse HEADER_STRUCT4 None = Some header_items4.
Proof. vm_compute. reflexivity. Qed.

(** Number of values a list of items decodes to. *)
Definition nvalues (items : list (nat * fcode)) : nat :=
  foldr (fun '(n, c) acc =>
           (match c with Fx => 0 | Fs => 1 | _ => n end + acc)%nat) 0%nat items.

Lemma decode_repeat_length (e : endian) (c : fcode) (n : nat) (bs : list byte) :
  length (decode_repeat e c n bs) = n.
Proof.
  revert bs. induction n as [|n IH]; intros bs; cbn [decode_repeat length]; [done |].
  by rewrite IH.
Qed.

Lemma decode_items_length (e : endian) (items : list (nat * fcode)) (bs : list byte) :
  length (decode_items e items bs) = nvalues items.
Proof.
  revert bs. induction items as [|[n c] items IH]; intros bs; [done |].
  cbn [decode_items nvalues foldr]. rewrite length_app, IH.
  fold (nvalues items). f_equal.
  destruct c; cbn [length]; try apply decode_repeat_length; reflexivity.
Qed.

Lemma decode_items_app (e : endian) (a b : list (nat * fcode)) (bs : list byte) :
  decode_items e (a ++ b) bs
  = decode_items e a bs ++ decode_items e b (drop (calcsize a) bs).
Proof.
  revert bs. induction a as [|[n c] a IH]; intros bs.
  - cbn. by rewrite drop_0.
  - cbn [app decode_items calcsize foldr]. fold (calcsize a).
    rewrite IH, drop_drop, <- app_assoc. reflexivity.
Qed.

(** Value [j] of block [i] of a repeated format is value [j] of the block
    decoded at its own bytes. *)
Lemma decode_items_block (e : endian) (blk : list (nat * fcode)) (k i j : nat)
    (bs : list byte) :
  (i < k)%nat -> (j < nvalues blk)%nat ->
  decode_items e (concat (replicate k blk)) bs !! (i * nvalues blk + j)%nat
  = decode_items e blk (drop (i * calcsize blk) bs) !! j.
Proof.
  revert i bs. induction k as [|k IH]; intros i bs Hi Hj; [lia |].
  cbn [replicate concat]. rewrite decode_items_app.
  destruct i as [|i].
  - cbn [Nat.mul Nat.add]. rewrite drop_0.
    apply lookup_app_l. by rewrite decode_items_length.
  - rewrite lookup_app_r by (rewrite decode_items_length; lia).
    rewrite decode_items_length.
    replace (S i * nvalues blk + j - nvalues blk)%nat with (i * nvalues blk + j)%nat by lia.
    rewrite IH by lia. rewrite drop_drop. do 2 f_equal; lia.
Qed.

(** The two floats of a channel block used by [calibration]: values 17
    and 18, at bytes 32 and 36. *)
Lemma channel_items_floats (e : endian) (bs : list byte) :
  decode_items e channel_items bs !! 17%nat
  = Some (VFloat (read_uint e (take 4 (drop 32 bs))))
  /\ decode_items e channel_items bs !! 18%nat
     = Some (VFloat (read_uint e (take 4 (drop 36 bs)))).
Proof.
  unfold channel_items.
  cbn [decode_items decode_repeat size_of Nat.mul Nat.add app lookup list_lookup decode1].
  rewrite !drop_drop. cbn [Nat.add]. split; reflexivity.
Qed.

Lemma header_pass4_values (e : endian) (buff : list byte) (i : nat) :
  (1624 <= length buff)%nat -> (i < 12)%nat ->
  let val := decode_items e header_items4 (slice buff 712 912) in
  val !! (i * 27 + 17)%nat = Some (VFloat (u32 e buff (744 + 76 * i)))
  /\ val !! (i * 27 + 18)%nat = Some (VFloat (u32 e buff (748 + 76 * i))).
Proof.
  intros Hlen Hi val. unfold val, header_items4.
  set (bs := slice buff 712 912).
  pose proof (decode_items_block e channel_items 12 i 17 bs Hi ltac:(cbn; lia)) as H17.
  pose proof (decode_items_block e channel_items 12 i 18 bs Hi ltac:(cbn; lia)) as H18.
  change (nvalues channel_items) with 27%nat in H17, H18.
  change (calcsize channel_items) with 76%nat in H17, H18.
  rewrite H17, H18.
  destruct (channel_items_floats e (drop (i * 76) bs)) as [-> ->].
  unfold bs. rewrite !drop_drop, !slice_inner by lia.
  rewrite !take4_nth by lia. unfold u32.
  replace (712 + (i * 76 + 32))%nat with (744 + 76 * i)%nat by lia.
  replace (712 + (i * 76 + 36))%nat with (748 + 76 * i)%nat by lia.
  split; reflexivity.
Qed.

Lemma header_pass4_run (e : endian) (buff : list byte) :
  (1624 <= length buff)%nat ->
  header_pass e HEADER_STRUCT4 buff 712 912 140
  = updates EVT_HEADER_HEADER (decode_items e header_items4 (slice buff 712 912)) 140.
Proof.
  intros Hlen. unfold header_pass.
  rewrite (unpack_parsed _ HEADER_STRUCT4 e header_items4)
    by (apply split_order_prefix || apply parse_HEADER_STRUCT4).
  rewrite slice_length. replace (Nat.min 912 (length buff - 712)) with 912%nat by lia.
  reflexivity.
Qed.

Lemma omap_map_ok {A B} (f : A -> outcome B) (g : A -> B) (l : list A) :
  (forall x, x ∈ l -> f x = Ok (g x)) -> omap f l = Ok (map g l).
Proof.
  induction l as [|x l IH]; intros H; [done |].
  cbn [omap map]. rewrite (H x) by left. cbn [obind].
  rewrite IH by (intros y Hy; apply H; by right). reflexivity.
Qed.

(** The array a field of the fourth pass gathers, one value per channel. *)
Lemma header_array4 (e : endian) (buff : list byte) (key : string) (pos : Z)
    (g : nat -> value) :
  (1624 <= length buff)%nat ->
  (key, (pos, T_array 12 27 pos)) ∈ EVT_HEADER_HEADER ->
  140 <= pos < 167 ->
  (forall i, (i < 12)%nat ->
     decode_items e header_items4 (slice buff 712 912)
       !! (i * 27 + Z.to_nat (pos - 140))%nat = Some (g i)) ->
  find_update (header_updates e buff).1 key = Some (VList (map g (seq 0 12))).
Proof.
  intros Hlen Hin Hpos Hval.
  assert (Hz : forall fmt lo n off,
             (header_pass e fmt (zeros 1624) lo n off).2 = Ok tt ->
             (lo + n <= 1624)%nat -> (header_pass e fmt buff lo n off).2 = Ok tt).
  { intros fmt lo n off Hz Hb. apply header_pass_full; [exact Hz | exact Hb | lia]. }
  pose proof (Hz HEADER_STRUCT1 0%nat 124%nat 0
                ltac:(destruct e; vm_compute; reflexivity) ltac:(lia)) as H1.
  pose proof (Hz HEADER_STRUCT2 124%nat 432%nat 35
                ltac:(destruct e; vm_compute; reflexivity) ltac:(lia)) as H2.
  pose proof (Hz HEADER_STRUCT3 556%nat 156%nat 107
                ltac:(destruct e; vm_compute; reflexivity) ltac:(lia)) as H3.
  pose proof (Hz HEADER_STRUCT4 712%nat 912%nat 140
                ltac:(destruct e; vm_compute; reflexivity) ltac:(lia)) as H4.
  set (val := decode_items e header_items4 (slice buff 712 912)) in *.
  assert (Hl : length val = 324%nat) by (unfold val; by rewrite decode_items_length).
  destruct (updates_lookup EVT_HEADER_HEADER val 140 key pos (T_array 12 27 pos)
              header_keys_nodup Hin ltac:(rewrite Hl; lia)) as (v & Hv & Hf).
  { unfold val. rewrite <- header_pass4_run by lia. exact H4. }
  unfold header_updates, then_updates. rewrite H1. cbn [fst snd]. rewrite H2.
  cbn [fst snd]. rewrite H3. cbn [fst snd].
  rewrite !find_update_app, header_pass4_run by lia. fold val. rewrite Hf. f_equal.
  assert (Hraw : exists raw, val_at val (pos - 140) = Ok raw).
  { unfold val_at. destruct (Z.ltb_spec (pos - 140) 0) as [|_]; [lia |].
    destruct (lookup_lt_is_Some_2 val (Z.to_nat (pos - 140)) ltac:(lia)) as [raw ->].
    by exists raw. }
  destruct Hraw as [raw Hraw]. rewrite Hraw in Hv. cbn [obind apply_transform] in Hv.
  unfold _array in Hv.
  change (seqZ 0 12) with (map Z.of_nat (seq 0 12)) in Hv.
  rewrite (omap_map_ok _ (fun z => g (Z.to_nat z))) in Hv.
  - cbn [obind] in Hv. injection Hv as <-. reflexivity.
  - intros z Hz'. apply list_elem_of_fmap in Hz' as (i & -> & Hi).
    apply elem_of_seq in Hi. rewrite Nat2Z.id. unfold val_at.
    destruct (Z.ltb_spec (pos + Z.of_nat i * 27 - 140) 0) as [|_]; [lia |].
    replace (Z.to_nat (pos + Z.of_nat i * 27 - 140))
      with (i * 27 + Z.to_nat (pos - 140))%nat by lia.
    rewrite Hval by lia. reflexivity.
Qed.

(** X27: the calibration constants of channel [i] that [EVT_HEADER.read]
    leaves in the header dictionary are the 32-bit floats at bytes
    [744 + 76 i] (full scale) and [748 + 76 i] (sensitivity) of the file
    header, for the twelve channels in order, in the byte order given to the
    reader. *)
Theorem calibration_constants_layout (w : world) (e : endian) :
  f_closed (fp w) = false ->
  (1624 <= length (read_bytes 2040 w))%nat ->
  let buff := read_bytes 2040 w in
  let w' := (EVT_HEADER.read 2040 e w).1 in
  HDR w' !! "chan_fullscale"
  = Some (VList (map (fun i => VFloat (u32 e buff (744 + 76 * i))) (seq 0 12)))
  /\ HDR w' !! "chan_sensitivity"
     = Some (VList (map (fun i => VFloat (u32 e buff (748 + 76 * i))) (seq 0 12))).
Proof.
  intros Hopen Hlen buff w'. unfold w'. rewrite header_read_run.
  unfold header_read_result. rewrite Hopen. cbv zeta. cbn [Z.eqb Pos.eqb fst HDR set_HDR].
  fold buff. rewrite !apply_updates_lookup.
  split.
  - rewrite (header_array4 e buff "chan_fullscale" 157
               (fun i => VFloat (u32 e buff (744 + 76 * i)))); [reflexivity | exact Hlen | | lia |].
    + apply list_elem_of_In. cbn. tauto.
    + intros i Hi. change (Z.to_nat (157 - 140)) with 17%nat.
      by destruct (header_pass4_values e buff i Hlen Hi) as [-> _].
  - rewrite (header_array4 e buff "chan_sensitivity" 158
               (fun i => VFloat (u32 e buff (748 + 76 * i)))); [reflexivity | exact Hlen | | lia |].
    + apply list_elem_of_In. cbn. tauto.
    + intros i Hi. change (Z.to_nat (158 - 140)) with 18%nat.
      by destruct (header_pass4_values e buff i Hlen Hi) as [_ ->].
Qed.

Lemma calibration_constants_layout_witness :
  let buff := read_bytes 2040 (stream_world (header_block Little 3 7)) in
  let w' := (EVT_HEADER.read 2040 Little (stream_world (header_block Little 3 7))).1 in
  HDR w' !! "chan_fullscale"
  = Some (VList (map (fun i => VFloat (u32 Little buff (744 + 76 * i))) (seq 0 12)))
  /\ HDR w' !! "chan_sensitivity"
     = Some (VList (map (fun i => VFloat (u32 Little buff (748 + 76 * i))) (seq 0 12))).
Proof.
  apply (calibration_constants_layout (stream_world (header_block Little 3 7)) Little).
  - reflexivity.
  - vm_compute. lia.
Defined.
